(** * secaudit: workflow contract, section locator, validator, summarizer, ledger

    A shallow embedding of the TypeScript sources of the secaudit core
    (control-plane/workflow.ts, control-plane/orchestrator.ts,
    analysis/locator.ts, analysis/validator.ts, analysis/summarizer.ts,
    ledger/ledger.ts) and the properties of its specification.

    Conventions of the embedding
    - a JavaScript string is the list of its UTF-16 code units ([jsstring]),
      so that [length] is the source's [.length];
    - a JavaScript number that the code only compares, counts or copies is an
      exact number: offsets and lengths are [Z] or [nat], confidences and
      sentence scores are rationals ([Q]) written as the decimal literal of
      the source ([0.95] is [95 # 100]);
    - a thrown [Error] is a value of an outcome type, [console] output is
      left out except for [console.warn] in the validator;
    - what the program obtains from the outside (the network fetch, text
      extraction, the HTML parser, the Unicode case table, the step timer and
      the wall clock) is a parameter. *)

From Stdlib Require Import Ascii String DecimalString.
From Stdlib Require Import List Bool Arith ZArith NArith QArith Qround Qabs.
From Stdlib Require Import Lia Permutation Sorted.
Import ListNotations.

Set Implicit Arguments.
Local Open Scope list_scope.

(* ================================================================== *)
(** ** JavaScript strings *)
(* ================================================================== *)

Definition jsstring := list N.

(** An ASCII literal of the source as a sequence of code units. *)
Definition js (s : string) : jsstring :=
  map N_of_ascii (list_ascii_of_string s).

Definition jsstring_eq_dec : forall a b : jsstring, {a = b} + {a <> b} :=
  list_eq_dec N.eq_dec.

Definition str_eqb (a b : jsstring) : bool :=
  if jsstring_eq_dec a b then true else false.

(** [Array.prototype.includes] on an array of strings. *)
Definition includes (l : list jsstring) (x : jsstring) : bool :=
  existsb (str_eqb x) l.

(** Code units matched by [\s], which are also the ones removed by
    [String.prototype.trim] (WhiteSpace and LineTerminator). *)
Definition is_space (c : N) : bool :=
  ((9 <=? c) && (c <=? 13) || (c =? 32) || (c =? 160) || (c =? 5760)
   || (8192 <=? c) && (c <=? 8202) || (c =? 8232) || (c =? 8233)
   || (c =? 8239) || (c =? 8287) || (c =? 12288) || (c =? 65279))%N.

Definition is_digit (c : N) : bool := ((48 <=? c) && (c <=? 57))%N.

Definition is_ascii_letter (c : N) : bool :=
  ((65 <=? c) && (c <=? 90) || (97 <=? c) && (c <=? 122))%N.

(** [\w] without the unicode flag. *)
Definition is_word (c : N) : bool :=
  is_ascii_letter c || is_digit c || (c =? 95)%N.

Fixpoint trimStart (s : jsstring) : jsstring :=
  match s with
  | c :: s' => if is_space c then trimStart s' else s
  | [] => []
  end.

Definition trimEnd (s : jsstring) : jsstring := rev (trimStart (rev s)).

(** [String.prototype.trim]. *)
Definition trim (s : jsstring) : jsstring := trimEnd (trimStart s).

(** [s.split(sep)] for a one-code-unit separator; never the empty array. *)
Fixpoint split_on (sep : N) (s : jsstring) : list jsstring :=
  match s with
  | [] => [[]]
  | c :: s' =>
      if (c =? sep)%N then [] :: split_on sep s'
      else match split_on sep s' with
           | l :: ls => (c :: l) :: ls
           | [] => [[c]]
           end
  end.

(** [parts.join(sep)]. *)
Fixpoint join (sep : jsstring) (parts : list jsstring) : jsstring :=
  match parts with
  | [] => []
  | [p] => p
  | p :: ps => p ++ sep ++ join sep ps
  end.

(** [s.slice(a, b)] for [0 <= a <= b]. *)
Definition slice (a b : nat) (s : jsstring) : jsstring :=
  firstn (b - a) (skipn a s).

(** [text.replace(/\s+/g, ' ')]: every maximal run of white space becomes
    one space. *)
Fixpoint collapse_spaces (s : jsstring) : jsstring :=
  match s with
  | [] => []
  | c :: s' =>
      if is_space c then
        match s' with
        | d :: _ => if is_space d then collapse_spaces s'
                    else 32%N :: collapse_spaces s'
        | [] => [32%N]
        end
      else c :: collapse_spaces s'
  end.

(** [haystack.includes(needle)] on strings. *)
Fixpoint starts_with (needle s : jsstring) : bool :=
  match needle, s with
  | [], _ => true
  | n :: needle', c :: s' => (n =? c)%N && starts_with needle' s'
  | _ :: _, [] => false
  end.

Fixpoint str_includes (needle s : jsstring) : bool :=
  starts_with needle s ||
  match s with
  | [] => false
  | _ :: s' => str_includes needle s'
  end.

(** Decimal rendering of a number inside a template literal. *)
Definition nat_to_js (n : nat) : jsstring :=
  js (NilZero.string_of_uint (Nat.to_uint n)).

Definition Z_to_js (z : Z) : jsstring :=
  js (NilZero.string_of_int (Z.to_int z)).

(* ================================================================== *)
(** ** Regular expressions

    The fragment of ECMAScript regular expressions the sources use, with the
    backtracking order of the language: [ends r s i] lists, in priority
    order, the positions where a match of [r] that starts at position [i] of
    [s] can end.  The head of the list is the match the engine reports. *)
(* ================================================================== *)

Inductive regex : Type :=
| Eps
| Chr (p : N -> bool)            (* one code unit of a class *)
| Seq (r1 r2 : regex)
| Opt (r : regex)                (* r?  greedy *)
| Star (r : regex)               (* r*  greedy *)
| Bol                            (* ^ without the m flag *)
| WordB                          (* \b *)
| NotAhead (r : regex)           (* (?!r) *)
| Behind (p : N -> bool).        (* (?<=[class]) *)

Definition Plus (r : regex) : regex := Seq r (Star r).

Definition word_at (s : jsstring) (i : nat) : bool :=
  match nth_error s i with
  | Some c => is_word c
  | None => false
  end.

Definition word_before (s : jsstring) (i : nat) : bool :=
  match i with
  | O => false
  | S k => word_at s k
  end.

(** Greedy iteration; an iteration that consumes nothing is rejected, as in
    the language, so [fuel] beyond the remaining length is never used. *)
Fixpoint star_loop (step : nat -> list nat) (fuel : nat) (i : nat) : list nat :=
  match fuel with
  | O => [i]
  | S f =>
      flat_map (fun j => if i <? j then star_loop step f j else []) (step i)
      ++ [i]
  end.

Fixpoint ends (r : regex) (s : jsstring) (i : nat) : list nat :=
  match r with
  | Eps => [i]
  | Chr p =>
      match nth_error s i with
      | Some c => if p c then [S i] else []
      | None => []
      end
  | Seq r1 r2 => flat_map (ends r2 s) (ends r1 s i)
  | Opt r1 => ends r1 s i ++ [i]
  | Star r1 => star_loop (ends r1 s) (S (length s - i)) i
  | Bol => if i =? 0 then [i] else []
  | WordB => if xorb (word_before s i) (word_at s i) then [i] else []
  | NotAhead r1 =>
      match ends r1 s i with
      | [] => [i]
      | _ :: _ => []
      end
  | Behind p =>
      match i with
      | O => []
      | S k => match nth_error s k with
               | Some c => if p c then [i] else []
               | None => []
               end
      end
  end.

(** The end of the match the engine finds at position [i], if any. *)
Definition match_at (r : regex) (s : jsstring) (i : nat) : option nat :=
  hd_error (ends r s i).

(** [r.exec(s)] for a regex without the g flag: the index of the leftmost
    match ([match.index]). *)
Fixpoint exec_from (r : regex) (s : jsstring) (fuel i : nat) : option nat :=
  match match_at r s i with
  | Some _ => Some i
  | None =>
      match fuel with
      | O => None
      | S f => exec_from r s f (S i)
      end
  end.

Definition exec (r : regex) (s : jsstring) : option nat :=
  exec_from r s (length s) 0.

(** [r.test(s)]. *)
Definition test (r : regex) (s : jsstring) : bool :=
  match exec r s with
  | Some _ => true
  | None => false
  end.

(** Case-insensitive literal: under the [i] flag without the [u] flag an
    ASCII letter of the pattern matches exactly its two ASCII cases, and any
    other code unit of the patterns below matches only itself. *)
Definition lower_ascii (c : N) : N :=
  if ((65 <=? c) && (c <=? 90))%N then (c + 32)%N else c.

Definition chr_i (c : N) : regex :=
  Chr (fun x => (lower_ascii x =? lower_ascii c)%N).

Definition lit_i (s : string) : regex :=
  fold_right (fun c r => Seq (chr_i c) r) Eps (js s).

Definition chr_eq (c : N) : regex := Chr (N.eqb c).

(** [s.split(sep)] for a regular-expression separator (SplitMatcher loop of
    the language definition): [p] is the start of the current piece, [q] the
    position tried next.  Every two rounds [q] advances, so the fuel
    [2 * length s + 2] given by [regex_split] is never exhausted. *)
Fixpoint regex_split_loop (sep : regex) (s : jsstring) (fuel p q : nat)
  : list jsstring :=
  match fuel with
  | O => [slice p (length s) s]
  | S f =>
      if length s <=? q then [slice p (length s) s]
      else
        match match_at sep s q with
        | None => regex_split_loop sep s f p (S q)
        | Some e =>
            let e := Nat.min e (length s) in
            if e =? p then regex_split_loop sep s f p (S q)
            else slice p q s :: regex_split_loop sep s f e e
        end
  end.

Definition regex_split (sep : regex) (s : jsstring) : list jsstring :=
  match s with
  | [] => match match_at sep s 0 with
          | Some _ => []
          | None => [s]
          end
  | _ :: _ => regex_split_loop sep s (2 * length s + 2) 0 0
  end.

(* ================================================================== *)
(** ** Data model (control-plane/types.ts, ledger/types.ts) *)
(* ================================================================== *)

Inductive InvocationMode := command | intent.
Inductive OutputFormat := json | md.
Inductive FetchSource := sec | edgar_archive | url_source.
Inductive ContentType := html | pdf | text.

Inductive StepName :=
| fetch | extract | locate_sections | validate | generate | emit_ledger.

Inductive StepStatus := pending | running | passed | failed | skipped.

Definition StepName_eq_dec : forall a b : StepName, {a = b} + {a <> b}.
Proof. decide equality. Defined.

Definition StepName_eqb (a b : StepName) : bool :=
  if StepName_eq_dec a b then true else false.

Definition InvocationMode_eqb (a b : InvocationMode) : bool :=
  match a, b with
  | command, command | intent, intent => true
  | _, _ => false
  end.

(** The name of a step as the string the ledger stores. *)
Definition StepName_str (n : StepName) : jsstring :=
  match n with
  | fetch => js "fetch"
  | extract => js "extract"
  | locate_sections => js "locate_sections"
  | validate => js "validate"
  | generate => js "generate"
  | emit_ledger => js "emit_ledger"
  end.

Module AnalyzeOptions.
Record t := mk {
  ticker : jsstring;
  year : Z;
  mode : InvocationMode;
  format : OutputFormat;
  out : jsstring;
  source : FetchSource;
  url : option jsstring;
  require : list jsstring;
  strict : bool;
  cache : bool;
  invocationId : jsstring
}.
End AnalyzeOptions.

Module StepResult.
Record t := mk {
  name : StepName;
  status : StepStatus;
  durationMs : Z;
  error : option jsstring
}.
End StepResult.

Module SectionMatch.
Record t := mk {
  name : jsstring;
  found : bool;
  confidence : Q;
  startOffset : Z;
  endOffset : Z;
  lengthChars : nat;
  content : jsstring
}.
End SectionMatch.

(** What the [name] field of an analysis holds at run time: a string, or,
    for the placeholder of a key whose lower case names a member that an
    object literal inherits from [Object.prototype], the value of that
    member: a built-in function, or [Object.prototype] itself for
    [__proto__]. *)
Inductive NameValue :=
| Str (s : jsstring)
| Inherited (member : jsstring).

Module SectionAnalysis.
Record t := mk {
  name : NameValue;
  found : bool;
  confidence : Q;
  summary : list jsstring;
  evidence : list jsstring
}.
End SectionAnalysis.

Module WorkflowContext.
Record t := mk {
  options : AnalyzeOptions.t;
  rawContent : jsstring;
  contentType : ContentType;
  extractedText : jsstring;
  sections : list SectionMatch.t;
  analyses : list SectionAnalysis.t;
  stepResults : list StepResult.t;
  overallSummary : list jsstring
}.
End WorkflowContext.

(** [execute] mutates the context it receives and either returns or throws:
    the result is the context after the mutations and the message of the
    error thrown, if any. *)
Module WorkflowStep.
Record t := mk {
  name : StepName;
  required : bool;
  execute : WorkflowContext.t -> WorkflowContext.t * option jsstring
}.
End WorkflowStep.

Module WorkflowPlan.
Record t := mk {
  steps : list WorkflowStep.t;
  skippedSteps : list StepName;
  confidenceThreshold : Q
}.
End WorkflowPlan.

Module AnalysisOutput.
Record t := mk {
  invocationId : jsstring;
  mode : InvocationMode;
  workflow : jsstring;
  input : jsstring * Z;
  sections : list SectionAnalysis.t;
  overallSummary : list jsstring
}.
End AnalysisOutput.

Module SectionValidationEntry.
Record t := mk {
  found : bool;
  confidence : Q;
  lengthChars : nat
}.
End SectionValidationEntry.

(** A JavaScript object used as a record of named entries, in the order of
    its keys (none of which is an array index here): assigning to a key that
    is present replaces its value in place, assigning to a new key appends
    it. *)
Fixpoint obj_set (A : Type) (k : jsstring) (v : A) (o : list (jsstring * A))
  : list (jsstring * A) :=
  match o with
  | [] => [(k, v)]
  | (k', v') :: o' =>
      if str_eqb k k' then (k', v) :: o' else (k', v') :: obj_set k v o'
  end.

Module AuditLedger.
Record t := mk {
  invocationId : jsstring;
  timestamp : jsstring;
  mode : InvocationMode;
  deterministic : bool;
  workflow : jsstring;
  requiredSteps : list StepName;
  executedSteps : list StepName;
  skippedSteps : list StepName;
  durationsMs : list (jsstring * Z);
  sectionValidation : list (jsstring * SectionValidationEntry.t);
  passed : bool;
  failureReason : option jsstring
}.
End AuditLedger.

(** summarizer.ts: [ScoredSentence] and [AnalysisResult]. *)
Module ScoredSentence.
Record t := mk { text : jsstring; score : Q }.
End ScoredSentence.

Module AnalysisResult.
Record t := mk {
  sections : list SectionAnalysis.t;
  overallSummary : list jsstring
}.
End AnalysisResult.

(** orchestrator.ts: a file written by [emitOutputs] into the directory
    [dir], held as the value that is serialised into it. *)
Inductive OutputFile :=
| LedgerFile (dir name : jsstring) (ledger : AuditLedger.t)
| AnalysisFile (dir name : jsstring) (analysis : AnalysisOutput.t).

(** What a run leaves behind: the final context, the files written, and the
    exit code when the run ended in [process.exit]. *)
Module RunResult.
Record t := mk {
  ctx : WorkflowContext.t;
  files : list OutputFile;
  exitCode : option Z
}.
End RunResult.

(** intent-router: [IntentSignals], [IntentOverrides], [IntentResult]. *)
Module IntentSignals.
Record t := mk {
  wantsRiskFactors : bool;
  wantsMdna : bool;
  wantsFinancials : bool;
  isVague : bool
}.
End IntentSignals.

Module IntentOverrides.
Record t := mk {
  ticker : option jsstring;
  year : option Z
}.
End IntentOverrides.

Module IntentResult.
Record t := mk {
  ticker : jsstring;
  year : Z;
  requiredSections : list jsstring;
  plan : WorkflowPlan.t
}.
End IntentResult.

(** intent-router/llm-router.ts: the parsed reply of the model (a field
    that the reply leaves out is absent) and the result of the router. *)
Module LlmResponse.
Record t := mk {
  ticker : option jsstring;
  year : option Z;
  steps : option (list jsstring);
  sections : option (list jsstring);
  reasoning : option jsstring
}.
End LlmResponse.

Module LlmRouteResult.
Record t := mk {
  ticker : jsstring;
  year : Z;
  requiredSections : list jsstring;
  plan : WorkflowPlan.t;
  reasoning : option jsstring
}.
End LlmRouteResult.

(** cli/commands.ts: the options that the command-line parser hands to the
    action of the [intent] command. *)
Module IntentCliOpts.
Record t := mk {
  llm : bool;
  model : jsstring;
  format : OutputFormat;
  out : jsstring;
  ticker : option jsstring;
  year : option Z;
  cache : bool;
  invocationId : option jsstring
}.
End IntentCliOpts.

(** Comparison of two JavaScript numbers held as rationals. *)
Definition Qltb (a b : Q) : bool := negb (Qle_bool b a).

(* ================================================================== *)
(** ** Section locator (analysis/locator.ts) *)
(* ================================================================== *)

Module SectionPattern.
Record t := mk {
  key : jsstring;
  requireKeys : list jsstring;
  headingPatterns : list regex
}.
End SectionPattern.

Definition em_dash : N := 8212.
Definition en_dash : N := 8211.

(** The class [[\.\s\-\u2014\u2013]]. *)
Definition is_heading_sep (c : N) : bool :=
  ((c =? 46) || is_space c || (c =? 45) || (c =? em_dash) || (c =? en_dash))%N.

Definition ws_plus : regex := Plus (Chr is_space).
Definition sep_plus : regex := Plus (Chr is_heading_sep).

(** [/^item\s+1a[\.\s\-\u2014\u2013]+risk\s+factors/i] and [/^item\s+1a\b/i]. *)
Definition risk_patterns : list regex :=
  [ Seq Bol (Seq (lit_i "item") (Seq ws_plus (Seq (lit_i "1a")
      (Seq sep_plus (Seq (lit_i "risk") (Seq ws_plus (lit_i "factors")))))));
    Seq Bol (Seq (lit_i "item") (Seq ws_plus (Seq (lit_i "1a") WordB))) ].

(** [/^item\s+7[\.\s\-\u2014\u2013]+management'?s?\s+discussion/i] and
    [/^item\s+7\b(?!\s*a)/i]. *)
Definition mdna_patterns : list regex :=
  [ Seq Bol (Seq (lit_i "item") (Seq ws_plus (Seq (lit_i "7")
      (Seq sep_plus (Seq (lit_i "management") (Seq (Opt (chr_i 39))
        (Seq (Opt (chr_i 115)) (Seq ws_plus (lit_i "discussion")))))))));
    Seq Bol (Seq (lit_i "item") (Seq ws_plus (Seq (lit_i "7")
      (Seq WordB (NotAhead (Seq (Star (Chr is_space)) (chr_i 97))))))) ].

(** [/^item\s+8[\.\s\-\u2014\u2013]+financial\s+statements/i] and [/^item\s+8\b/i]. *)
Definition financials_patterns : list regex :=
  [ Seq Bol (Seq (lit_i "item") (Seq ws_plus (Seq (lit_i "8")
      (Seq sep_plus (Seq (lit_i "financial") (Seq ws_plus
        (lit_i "statements")))))));
    Seq Bol (Seq (lit_i "item") (Seq ws_plus (Seq (lit_i "8") WordB))) ].

Definition SECTION_PATTERNS : list SectionPattern.t :=
  [ SectionPattern.mk (js "risk_factors")
      [js "risk-factors"; js "risk_factors"] risk_patterns;
    SectionPattern.mk (js "mdna")
      [js "mdna"; js "md&a"; js "mda"] mdna_patterns;
    SectionPattern.mk (js "financials")
      [js "financials"; js "financial-statements"; js "financial_statements"]
      financials_patterns ].

(** [/^item\s+\d+[a-z]?[\.\s\-\u2014\u2013]/i]. *)
Definition NEXT_ITEM_HEADING : regex :=
  Seq Bol (Seq (lit_i "item") (Seq ws_plus (Seq (Plus (Chr is_digit))
    (Seq (Opt (Chr is_ascii_letter)) (Chr is_heading_sep))))).

Definition makeNotFound (name : jsstring) : SectionMatch.t :=
  SectionMatch.mk name false 0 (-1) (-1) 0 [].

(** The first pattern of the list, with its index, that satisfies [hit]. *)
Fixpoint first_pattern (hit : regex -> bool) (pi : nat) (ps : list regex)
  : option nat :=
  match ps with
  | [] => None
  | r :: ps' => if hit r then Some pi else first_pattern hit (S pi) ps'
  end.

(** White-space normalised text of a block: [.replace(/\s+/g, ' ').trim()]. *)
Definition block_text (t : jsstring) : jsstring := trim (collapse_spaces t).

(** First loop of [findSectionByDomSiblings]: the index of the heading block
    and the index of the pattern that matched it. *)
Fixpoint find_heading (ps : list regex) (i : nat) (divs : list jsstring)
  : option (nat * nat) :=
  match divs with
  | [] => None
  | d :: divs' =>
      let t := block_text d in
      if (150 <? length t) || (length t <? 3) then find_heading ps (S i) divs'
      else match first_pattern (fun r => test r t) 0 ps with
           | Some pi => Some (i, pi)
           | None => find_heading ps (S i) divs'
           end
  end.

(** Second loop of [findSectionByDomSiblings], over the blocks after the
    heading: the collected blocks and the index where the scan stopped. *)
Fixpoint collect_blocks (i : nat) (divs : list jsstring)
  : list jsstring * nat :=
  match divs with
  | [] => ([], i)
  | d :: divs' =>
      let t := block_text d in
      if (length t <? 100) && test NEXT_ITEM_HEADING t then ([], i)
      else
        let (blocks, e) := collect_blocks (S i) divs' in
        (if 2 <? length t then t :: blocks else blocks, e)
  end.

Definition findSectionByDomSiblings (bodyDivs : list jsstring)
  (pattern : SectionPattern.t) : SectionMatch.t :=
  match find_heading (SectionPattern.headingPatterns pattern) 0 bodyDivs with
  | None => makeNotFound (SectionPattern.key pattern)
  | Some (headingIdx, pi) =>
      let confidence := if pi =? 0 then 95 # 100 else 90 # 100 in
      let (contentBlocks, endIdx) :=
        collect_blocks (S headingIdx) (skipn (S headingIdx) bodyDivs) in
      let content := join [10%N] contentBlocks in
      SectionMatch.mk (SectionPattern.key pattern) true confidence
        (Z.of_nat headingIdx) (Z.of_nat endIdx) (length content) content
  end.

(** [r.source.replace(/^\^/, '')]: the pattern without its leading anchor. *)
Definition unanchored (r : regex) : regex :=
  match r with
  | Seq Bol r' => r'
  | _ => r
  end.

(** The scan of [extractTextSection] for the line that ends the section,
    from line [i] on. *)
Fixpoint find_end (i : nat) (lines : list jsstring) : option nat :=
  match lines with
  | [] => None
  | l :: lines' =>
      let trimmed := trim l in
      if length trimmed <? 3 then find_end (S i) lines'
      else if test NEXT_ITEM_HEADING trimmed && (length trimmed <? 150)
           then Some i
           else find_end (S i) lines'
  end.

Definition MAX_SECTION_CHARS : N := 100000.

Definition extractTextSection (text : jsstring) (startOffset : nat)
  : jsstring :=
  let afterHeading := skipn startOffset text in
  let lines := split_on 10 afterHeading in
  let sectionLines :=
    match find_end 3 (skipn 3 lines) with
    | Some endIdx => firstn endIdx lines
    | None => firstn 800 lines
    end in
  let content := trim (join [10%N] sectionLines) in
  if (MAX_SECTION_CHARS <? N.of_nat (length content))%N
  then firstn (N.to_nat MAX_SECTION_CHARS) content
  else content.

(** The callback of [allPatterns.map] in [locateInText]. *)
Fixpoint locate_pattern_in_text (key text : jsstring) (pi : nat)
  (ps : list regex) : SectionMatch.t :=
  match ps with
  | [] => makeNotFound key
  | r :: ps' =>
      match exec (unanchored r) text with
      | Some startOffset =>
          let confidence := if pi =? 0 then 90 # 100 else 85 # 100 in
          let sectionContent := extractTextSection text startOffset in
          SectionMatch.mk key true confidence (Z.of_nat startOffset)
            (Z.of_nat startOffset + Z.of_nat (length sectionContent))
            (length sectionContent) sectionContent
      | None => locate_pattern_in_text key text (S pi) ps'
      end
  end.

Definition locateInText (text : jsstring) : list SectionMatch.t :=
  map (fun pattern =>
         locate_pattern_in_text (SectionPattern.key pattern) text 0
           (SectionPattern.headingPatterns pattern))
      SECTION_PATTERNS.

(* ================================================================== *)
(** ** Text extraction (tools/extractor.ts) *)
(* ================================================================== *)

Module Extractor.
Section Dom.

(** [cheerio.load(html)] after [$('script, style, noscript, meta,
    link').remove()]: for every element selected by [p, td, th, li, h1, h2,
    h3, h4, h5, h6, dt, dd, blockquote], in document order, the texts of its
    child nodes ([$(el).contents().toArray().map((n) => $(n).text())]). *)
Variable content_blocks : jsstring -> list (list jsstring).

(** [$('body').text()] and [$.text()] of the same document. *)
Variable body_text : jsstring -> jsstring.
Variable root_text : jsstring -> jsstring.

(** [pdfjs.getDocument] and [getTextContent]: for every page, the [str] of
    its text items, or the message of the error thrown on the way. *)
Variable pdf_pages : jsstring -> list (list jsstring) + jsstring.

(** The callback of [each]: [blocks] and [seen] after one more element. *)
Definition add_block (acc : list jsstring * list jsstring)
  (nodes : list jsstring) : list jsstring * list jsstring :=
  let (blocks, seen) := acc in
  let text := block_text (join [32%N] nodes) in
  if (2 <? length text) && negb (includes seen text)
  then (blocks ++ [text], text :: seen)
  else (blocks, seen).

Definition extractFromHtml (html : jsstring) : jsstring :=
  let blocks := fst (fold_left add_block (content_blocks html) ([], [])) in
  match blocks with
  | [] =>
      let body := block_text (body_text html) in
      if 0 <? length body then body else block_text (root_text html)
  | _ :: _ => join [10%N] blocks
  end.

Definition extractFromPdf (content : jsstring) : jsstring + jsstring :=
  match pdf_pages content with
  | inl pages => inl (join [10%N; 10%N] (map (join [32%N]) pages))
  | inr message =>
      inr (js "PDF extraction failed: " ++ message ++
           js ". Try providing an HTML filing URL instead.")
  end.

(** The text, or the message of the error thrown. *)
Definition extractText (rawContent : jsstring) (contentType : ContentType)
  : jsstring + jsstring :=
  match contentType with
  | html => inl (extractFromHtml rawContent)
  | pdf => extractFromPdf rawContent
  | text => inl rawContent
  end.

End Dom.
End Extractor.

(* ================================================================== *)
(** ** Cache keys (tools/cache.ts) *)
(* ================================================================== *)

Module Cache.

(** The class [[a-zA-Z0-9_-]]. *)
Definition is_key_char (c : N) : bool :=
  is_ascii_letter c || is_digit c || (c =? 95)%N || (c =? 45)%N.

(** [key.replace(/[^a-zA-Z0-9_-]/g, '_')]. *)
Definition sanitize (key : jsstring) : jsstring :=
  map (fun c => if is_key_char c then c else 95%N) key.

End Cache.

(* ================================================================== *)
(** ** Sample collaborators and inputs

    Stand-ins for the outside world and inputs taken from the test suite of
    the repository, used to run the program on concrete values. *)
(* ================================================================== *)

(** [toLowerCase] on strings of ASCII code units. *)
Definition toLowerCase_ascii (s : jsstring) : jsstring := map lower_ascii s.

(** The document of the locator test with a missing section. *)
Definition sample_html : jsstring :=
  js "<html><body><div>Item 1A. Risk Factors</div><div>Risk content here with enough text to pass validation checks.</div><div>Item 7. Management's Discussion and Analysis</div><div>MDNA content here with revenue and growth discussion.</div><div>Item 9. Other Stuff</div></body></html>".

Definition sample_divs : list jsstring :=
  map js
    [ "Item 1A. Risk Factors";
      "Risk content here with enough text to pass validation checks.";
      "Item 7. Management's Discussion and Analysis";
      "MDNA content here with revenue and growth discussion.";
      "Item 9. Other Stuff" ]%string.

(** The parse of [sample_html]; any other document has no block here. *)
Definition parse_sample (rawHtml : jsstring) : list jsstring :=
  if str_eqb rawHtml sample_html then sample_divs else [].

(** The plain text of the locator test. *)
Definition sample_text : jsstring :=
  join [10%N]
    (map js
       [ "Some preamble text";
         "Item 1A. Risk Factors";
         "The company faces risk from economic downturns.";
         "Regulatory changes could affect business.";
         "Item 7. Management Discussion and Analysis";
         "Revenue grew 10% year over year.";
         "Operating expenses increased.";
         "Item 8. Financial Statements";
         "Total revenue was $100 billion.";
         "Net income was $25 billion.";
         "Item 9. Other Matters" ]%string).

(** A fetch that fails, as when the network is unreachable. *)
Definition fetch_unreachable (_ : AnalyzeOptions.t)
  : (jsstring * ContentType) + jsstring :=
  inr (js "fetch failed").

(** A fetch that returns [sample_html]. *)
Definition fetch_sample (_ : AnalyzeOptions.t)
  : (jsstring * ContentType) + jsstring :=
  inl (sample_html, html).

(** An extractor that returns the payload as it is. *)
Definition extract_identity (raw : jsstring) (_ : ContentType)
  : jsstring + jsstring :=
  inl raw.

(** The options of the test suite ([makeOptions]). *)
Definition sample_options (m : InvocationMode) : AnalyzeOptions.t :=
  AnalyzeOptions.mk (js "AAPL") 2023 m json (js "./out") sec None
    [js "risk-factors"; js "mdna"; js "financials"]
    (InvocationMode_eqb m command) true (js "test_ledger_01").

(** The sections of the validator test that reports all failures. *)
Definition sample_sections : list SectionMatch.t :=
  [ SectionMatch.mk (js "risk_factors") false (95 # 100) 0 1000 1000
      (repeat 120%N 1000);
    SectionMatch.mk (js "financials") true (50 # 100) 0 1000 100
      (repeat 120%N 1000) ].

Definition sample_clock : jsstring := js "2026-01-01T00:00:00.000Z".
Definition sample_clock_later : jsstring := js "2026-01-01T00:00:00.001Z".

(** A timer that reads 5 ms for every step. *)
Definition sample_elapsed (_ : nat) : Z := 5.

(** The risk-factors section of the summarizer test. *)
Definition sample_risk_section : SectionMatch.t :=
  let content :=
    join [32%N]
      (map js
         [ "The company faces significant risk from market volatility and economic downturns.";
           "Regulatory changes in key markets could adversely impact business operations.";
           "Competition from larger firms poses a risk to market share and profitability.";
           "Cybersecurity threats represent a growing area of uncertainty and potential liability.";
           "Supply chain disruption could lead to adverse effects on production timelines.";
           "Short line.";
           "Litigation risk remains elevated due to ongoing compliance investigations." ]%string) in
  SectionMatch.mk (js "risk_factors") true (95 # 100) 0
    (Z.of_nat (length content)) (length content) content.

(** A document whose risk-factors section is long enough to pass the
    validation: a heading, one long paragraph, the next heading. *)
Definition sample_long_divs : list jsstring :=
  [ js "Item 1A. Risk Factors";
    js "The company faces risk. " ++ repeat 120%N 1200;
    js "Item 1B. Unresolved Staff Comments" ].

Definition parse_long (_ : jsstring) : list jsstring := sample_long_divs.

(** A fetch that returns that document, one block per line. *)
Definition fetch_long (_ : AnalyzeOptions.t)
  : (jsstring * ContentType) + jsstring :=
  inl (join [10%N] sample_long_divs, html).

Definition sample_risk_options : AnalyzeOptions.t :=
  AnalyzeOptions.mk (js "AAPL") 2023 command json (js "./out") sec None
    [js "risk-factors"] true true (js "test_ledger_02").

(** The block elements of the first document of the extractor test, with
    its first paragraph repeated. *)
Definition sample_blocks (_ : jsstring) : list (list jsstring) :=
  [ [js "Hello world"]; [js "Second"; js "paragraph"]; [js "Hello  world "];
    [js "ok"] ].

(** The first entry of [SECTION_PATTERNS]. *)
Definition sample_risk_pattern : SectionPattern.t :=
  SectionPattern.mk (js "risk_factors")
    [js "risk-factors"; js "risk_factors"] risk_patterns.

(* ================================================================== *)
(** ** The program over its external collaborators *)
(* ================================================================== *)

Section Program.

(** [String.prototype.toLowerCase] (the Unicode case table). *)
Variable toLowerCase : jsstring -> jsstring.

(** [cheerio.load(html)] followed by [$('body > div').toArray()] and
    [$(div).text()]: the text of every top-level block, in document order. *)
Variable bodyDivTexts : jsstring -> list jsstring.

(** [fetchFiling] (tools/fetcher.ts): the payload and its content kind, or
    the message of the error thrown. *)
Variable fetchFiling :
  AnalyzeOptions.t -> (jsstring * ContentType) + jsstring.

(** [extractText] (tools/extractor.ts): the plain text, or the message of
    the error thrown. *)
Variable extractText : jsstring -> ContentType -> jsstring + jsstring.

(* ------------------------------------------------------------------ *)
(** *** locator.ts, continued *)

Definition locateInHtml (rawHtml : jsstring) : list SectionMatch.t :=
  let bodyDivs := bodyDivTexts rawHtml in
  map (findSectionByDomSiblings bodyDivs) SECTION_PATTERNS.

Definition locateSections (rawHtml extractedText : jsstring)
  (contentType : ContentType) : list SectionMatch.t :=
  match contentType with
  | html => locateInHtml rawHtml
  | _ => locateInText extractedText
  end.

Definition matchesSectionKey (sectionName requireKey : jsstring) : bool :=
  match find (fun p => str_eqb (SectionPattern.key p) sectionName)
             SECTION_PATTERNS with
  | None => false
  | Some pattern =>
      includes (SectionPattern.requireKeys pattern) (toLowerCase requireKey)
  end.

(* ------------------------------------------------------------------ *)
(** *** validator.ts *)

Definition MIN_SECTION_LENGTH : nat := 500.

(** One entry of the [failures] array, before it is rendered. *)
Inductive ValidationFailure :=
| NotFound (reqKey : jsstring)
| LowConfidence (reqKey : jsstring) (confidence threshold : Q)
| TooShort (reqKey : jsstring) (lengthChars : nat).

Definition pad2 (z : Z) : jsstring :=
  if (z <? 10)%Z then js "0" ++ Z_to_js z else Z_to_js z.

(** [x.toFixed(2)] on the exact value: the nearest multiple of 1/100, the
    larger one on a tie. *)
Definition toFixed2 (x : Q) : jsstring :=
  let n := Qfloor (Qabs x * (100 # 1) + (1 # 2)) in
  (if Qltb x 0 then js "-" else []) ++
  Z_to_js (n / 100) ++ js "." ++ pad2 (n mod 100).

Definition failure_message (f : ValidationFailure) : jsstring :=
  match f with
  | NotFound reqKey =>
      js "Section " ++ [34%N] ++ reqKey ++ [34%N] ++ js " not found in filing"
  | LowConfidence reqKey c t =>
      js "Section " ++ [34%N] ++ reqKey ++ [34%N] ++ js " confidence " ++
      toFixed2 c ++ js " below threshold " ++ toFixed2 t
  | TooShort reqKey n =>
      js "Section " ++ [34%N] ++ reqKey ++ [34%N] ++ js " too short (" ++
      nat_to_js n ++ js " chars, minimum " ++ nat_to_js MIN_SECTION_LENGTH ++
      js ")"
  end.

(** The body of the loop over the required keys. *)
Definition check_required_key (sections : list SectionMatch.t)
  (confidenceThreshold : Q) (reqKey : jsstring) : list ValidationFailure :=
  match find (fun s => matchesSectionKey (SectionMatch.name s) reqKey)
             sections with
  | None => [NotFound reqKey]
  | Some section =>
      if negb (SectionMatch.found section) then [NotFound reqKey]
      else
        (if Qltb (SectionMatch.confidence section) confidenceThreshold
         then [LowConfidence reqKey (SectionMatch.confidence section)
                 confidenceThreshold]
         else []) ++
        (if SectionMatch.lengthChars section <? MIN_SECTION_LENGTH
         then [TooShort reqKey (SectionMatch.lengthChars section)]
         else [])
  end.

Definition validation_failures (sections : list SectionMatch.t)
  (requiredKeys : list jsstring) (confidenceThreshold : Q)
  : list ValidationFailure :=
  flat_map (check_required_key sections confidenceThreshold) requiredKeys.

Definition composite_message (failures : list jsstring) : jsstring :=
  js "Validation failed:" ++ [10%N] ++ js "  - " ++
  join ([10%N] ++ js "  - ") failures.

(** How a call of [validateSections] ends: it returns, having written the
    given lines with [console.warn], or it throws an [Error]. *)
Inductive Outcome :=
| Returned (warnings : list jsstring)
| Thrown (message : jsstring).

Definition validateSections (sections : list SectionMatch.t)
  (requiredKeys : list jsstring) (confidenceThreshold : Q) (hardFail : bool)
  : Outcome :=
  let failures :=
    map failure_message
        (validation_failures sections requiredKeys confidenceThreshold) in
  if 0 <? length failures then
    let message := composite_message failures in
    if hardFail then Thrown message
    else Returned [js "  [warn] " ++ message]
  else Returned [].

(* ------------------------------------------------------------------ *)
(** *** summarizer.ts *)

Definition MAX_SUMMARY_POINTS : nat := 5.
Definition MAX_EVIDENCE_SNIPPETS : nat := 3.

(** [/(?<=[.!?])\s+/]. *)
Definition SENTENCE_END : regex :=
  Seq (Behind (fun c => (c =? 46) || (c =? 33) || (c =? 63))%N) ws_plus.

(** [/\$[\d,.]+/] and [/\d+(\.\d+)?%/]. *)
Definition CURRENCY_FIGURE : regex :=
  Seq (chr_eq 36)
      (Plus (Chr (fun c => is_digit c || (c =? 44) || (c =? 46))%N)).

Definition PERCENTAGE : regex :=
  Seq (Plus (Chr is_digit))
      (Seq (Opt (Seq (chr_eq 46) (Plus (Chr is_digit)))) (chr_eq 37)).

Definition RISK_KEYWORDS : list jsstring :=
  map js [ "risk"; "adverse"; "uncertainty"; "litigation"; "regulatory";
           "competition"; "cybersecurity"; "supply chain"; "economic";
           "volatility"; "liability"; "compliance"; "disruption" ]%string.

Definition FINANCIAL_KEYWORDS : list jsstring :=
  map js [ "revenue"; "income"; "loss"; "margin"; "earnings"; "cash flow";
           "assets"; "liabilities"; "debt"; "capital"; "dividend";
           "operating"; "growth"; "decline"; "increase"; "decrease" ]%string.

Definition MDNA_KEYWORDS : list jsstring :=
  map js [ "revenue"; "growth"; "margin"; "decline"; "increase"; "segment";
           "operating"; "strategy"; "outlook"; "trend"; "driver";
           "year-over-year"; "compared to"; "primarily due";
           "result of" ]%string.

Definition sentence_score (keywords : list jsstring) (text : jsstring) : Q :=
  let lower := toLowerCase text in
  let score :=
    fold_left (fun score kw =>
                 if str_includes (toLowerCase kw) lower then score + 1
                 else score)
              keywords 0 in
  if test CURRENCY_FIGURE text || test PERCENTAGE text
  then score + (1 # 2) else score.

(** [scored.sort((a, b) => b.score - a.score)]: descending by score, and
    stable, as [Array.prototype.sort] is. *)
Fixpoint insert_by_score (x : ScoredSentence.t) (l : list ScoredSentence.t)
  : list ScoredSentence.t :=
  match l with
  | [] => [x]
  | y :: l' =>
      if Qltb (ScoredSentence.score x) (ScoredSentence.score y)
      then y :: insert_by_score x l'
      else x :: l
  end.

Definition sort_by_score (l : list ScoredSentence.t) : list ScoredSentence.t :=
  fold_right insert_by_score [] l.

Definition scoreSentences (sentences keywords : list jsstring)
  : list ScoredSentence.t :=
  let scored :=
    map (fun text => ScoredSentence.mk text (sentence_score keywords text))
        (filter (fun s => (30 <? length s) && (length s <? 500)) sentences) in
  sort_by_score scored.

Definition splitSentences (text : jsstring) : list jsstring :=
  filter (fun s => 0 <? length s)
         (map trim (regex_split SENTENCE_END text)).

Definition getKeywordsForSection (name : jsstring) : list jsstring :=
  if str_eqb name (js "risk_factors") then RISK_KEYWORDS
  else if str_eqb name (js "mdna") then MDNA_KEYWORDS
  else if str_eqb name (js "financials") then FINANCIAL_KEYWORDS
  else RISK_KEYWORDS ++ FINANCIAL_KEYWORDS.

Definition section_alias_table : list (jsstring * jsstring) :=
  [ (js "risk-factors", js "risk_factors");
    (js "risk_factors", js "risk_factors");
    (js "mdna", js "mdna");
    (js "md&a", js "mdna");
    (js "mda", js "mdna");
    (js "financials", js "financials");
    (js "financial-statements", js "financials");
    (js "financial_statements", js "financials") ].

(** The members that every object literal inherits from
    [Object.prototype]; none of them is null or undefined. *)
Definition Object_prototype_members : list jsstring :=
  map js [ "constructor"; "__defineGetter__"; "__defineSetter__";
           "hasOwnProperty"; "__lookupGetter__"; "__lookupSetter__";
           "isPrototypeOf"; "propertyIsEnumerable"; "toString"; "valueOf";
           "__proto__"; "toLocaleString" ]%string.

(** [map[key.toLowerCase()] ?? key]: an own property of the literal, else
    an inherited member, else the key. *)
Definition sectionKeyToName (key : jsstring) : NameValue :=
  let k := toLowerCase key in
  match find (fun kv => str_eqb (fst kv) k) section_alias_table with
  | Some kv => Str (snd kv)
  | None => if includes Object_prototype_members k then Inherited k
            else Str key
  end.

(** The string a name becomes inside a template literal or under [join]:
    a built-in function prints as Node.js prints it, [Object.prototype] as
    [[object Object]]. *)
Definition name_text (v : NameValue) : jsstring :=
  match v with
  | Str s => s
  | Inherited member =>
      if str_eqb member (js "__proto__") then js "[object Object]"
      else js "function " ++
           (if str_eqb member (js "constructor") then js "Object"
            else member) ++
           js "() { [native code] }"
  end.

Definition truncate (text : jsstring) (maxLen : nat) : jsstring :=
  if length text <=? maxLen then text
  else slice 0 (maxLen - 3) text ++ js "...".

Definition buildOverallSummary (analyses : list SectionAnalysis.t)
  : list jsstring :=
  let found := filter SectionAnalysis.found analyses in
  let missing := filter (fun a => negb (SectionAnalysis.found a)) analyses in
  (if 0 <? length found then
     [ js "Analyzed " ++ nat_to_js (length found) ++ js " section(s): " ++
       join (js ", ")
            (map (fun a => name_text (SectionAnalysis.name a)) found) ++
       js "." ]
   else []) ++
  (if 0 <? length missing then
     [ js "Missing section(s): " ++
       join (js ", ")
            (map (fun a => name_text (SectionAnalysis.name a)) missing) ++
       js "." ]
   else []) ++
  flat_map (fun a =>
              match SectionAnalysis.summary a with
              | top :: _ =>
                  [name_text (SectionAnalysis.name a) ++ js ": " ++ top]
              | [] => []
              end)
           found.

(** The body of the loop over the required keys. *)
Definition analyze_required_key (sections : list SectionMatch.t)
  (reqKey : jsstring) : SectionAnalysis.t :=
  let placeholder :=
    SectionAnalysis.mk (sectionKeyToName reqKey) false 0 [] [] in
  match find (fun s => matchesSectionKey (SectionMatch.name s) reqKey)
             sections with
  | None => placeholder
  | Some section =>
      if negb (SectionMatch.found section) then placeholder
      else
        let keywords := getKeywordsForSection (SectionMatch.name section) in
        let sentences := splitSentences (SectionMatch.content section) in
        let scored := scoreSentences sentences keywords in
        SectionAnalysis.mk (Str (SectionMatch.name section)) true
          (SectionMatch.confidence section)
          (map ScoredSentence.text (firstn MAX_SUMMARY_POINTS scored))
          (map (fun s => truncate (ScoredSentence.text s) 200)
               (firstn MAX_EVIDENCE_SNIPPETS scored))
  end.

Definition generateAnalysis (sections : list SectionMatch.t)
  (requiredKeys : list jsstring) : AnalysisResult.t :=
  let analyses := map (analyze_required_key sections) requiredKeys in
  AnalysisResult.mk analyses (buildOverallSummary analyses).

(* ------------------------------------------------------------------ *)
(** *** workflow.ts *)

Definition COMMAND_CONFIDENCE_THRESHOLD : Q := 75 # 100.
Definition INTENT_CONFIDENCE_THRESHOLD : Q := 5 # 10.

Definition set_fetched (ctx : WorkflowContext.t) (content : jsstring)
  (kind : ContentType) : WorkflowContext.t :=
  WorkflowContext.mk (WorkflowContext.options ctx) content kind
    (WorkflowContext.extractedText ctx) (WorkflowContext.sections ctx)
    (WorkflowContext.analyses ctx) (WorkflowContext.stepResults ctx)
    (WorkflowContext.overallSummary ctx).

Definition set_extractedText (ctx : WorkflowContext.t) (t : jsstring)
  : WorkflowContext.t :=
  WorkflowContext.mk (WorkflowContext.options ctx)
    (WorkflowContext.rawContent ctx) (WorkflowContext.contentType ctx) t
    (WorkflowContext.sections ctx) (WorkflowContext.analyses ctx)
    (WorkflowContext.stepResults ctx) (WorkflowContext.overallSummary ctx).

Definition set_sections (ctx : WorkflowContext.t) (l : list SectionMatch.t)
  : WorkflowContext.t :=
  WorkflowContext.mk (WorkflowContext.options ctx)
    (WorkflowContext.rawContent ctx) (WorkflowContext.contentType ctx)
    (WorkflowContext.extractedText ctx) l (WorkflowContext.analyses ctx)
    (WorkflowContext.stepResults ctx) (WorkflowContext.overallSummary ctx).

Definition set_analysis (ctx : WorkflowContext.t) (r : AnalysisResult.t)
  : WorkflowContext.t :=
  WorkflowContext.mk (WorkflowContext.options ctx)
    (WorkflowContext.rawContent ctx) (WorkflowContext.contentType ctx)
    (WorkflowContext.extractedText ctx) (WorkflowContext.sections ctx)
    (AnalysisResult.sections r) (WorkflowContext.stepResults ctx)
    (AnalysisResult.overallSummary r).

Definition push_stepResult (ctx : WorkflowContext.t) (r : StepResult.t)
  : WorkflowContext.t :=
  WorkflowContext.mk (WorkflowContext.options ctx)
    (WorkflowContext.rawContent ctx) (WorkflowContext.contentType ctx)
    (WorkflowContext.extractedText ctx) (WorkflowContext.sections ctx)
    (WorkflowContext.analyses ctx) (WorkflowContext.stepResults ctx ++ [r])
    (WorkflowContext.overallSummary ctx).

Definition execute_fetch (ctx : WorkflowContext.t)
  : WorkflowContext.t * option jsstring :=
  match fetchFiling (WorkflowContext.options ctx) with
  | inl (content, kind) => (set_fetched ctx content kind, None)
  | inr message => (ctx, Some message)
  end.

Definition execute_extract (ctx : WorkflowContext.t)
  : WorkflowContext.t * option jsstring :=
  match extractText (WorkflowContext.rawContent ctx)
                    (WorkflowContext.contentType ctx) with
  | inl t =>
      let ctx := set_extractedText ctx t in
      if length t <? 1000 then
        (ctx, Some (js "Extracted text too short (" ++ nat_to_js (length t) ++
                    js " chars). Filing may be malformed."))
      else (ctx, None)
  | inr message => (ctx, Some message)
  end.

Definition execute_locate (ctx : WorkflowContext.t)
  : WorkflowContext.t * option jsstring :=
  (set_sections ctx
     (locateSections (WorkflowContext.rawContent ctx)
        (WorkflowContext.extractedText ctx) (WorkflowContext.contentType ctx)),
   None).

Definition execute_validate (threshold : Q) (isCommand : bool)
  (ctx : WorkflowContext.t) : WorkflowContext.t * option jsstring :=
  match validateSections (WorkflowContext.sections ctx)
          (AnalyzeOptions.require (WorkflowContext.options ctx))
          threshold isCommand with
  | Thrown message => (ctx, Some message)
  | Returned _ => (ctx, None)
  end.

Definition execute_generate (ctx : WorkflowContext.t)
  : WorkflowContext.t * option jsstring :=
  (set_analysis ctx
     (generateAnalysis (WorkflowContext.sections ctx)
        (AnalyzeOptions.require (WorkflowContext.options ctx))),
   None).

(** Ledger emission is handled by the orchestrator after all steps
    complete. *)
Definition execute_emit_ledger (ctx : WorkflowContext.t)
  : WorkflowContext.t * option jsstring := (ctx, None).

Definition buildWorkflow (options : AnalyzeOptions.t) : WorkflowPlan.t :=
  let isCommand := InvocationMode_eqb (AnalyzeOptions.mode options) command in
  let threshold :=
    if isCommand then COMMAND_CONFIDENCE_THRESHOLD
    else INTENT_CONFIDENCE_THRESHOLD in
  let steps :=
    [ WorkflowStep.mk fetch true execute_fetch;
      WorkflowStep.mk extract true execute_extract;
      WorkflowStep.mk locate_sections true execute_locate;
      WorkflowStep.mk validate isCommand (execute_validate threshold isCommand);
      WorkflowStep.mk generate isCommand execute_generate;
      WorkflowStep.mk emit_ledger true execute_emit_ledger ] in
  WorkflowPlan.mk steps [] threshold.

(* ------------------------------------------------------------------ *)
(** *** ledger.ts *)

Definition ALL_REQUIRED_STEPS : list StepName :=
  [fetch; extract; locate_sections; validate; generate; emit_ledger].

(** The three accumulators of the loop over [ctx.stepResults]. *)
Definition ledger_step
  (acc : list (jsstring * Z) * list StepName * list StepName)
  (result : StepResult.t)
  : list (jsstring * Z) * list StepName * list StepName :=
  let '(durationsMs, executedSteps, skippedSteps) := acc in
  let durationsMs :=
    obj_set (StepName_str (StepResult.name result))
            (StepResult.durationMs result) durationsMs in
  match StepResult.status result with
  | passed | failed =>
      (durationsMs, executedSteps ++ [StepResult.name result], skippedSteps)
  | skipped =>
      if negb (existsb (StepName_eqb (StepResult.name result)) skippedSteps)
      then (durationsMs, executedSteps,
            skippedSteps ++ [StepResult.name result])
      else (durationsMs, executedSteps, skippedSteps)
  | _ => (durationsMs, executedSteps, skippedSteps)
  end.

(** [now] is the reading of the wall clock, [new Date().toISOString()],
    taken by the call. *)
Definition buildLedger (now : jsstring) (ctx : WorkflowContext.t)
  (plan : WorkflowPlan.t) (passed : bool) (failureReason : option jsstring)
  : AuditLedger.t :=
  let '(durationsMs, executedSteps, skippedSteps) :=
    fold_left ledger_step (WorkflowContext.stepResults ctx)
              ([], [], WorkflowPlan.skippedSteps plan) in
  let sectionValidation :=
    fold_left (fun o section =>
                 obj_set (SectionMatch.name section)
                   (SectionValidationEntry.mk (SectionMatch.found section)
                      (SectionMatch.confidence section)
                      (SectionMatch.lengthChars section)) o)
              (WorkflowContext.sections ctx) [] in
  let options := WorkflowContext.options ctx in
  AuditLedger.mk (AnalyzeOptions.invocationId options) now
    (AnalyzeOptions.mode options)
    (InvocationMode_eqb (AnalyzeOptions.mode options) command)
    (js "analyze_10k_v1") ALL_REQUIRED_STEPS executedSteps skippedSteps
    durationsMs sectionValidation passed failureReason.

(* ------------------------------------------------------------------ *)
(** *** orchestrator.ts *)

Definition buildAnalysisOutput (ctx : WorkflowContext.t) : AnalysisOutput.t :=
  let options := WorkflowContext.options ctx in
  AnalysisOutput.mk (AnalyzeOptions.invocationId options)
    (AnalyzeOptions.mode options) (js "analyze_10k_v1")
    (AnalyzeOptions.ticker options, AnalyzeOptions.year options)
    (WorkflowContext.analyses ctx) (WorkflowContext.overallSummary ctx).

(** The files written, in the order of the writes; creating the directory
    and writing a file are taken to succeed. *)
Definition emitOutputs (now : jsstring) (ctx : WorkflowContext.t)
  (plan : WorkflowPlan.t) (passed : bool) (failureReason : option jsstring)
  : list OutputFile :=
  let options := WorkflowContext.options ctx in
  let ledger := buildLedger now ctx plan passed failureReason in
  LedgerFile (AnalyzeOptions.out options)
    (AnalyzeOptions.invocationId options ++ js "-ledger.json") ledger
  ::
  (if passed then
     let ext := match AnalyzeOptions.format options with
                | md => js "md"
                | json => js "json"
                end in
     [AnalysisFile (AnalyzeOptions.out options)
        (AnalyzeOptions.invocationId options ++ js "-analysis." ++ ext)
        (buildAnalysisOutput ctx)]
   else []).

(** The loop over [plan.steps] and what follows it.  [k] is the position of
    the next step in the plan and [elapsed k] the reading of the step timer
    when step [k] returns or throws. *)
Fixpoint runSteps (now : jsstring) (elapsed : nat -> Z)
  (options : AnalyzeOptions.t) (plan : WorkflowPlan.t) (k : nat)
  (steps : list WorkflowStep.t) (ctx : WorkflowContext.t) : RunResult.t :=
  match steps with
  | [] => RunResult.mk ctx (emitOutputs now ctx plan true None) None
  | step :: rest =>
      if existsb (StepName_eqb (WorkflowStep.name step))
                 (WorkflowPlan.skippedSteps plan)
      then
        runSteps now elapsed options plan (S k) rest
          (push_stepResult ctx
             (StepResult.mk (WorkflowStep.name step) skipped 0 None))
      else
        match WorkflowStep.execute step ctx with
        | (ctx, None) =>
            runSteps now elapsed options plan (S k) rest
              (push_stepResult ctx
                 (StepResult.mk (WorkflowStep.name step) passed (elapsed k)
                    None))
        | (ctx, Some message) =>
            let ctx :=
              push_stepResult ctx
                (StepResult.mk (WorkflowStep.name step) failed (elapsed k)
                   (Some message)) in
            if InvocationMode_eqb (AnalyzeOptions.mode options) command
               && WorkflowStep.required step
            then RunResult.mk ctx
                   (emitOutputs now ctx plan false (Some message)) (Some 2%Z)
            else runSteps now elapsed options plan (S k) rest ctx
        end
  end.

Definition initial_context (options : AnalyzeOptions.t) : WorkflowContext.t :=
  WorkflowContext.mk options [] html [] [] [] [] [].

Definition runWorkflow (now : jsstring) (elapsed : nat -> Z)
  (options : AnalyzeOptions.t) (intentPlan : option WorkflowPlan.t)
  : RunResult.t :=
  let ctx := initial_context options in
  let plan := match intentPlan with
              | Some p => p
              | None => buildWorkflow options
              end in
  runSteps now elapsed options plan 0 (WorkflowPlan.steps plan) ctx.

(* ------------------------------------------------------------------ *)
(** *** Vocabulary of the specification *)

(** The section a required key resolves to: the first located section whose
    canonical name has the key among its aliases. *)
Definition resolved_section (sections : list SectionMatch.t)
  (reqKey : jsstring) : option SectionMatch.t :=
  find (fun s => matchesSectionKey (SectionMatch.name s) reqKey) sections.

(** The resolved section of a key is absent or not found. *)
Definition not_located (sections : list SectionMatch.t) (reqKey : jsstring)
  : Prop :=
  match resolved_section sections reqKey with
  | None => True
  | Some s => SectionMatch.found s = false
  end.

(** No heading pattern of the section matches the document: no top-level
    block on the structured-markup path, no position of the text on the
    flat-text path. *)
Definition no_heading_match (rawHtml extractedText : jsstring)
  (contentType : ContentType) (pattern : SectionPattern.t) : Prop :=
  match contentType with
  | html =>
      forall d r, In d (bodyDivTexts rawHtml) ->
                  In r (SectionPattern.headingPatterns pattern) ->
                  test r (block_text d) = false
  | _ =>
      forall r, In r (SectionPattern.headingPatterns pattern) ->
                exec (unanchored r) extractedText = None
  end.



(** The ledger written by a run. *)
Definition ledgers (files : list OutputFile) : list AuditLedger.t :=
  flat_map (fun f => match f with
                     | LedgerFile _ _ l => [l]
                     | AnalysisFile _ _ _ => []
                     end) files.

(** A step whose work leaves [ctx.stepResults] to the orchestrator. *)
Definition keeps_stepResults (step : WorkflowStep.t) : Prop :=
  forall ctx,
    WorkflowContext.stepResults (fst (WorkflowStep.execute step ctx)) =
    WorkflowContext.stepResults ctx.

(** Every name of the step universe occurs exactly once in the executed and
    skipped lists of the ledger taken together. *)
Definition covers_universe_once (ledger : AuditLedger.t) : Prop :=
  forall n : StepName,
    In n ALL_REQUIRED_STEPS ->
    count_occ StepName_eq_dec
      (AuditLedger.executedSteps ledger ++ AuditLedger.skippedSteps ledger) n
    = 1%nat.

(** The failure [f] is one the validator's rule assigns to the required key
    [k]: its resolved section is not found, or it is found with a confidence
    below the threshold, or it is found with a length below the minimum. *)
Definition failure_of (sections : list SectionMatch.t) (threshold : Q)
  (k : jsstring) (f : ValidationFailure) : Prop :=
  (f = NotFound k /\ not_located sections k)
  \/ exists s,
       resolved_section sections k = Some s
       /\ SectionMatch.found s = true
       /\ ((f = LowConfidence k (SectionMatch.confidence s) threshold
            /\ (SectionMatch.confidence s < threshold)%Q)
           \/ (f = TooShort k (SectionMatch.lengthChars s)
               /\ (SectionMatch.lengthChars s < MIN_SECTION_LENGTH)%nat)).


(** The analysis [a] answers the required key [k] within the bounds of the
    summarizer: at most 5 summary sentences, at most 3 evidence snippets of
    at most 200 code units each; a placeholder with found=false and nothing
    else when the section of [k] is absent or not found, and the analysis of
    that section otherwise. *)
Definition analysis_for (sections : list SectionMatch.t) (k : jsstring)
  (a : SectionAnalysis.t) : Prop :=
  (length (SectionAnalysis.summary a) <= 5)%nat
  /\ (length (SectionAnalysis.evidence a) <= 3)%nat
  /\ Forall (fun e : jsstring => (length e <= 200)%nat)
            (SectionAnalysis.evidence a)
  /\ (not_located sections k ->
      SectionAnalysis.found a = false
      /\ SectionAnalysis.summary a = []
      /\ SectionAnalysis.evidence a = [])
  /\ (forall s,
         resolved_section sections k = Some s ->
         SectionMatch.found s = true ->
         SectionAnalysis.found a = true
         /\ SectionAnalysis.name a = Str (SectionMatch.name s)
         /\ SectionAnalysis.confidence a = SectionMatch.confidence s).

(** The result [res] is the one the orchestrator records for the step
    [step] under the skip list [skip]: it carries the name of the step, and
    its status is skipped when the step is in the skip list, passed or
    failed otherwise. *)
Definition recorded (skip : list StepName) (step : WorkflowStep.t)
  (res : StepResult.t) : Prop :=
  StepResult.name res = WorkflowStep.name step
  /\ if existsb (StepName_eqb (WorkflowStep.name step)) skip
     then StepResult.status res = skipped
     else StepResult.status res = passed \/ StepResult.status res = failed.

(** The enforcement rule applies to a failure of [step] under [options]. *)
Definition enforced (options : AnalyzeOptions.t) (step : WorkflowStep.t)
  : bool :=
  InvocationMode_eqb (AnalyzeOptions.mode options) command
  && WorkflowStep.required step.

(** What the orchestrator makes of the step [step] started on the context
    [ctx], when the step timer reads [duration] as the step ends.  A step of
    the skip list is not executed and is recorded as skipped.  Any other
    step is executed on [ctx]: it is recorded as passed when it returns and
    as failed, with its message, when it throws.  [ctx'] is the context that
    the step has left, with the result [res] appended. *)
Definition step_outcome (skip : list StepName) (duration : Z)
  (step : WorkflowStep.t) (ctx : WorkflowContext.t) (res : StepResult.t)
  (ctx' : WorkflowContext.t) : Prop :=
  if existsb (StepName_eqb (WorkflowStep.name step)) skip
  then res = StepResult.mk (WorkflowStep.name step) skipped 0 None
       /\ ctx' = push_stepResult ctx res
  else
    match WorkflowStep.execute step ctx with
    | (after, None) =>
        res = StepResult.mk (WorkflowStep.name step) passed duration None
        /\ ctx' = push_stepResult after res
    | (after, Some message) =>
        res = StepResult.mk (WorkflowStep.name step) failed duration
                (Some message)
        /\ ctx' = push_stepResult after res
    end.

(** The results [results] are those of the first steps of [steps], taken
    one after the other from position [k] of the plan: the first starts on
    [ctx], each of the others on the context that the step before it has
    left, and the last leaves [final]. *)
Inductive step_trace (skip : list StepName) (elapsed : nat -> Z)
  : nat -> list WorkflowStep.t -> WorkflowContext.t -> list StepResult.t ->
    WorkflowContext.t -> Prop :=
| trace_stop : forall k steps ctx, step_trace skip elapsed k steps ctx [] ctx
| trace_step : forall k step rest ctx res ctx' results final,
    step_outcome skip (elapsed k) step ctx res ctx' ->
    step_trace skip elapsed (S k) rest ctx' results final ->
    step_trace skip elapsed k (step :: rest) ctx (res :: results) final.

(** The names of the results with status passed or failed. *)
Definition executed_names (results : list StepResult.t) : list StepName :=
  map StepResult.name
      (filter (fun r => match StepResult.status r with
                        | passed | failed => true
                        | _ => false
                        end) results).

(** The ledger with another clock reading in its timestamp. *)
Definition set_timestamp (now : jsstring) (l : AuditLedger.t)
  : AuditLedger.t :=
  AuditLedger.mk (AuditLedger.invocationId l) now (AuditLedger.mode l)
    (AuditLedger.deterministic l) (AuditLedger.workflow l)
    (AuditLedger.requiredSteps l) (AuditLedger.executedSteps l)
    (AuditLedger.skippedSteps l) (AuditLedger.durationsMs l)
    (AuditLedger.sectionValidation l) (AuditLedger.passed l)
    (AuditLedger.failureReason l).

(** A matcher that only moves forward and stays inside the string [s]. *)
Definition forward (s : jsstring) (step : nat -> list nat) : Prop :=
  forall i j, (i <= length s)%nat -> In j (step i) ->
              (i <= j <= length s)%nat.

(** What a run of the loop over [steps], started in the context [ctx],
    records and how it ends: the results appended to the context answer a
    prefix of the steps; the run either records every step and writes its
    outputs as passed, or stops with exit code 2 right after the failure of
    a step under the enforcement rule and writes its outputs as failed with
    the message of that failure; and a failure under the enforcement rule
    is always the last result. *)
Definition run_spec (now : jsstring) (options : AnalyzeOptions.t)
  (plan : WorkflowPlan.t) (steps : list WorkflowStep.t)
  (ctx : WorkflowContext.t) (run : RunResult.t) : Prop :=
  exists results,
    WorkflowContext.stepResults (RunResult.ctx run) =
      WorkflowContext.stepResults ctx ++ results
    /\ Forall2 (recorded (WorkflowPlan.skippedSteps plan))
               (firstn (length results) steps) results
    /\ ((RunResult.exitCode run = None
         /\ length results = length steps
         /\ RunResult.files run =
              emitOutputs now (RunResult.ctx run) plan true None)
        \/ (RunResult.exitCode run = Some 2%Z
            /\ exists pre step res message,
                 results = pre ++ [res]
                 /\ nth_error steps (length pre) = Some step
                 /\ enforced options step = true
                 /\ StepResult.status res = failed
                 /\ StepResult.error res = Some message
                 /\ RunResult.files run =
                      emitOutputs now (RunResult.ctx run) plan false
                        (Some message)))
    /\ (forall i step res,
           nth_error steps i = Some step ->
           nth_error results i = Some res ->
           StepResult.status res = failed ->
           enforced options step = true ->
           S i = length results
           /\ RunResult.exitCode run = Some 2%Z).

(** A block that ends a section on the structured-markup path: its text is
    shorter than 100 code units and is a numbered item heading. *)
Definition ends_section (d : jsstring) : bool :=
  (length (block_text d) <? 100) && test NEXT_ITEM_HEADING (block_text d).

(** A block that can be the heading of a section with the patterns [ps]:
    its text has between 3 and 150 code units and some pattern matches. *)
Definition heading_candidate (ps : list regex) (d : jsstring) : bool :=
  negb ((150 <? length (block_text d)) || (length (block_text d) <? 3))
  && existsb (fun r => test r (block_text d)) ps.

(** Reading a property of a JavaScript object. *)
Fixpoint obj_get (A : Type) (k : jsstring) (o : list (jsstring * A))
  : option A :=
  match o with
  | [] => None
  | (k', v) :: o' => if str_eqb k k' then Some v else obj_get k o'
  end.

(** The last element of a list that satisfies [p]. *)
Definition find_last (A : Type) (p : A -> bool) (l : list A) : option A :=
  find p (rev l).

(** A step whose work leaves [ctx.options] as it is. *)
Definition keeps_options (step : WorkflowStep.t) : Prop :=
  forall ctx,
    WorkflowContext.options (fst (WorkflowStep.execute step ctx)) =
    WorkflowContext.options ctx.

(* ------------------------------------------------------------------ *)
(** *** intent-router/patterns.ts *)

(** [\bWORD\b] under the [i] flag. *)
Definition word_i (w : string) : regex := Seq WordB (Seq (lit_i w) WordB).

Definition TICKER_PATTERNS : list (regex * jsstring) :=
  [ (word_i "AAPL", js "AAPL");
    (word_i "apple", js "AAPL");
    (Seq WordB (Seq (lit_i "GOOG") (Seq (Opt (chr_i 76)) WordB)), js "GOOGL");
    (word_i "google", js "GOOGL");
    (word_i "alphabet", js "GOOGL");
    (word_i "MSFT", js "MSFT");
    (word_i "microsoft", js "MSFT");
    (word_i "AMZN", js "AMZN");
    (word_i "amazon", js "AMZN");
    (word_i "TSLA", js "TSLA");
    (word_i "tesla", js "TSLA");
    (word_i "META", js "META");
    (word_i "meta", js "META");
    (word_i "facebook", js "META");
    (word_i "NVDA", js "NVDA");
    (word_i "nvidia", js "NVDA") ].

Definition is_upper (c : N) : bool := ((65 <=? c) && (c <=? 90))%N.

(** [r{0,n}], greedy. *)
Fixpoint upto (r : regex) (n : nat) : regex :=
  match n with
  | O => Eps
  | S n' => Opt (Seq r (upto r n'))
  end.

(** [/\b([A-Z]{1,5})\b/]; the group is the whole match. *)
Definition GENERIC_TICKER : regex :=
  Seq WordB (Seq (Seq (Chr is_upper) (upto (Chr is_upper) 4)) WordB).

(** [r.exec(s)] on a regex without the g flag: the index of the leftmost
    match and the index where that match ends. *)
Definition exec_span (r : regex) (s : jsstring) : option (nat * nat) :=
  match exec r s with
  | Some i => match match_at r s i with
              | Some e => Some (i, e)
              | None => None
              end
  | None => None
  end.

Definition stopWords : list jsstring :=
  map js [ "THE"; "AND"; "FOR"; "ARE"; "BUT"; "NOT"; "YOU"; "ALL";
           "CAN"; "HER"; "WAS"; "ONE"; "OUR"; "OUT"; "SEC"; "PDF" ]%string.

Definition extractTicker (text : jsstring) : option jsstring :=
  match find (fun pt => test (fst pt) text) TICKER_PATTERNS with
  | Some (_, ticker) => Some ticker
  | None =>
      match exec_span GENERIC_TICKER text with
      | Some (i, e) =>
          let candidate := slice i e text in
          if negb (includes stopWords candidate) && (2 <=? length candidate)
          then Some candidate
          else None
      | None => None
      end
  end.

(** [/\b(20[1-3]\d)\b/]; the group is the whole match. *)
Definition yearPattern : regex :=
  Seq WordB
    (Seq (chr_eq 50) (Seq (chr_eq 48)
       (Seq (Chr (fun c => (49 <=? c) && (c <=? 51))%N)
          (Seq (Chr is_digit) WordB)))).

(** The loop [while ((match = r.exec(s)) !== null)] on a regex with the g
    flag, from [lastIndex = i]: the spans of the successive matches.  Each
    match of the pattern above is four code units long, so the search
    position advances and [fuel = length s] rounds are enough. *)
Fixpoint exec_all (r : regex) (s : jsstring) (fuel i : nat)
  : list (nat * nat) :=
  match fuel with
  | O => []
  | S f =>
      match exec_from r s (length s - i) i with
      | Some k =>
          match match_at r s k with
          | Some e => (k, e) :: exec_all r s f e
          | None => []
          end
      | None => []
      end
  end.

(** [parseInt(digits, 10)] on a string of decimal digits. *)
Definition parseInt_digits (digits : jsstring) : Z :=
  fold_left (fun acc c => (10 * acc + (Z.of_N c - 48))%Z) digits 0%Z.

(** [years.sort((a, b) => b - a)]. *)
Fixpoint insert_desc (x : Z) (l : list Z) : list Z :=
  match l with
  | [] => [x]
  | y :: l' => if (x <? y)%Z then y :: insert_desc x l' else x :: l
  end.

Definition sort_desc (l : list Z) : list Z := fold_right insert_desc [] l.

Definition extractYear (text : jsstring) : option Z :=
  let years :=
    map (fun span => parseInt_digits (slice (fst span) (snd span) text))
        (exec_all yearPattern text (length text) 0) in
  match sort_desc years with
  | [] => None
  | y :: _ => Some y
  end.

Definition extractIntentSignals (text : jsstring) : IntentSignals.t :=
  let lower := toLowerCase text in
  let has := fun w : jsstring => str_includes w lower in
  IntentSignals.mk
    (has (js "risk") || has (js "item 1a"))
    (has (js "md&a") || has (js "discussion") || has (js "management")
     || has (js "item 7"))
    (has (js "financial") || has (js "revenue") || has (js "earnings")
     || has (js "item 8") || has (js "balance sheet"))
    (negb (has (js "risk")) && negb (has (js "financial"))
     && negb (has (js "md&a")) && negb (has (js "discussion"))
     && negb (has (js "item"))).

(* ------------------------------------------------------------------ *)
(** *** intent-router/router.ts *)

Definition resolveRequiredSections (signals : IntentSignals.t)
  : list jsstring :=
  if IntentSignals.isVague signals
  then [js "risk-factors"; js "mdna"; js "financials"]
  else
    let sections :=
      (if IntentSignals.wantsRiskFactors signals then [js "risk-factors"]
       else [])
      ++ (if IntentSignals.wantsMdna signals then [js "mdna"] else [])
      ++ (if IntentSignals.wantsFinancials signals then [js "financials"]
          else []) in
    if 0 <? length sections then sections
    else [js "risk-factors"; js "mdna"; js "financials"].

(** [random k] is the value of the call number [k] of [Math.random()] made
    by the function; the second condition draws only for a vague intent. *)
Definition computeProbabilisticSkips (random : nat -> Q)
  (signals : IntentSignals.t) : list StepName :=
  let skips := if Qltb (random 0%nat) (5 # 10) then [validate] else [] in
  let '(skips, k) :=
    if IntentSignals.isVague signals
    then (if Qltb (random 1%nat) (4 # 10)
          then skips ++ [locate_sections] else skips, 2%nat)
    else (skips, 1%nat) in
  if Qltb (random k) (2 # 10) then skips ++ [generate] else skips.

Definition no_ticker_message : jsstring :=
  js "Could not determine ticker from intent. Try: secaudit intent " ++
  [34%N] ++ js "analyze AAPL 10-K 2023" ++ [34%N] ++
  js ", or provide --ticker explicitly.".

Definition no_year_message : jsstring :=
  js "Could not determine year from intent. Try including a year like " ++
  [34%N] ++ js "2023" ++ [34%N] ++ js " or provide --year explicitly.".

(** [a ?? b]. *)
Definition nullish (A : Type) (a b : option A) : option A :=
  match a with
  | Some _ => a
  | None => b
  end.

Definition set_skippedSteps (plan : WorkflowPlan.t) (skipped : list StepName)
  : WorkflowPlan.t :=
  WorkflowPlan.mk (WorkflowPlan.steps plan) skipped
    (WorkflowPlan.confidenceThreshold plan).

(** The result of the router, or the message of the error thrown.  The
    overrides hold a ticker and an integer year when given; [!ticker] holds
    of an absent or empty ticker, [!year] of an absent or zero year. *)
Definition routeIntent (random : nat -> Q) (text : jsstring)
  (overrides : IntentOverrides.t) : IntentResult.t + jsstring :=
  let ticker := nullish (IntentOverrides.ticker overrides)
                        (extractTicker text) in
  let year := nullish (IntentOverrides.year overrides) (extractYear text) in
  match ticker with
  | None | Some [] => inr no_ticker_message
  | Some ticker =>
      match year with
      | None => inr no_year_message
      | Some year =>
          if (year =? 0)%Z then inr no_year_message
          else
            let signals := extractIntentSignals text in
            let requiredSections := resolveRequiredSections signals in
            let stubOptions :=
              AnalyzeOptions.mk ticker year intent json (js "./out") sec None
                requiredSections false true [] in
            let plan := buildWorkflow stubOptions in
            let skipped := computeProbabilisticSkips random signals in
            inl (IntentResult.mk ticker year requiredSections
                   (set_skippedSteps plan skipped))
      end
  end.
(* ------------------------------------------------------------------ *)
(** *** intent-router/llm-router.ts *)

Section LlmRouter.

(** [process.env.OPENAI_API_KEY]. *)
Variable OPENAI_API_KEY : option jsstring.

(** [client.chat.completions.create] for a model and a user text, followed
    by [response.choices[0]?.message?.content]: the content of the reply if
    any, or the message of the error thrown by the call. *)
Variable llm_complete : jsstring -> jsstring -> option jsstring + jsstring.

(** [JSON.parse(raw) as LlmResponse]; [None] when it throws. *)
Variable JSON_parse : jsstring -> option LlmResponse.t.

Definition ALL_STEPS : list StepName :=
  [fetch; extract; locate_sections; validate; generate; emit_ledger].

Definition DEFAULT_MODEL : jsstring := js "gpt-4o-mini".

Definition no_api_key_message : jsstring :=
  js "OPENAI_API_KEY environment variable is required for --llm mode." ++
  [10%N] ++ js "Set it with: export OPENAI_API_KEY=sk-...".

Definition routeIntentWithLlm (text : jsstring)
  (overrides : IntentOverrides.t) (model : option jsstring)
  : LlmRouteResult.t + jsstring :=
  match OPENAI_API_KEY with
  | None | Some [] => inr no_api_key_message
  | Some _ =>
      let selectedModel := match model with
                           | Some m => m
                           | None => DEFAULT_MODEL
                           end in
      match llm_complete selectedModel text with
      | inr message => inr message
      | inl None | inl (Some []) => inr (js "LLM returned empty response")
      | inl (Some raw) =>
          match JSON_parse raw with
          | None =>
              inr (js "LLM returned invalid JSON: " ++ slice 0 200 raw)
          | Some parsed =>
              let ticker := nullish (IntentOverrides.ticker overrides)
                                    (LlmResponse.ticker parsed) in
              let year := nullish (IntentOverrides.year overrides)
                                  (LlmResponse.year parsed) in
              match ticker with
              | None | Some [] =>
                  inr (js "LLM could not determine ticker from intent")
              | Some ticker =>
                  match year with
                  | None =>
                      inr (js "LLM could not determine year from intent")
                  | Some year =>
                      if (year =? 0)%Z
                      then inr (js "LLM could not determine year from intent")
                      else
                        let llmSteps :=
                          match LlmResponse.steps parsed with
                          | Some l => l
                          | None => []
                          end in
                        let skippedSteps :=
                          filter (fun s => negb (includes llmSteps
                                                   (StepName_str s)))
                                 ALL_STEPS in
                        let sections :=
                          match LlmResponse.sections parsed with
                          | Some (k :: ks) => k :: ks
                          | _ => [js "risk-factors"; js "mdna";
                                  js "financials"]
                          end in
                        let stubOptions :=
                          AnalyzeOptions.mk ticker year intent json
                            (js "./out") sec None sections false true [] in
                        let plan := buildWorkflow stubOptions in
                        inl (LlmRouteResult.mk ticker year sections
                               (set_skippedSteps plan skippedSteps)
                               (LlmResponse.reasoning parsed))
                  end
              end
          end
      end
  end.

(* ------------------------------------------------------------------ *)
(** *** cli/commands.ts: the action of the [intent] command *)

(** [String.prototype.toUpperCase]. *)
Variable toUpperCase : jsstring -> jsstring.



End LlmRouter.


(** White space occurs only as single spaces: the strings that
    [replace(/\s+/g, ' ')] leaves as they are. *)
Fixpoint single_spaced (s : jsstring) : bool :=
  match s with
  | [] => true
  | c :: s' =>
      (if is_space c
       then (c =? 32)%N
            && match s' with
               | d :: _ => negb (is_space d)
               | [] => true
               end
       else true)
      && single_spaced s'
  end.

(* ================================================================== *)
(** ** Properties *)
(* ================================================================== *)

(* ------------------------------------------------------------------ *)
(** *** The fuel of the regular-expression engine is never exhausted *)

Lemma flat_map_ext_in :
  forall (A B : Type) (f g : A -> list B) l,
    (forall a, In a l -> f a = g a) -> flat_map f l = flat_map g l.
Proof.
  intros A B f g l; induction l as [|a l IH]; intros H; cbn; [reflexivity|].
  rewrite (H a (or_introl eq_refl)), IH; [reflexivity|].
  intros b Hb. apply H. now right.
Qed.

Section Fuel.

Variable s : jsstring.

Lemma star_loop_forward :
  forall step, forward s step -> forall fuel, forward s (star_loop step fuel).
Proof.
  intros step Hstep fuel; induction fuel as [|f IH]; intros i j Hi Hj.
  - destruct Hj as [<- | []]. lia.
  - cbn [star_loop] in Hj. apply in_app_iff in Hj.
    destruct Hj as [Hj | [<- | []]]; [|lia].
    apply in_flat_map in Hj. destruct Hj as (k & Hk & Hj).
    destruct (Hstep i k Hi Hk) as [Hik Hkl].
    destruct (i <? k)%nat; [|destruct Hj].
    destruct (IH k j Hkl Hj). lia.
Qed.

Lemma ends_forward : forall r, forward s (ends r s).
Proof.
  induction r as [|p|r1 IH1 r2 IH2|r IH|r IH| | |r IH|p]; intros i j Hi Hj;
    cbn [ends] in Hj.
  - destruct Hj as [<- | []]. lia.
  - destruct (nth_error s i) as [c|] eqn:E; [|destruct Hj].
    assert (i < length s)%nat by (apply nth_error_Some; congruence).
    destruct (p c); [|destruct Hj]. destruct Hj as [<- | []]. lia.
  - apply in_flat_map in Hj. destruct Hj as (k & Hk & Hj).
    destruct (IH1 i k Hi Hk). destruct (IH2 k j) as [? ?]; auto. lia.
  - apply in_app_iff in Hj. destruct Hj as [Hj | [<- | []]]; [|lia].
    now apply IH.
  - now apply (star_loop_forward IH (S (length s - i))).
  - destruct (i =? 0)%nat; [|destruct Hj]. destruct Hj as [<- | []]. lia.
  - destruct (xorb (word_before s i) (word_at s i)); [|destruct Hj].
    destruct Hj as [<- | []]. lia.
  - destruct (ends r s i); [|destruct Hj]. destruct Hj as [<- | []]. lia.
  - destruct i as [|k]; [destruct Hj|].
    destruct (nth_error s k) as [c|]; [|destruct Hj].
    destruct (p c); [|destruct Hj]. destruct Hj as [<- | []]. lia.
Qed.

(** More fuel than the remaining length changes nothing. *)
Lemma star_loop_fuel :
  forall step, forward s step ->
    forall f1 f2 i,
      (i <= length s)%nat ->
      (length s - i < f1)%nat -> (length s - i < f2)%nat ->
      star_loop step f1 i = star_loop step f2 i.
Proof.
  intros step Hstep f1; induction f1 as [|f1 IH]; intros f2 i Hi H1 H2;
    [lia|].
  destruct f2 as [|f2]; [lia|]. cbn [star_loop]. f_equal.
  apply flat_map_ext_in. intros j Hj.
  destruct (Hstep i j Hi Hj) as [Hij Hjl].
  destruct (i <? j)%nat eqn:E; [|reflexivity].
  apply Nat.ltb_lt in E. apply IH; lia.
Qed.

(** The loop of [split] with the fuel of [regex_split] gives what it gives
    with any larger fuel. *)
Lemma regex_split_loop_fuel :
  forall sep f1 f2 p q,
    (p <= q)%nat ->
    (2 * (length s - q) + (if p <? q then 1 else 0) < f1)%nat ->
    (2 * (length s - q) + (if p <? q then 1 else 0) < f2)%nat ->
    regex_split_loop sep s f1 p q = regex_split_loop sep s f2 p q.
Proof.
  intros sep f1; induction f1 as [|f1 IH]; intros f2 p q Hpq H1 H2; [lia|].
  destruct f2 as [|f2]; [lia|]. cbn [regex_split_loop].
  destruct (length s <=? q)%nat eqn:Eq; [reflexivity|].
  apply Nat.leb_gt in Eq.
  assert (Hnext : regex_split_loop sep s f1 p (S q) =
                  regex_split_loop sep s f2 p (S q)).
  { apply IH; [lia | |];
      destruct (p <? q)%nat; destruct (p <? S q)%nat; lia. }
  unfold match_at. destruct (ends sep s q) as [|e es] eqn:Ee; cbn [hd_error];
    [exact Hnext|].
  destruct (Nat.min e (length s) =? p)%nat eqn:Ep; [exact Hnext|].
  apply Nat.eqb_neq in Ep. f_equal.
  assert (He : (q <= e <= length s)%nat).
  { apply (@ends_forward sep q e); [lia|]. rewrite Ee. now left. }
  assert (Hp : (p <? q)%nat = true \/ (q < Nat.min e (length s))%nat).
  { destruct (Nat.eq_dec (Nat.min e (length s)) q) as [E|E].
    - left. apply Nat.ltb_lt. lia.
    - right. lia. }
  apply IH; [lia | |]; rewrite Nat.ltb_irrefl; destruct Hp as [Hp | Hp];
    try rewrite Hp in *; try (destruct (p <? q)%nat); lia.
Qed.

End Fuel.

(** [exec] reports the leftmost position at which the engine finds a
    match. *)
Lemma exec_from_spec :
  forall r s fuel i,
    match exec_from r s fuel i with
    | Some k => (i <= k <= i + fuel)%nat
                /\ match_at r s k <> None
                /\ (forall j, (i <= j < k)%nat -> match_at r s j = None)
    | None => forall j, (i <= j <= i + fuel)%nat -> match_at r s j = None
    end.
Proof.
  intros r s fuel; induction fuel as [|f IH]; intros i; cbn [exec_from].
  - destruct (match_at r s i) eqn:E.
    + split; [lia|]. split; [congruence | intros j Hj; lia].
    + intros j Hj. replace j with i by lia. exact E.
  - destruct (match_at r s i) eqn:E.
    + split; [lia|]. split; [congruence | intros j Hj; lia].
    + specialize (IH (S i)). destruct (exec_from r s f (S i)) as [k|].
      * destruct IH as (Hk & Hm & Hj). split; [lia|]. split; [exact Hm|].
        intros j Hij. destruct (Nat.eq_dec j i) as [-> | Hne]; [exact E|].
        apply Hj. lia.
      * intros j Hj. destruct (Nat.eq_dec j i) as [-> | Hne]; [exact E|].
        apply IH. lia.
Qed.

(* ------------------------------------------------------------------ *)
(** *** Workflow planner *)

(** C5. For every options record, [buildWorkflow] returns the six steps in
    the order fetch, extract, locate_sections, validate, generate,
    emit_ledger; fetch, extract, locate_sections and emit_ledger are
    required, validate and generate are required exactly in command mode;
    the skip list is empty; the threshold is 0.75 in command mode and 0.5
    otherwise, and 0.75 is at least 0.5. *)
Theorem buildWorkflow_plan :
  forall options : AnalyzeOptions.t,
    let plan := buildWorkflow options in
    let strict := match AnalyzeOptions.mode options with
                  | command => true
                  | intent => false
                  end in
    map WorkflowStep.name (WorkflowPlan.steps plan) =
      [fetch; extract; locate_sections; validate; generate; emit_ledger]
    /\ map WorkflowStep.required (WorkflowPlan.steps plan) =
         [true; true; true; strict; strict; true]
    /\ WorkflowPlan.skippedSteps plan = []
    /\ WorkflowPlan.confidenceThreshold plan =
         (if strict then 75 # 100 else 5 # 10)
    /\ (INTENT_CONFIDENCE_THRESHOLD <= COMMAND_CONFIDENCE_THRESHOLD)%Q.
Proof.
  intros options plan strict. subst plan strict.
  unfold buildWorkflow.
  destruct (AnalyzeOptions.mode options); cbn;
    repeat split; try reflexivity;
    unfold INTENT_CONFIDENCE_THRESHOLD, COMMAND_CONFIDENCE_THRESHOLD, Qle;
    cbn; lia.
Qed.

(* ------------------------------------------------------------------ *)
(** *** Section locator *)

Lemma first_pattern_none :
  forall hit ps pi,
    (forall r, In r ps -> hit r = false) -> first_pattern hit pi ps = None.
Proof.
  intros hit ps; induction ps as [|r ps IH]; intros pi H; cbn; [reflexivity|].
  rewrite (H r (or_introl eq_refl)). apply IH. intros r' Hr'.
  apply H. now right.
Qed.

Lemma find_heading_none :
  forall ps divs i,
    (forall d r, In d divs -> In r ps -> test r (block_text d) = false) ->
    find_heading ps i divs = None.
Proof.
  intros ps divs; induction divs as [|d divs IH]; intros i H;
    cbn [find_heading]; [reflexivity|].
  assert (Hrest : find_heading ps (S i) divs = None).
  { apply IH. intros d' r Hd Hr. apply H; [now right | exact Hr]. }
  destruct ((150 <? length (block_text d)) || (length (block_text d) <? 3));
    [exact Hrest|].
  rewrite first_pattern_none; [exact Hrest|].
  intros r Hr. apply H; [now left | exact Hr].
Qed.

(** The two shapes of a result of the structured-markup path. *)
Lemma findSectionByDomSiblings_cases :
  forall bodyDivs pattern,
    let s := findSectionByDomSiblings bodyDivs pattern in
    (s = makeNotFound (SectionPattern.key pattern)
     /\ find_heading (SectionPattern.headingPatterns pattern) 0 bodyDivs = None)
    \/ (SectionMatch.found s = true
        /\ SectionMatch.name s = SectionPattern.key pattern
        /\ (SectionMatch.confidence s = 95 # 100
            \/ SectionMatch.confidence s = 90 # 100)
        /\ SectionMatch.lengthChars s = length (SectionMatch.content s)).
Proof.
  intros bodyDivs pattern s. subst s. unfold findSectionByDomSiblings.
  destruct (find_heading (SectionPattern.headingPatterns pattern) 0 bodyDivs)
    as [[headingIdx pi]|]; [right | left; split; reflexivity].
  destruct (collect_blocks (S headingIdx) (skipn (S headingIdx) bodyDivs))
    as [contentBlocks endIdx]. cbn.
  repeat split; try reflexivity.
  destruct (pi =? 0)%nat; [left | right]; reflexivity.
Qed.

(** The two shapes of a result of the flat-text path. *)
Lemma locate_pattern_in_text_cases :
  forall key text ps pi,
    let s := locate_pattern_in_text key text pi ps in
    (s = makeNotFound key
     /\ forall r, In r ps -> exec (unanchored r) text = None)
    \/ (SectionMatch.found s = true
        /\ SectionMatch.name s = key
        /\ (SectionMatch.confidence s = 90 # 100
            \/ SectionMatch.confidence s = 85 # 100)
        /\ exists r startOffset,
             In r ps
             /\ exec (unanchored r) text = Some startOffset
             /\ SectionMatch.startOffset s = Z.of_nat startOffset
             /\ SectionMatch.content s = extractTextSection text startOffset
             /\ SectionMatch.lengthChars s = length (SectionMatch.content s)
             /\ SectionMatch.endOffset s =
                  (SectionMatch.startOffset s
                   + Z.of_nat (length (SectionMatch.content s)))%Z).
Proof.
  intros key text ps; induction ps as [|r ps IH]; intros pi; cbn.
  - left. split; [reflexivity | intros r []].
  - destruct (exec (unanchored r) text) as [startOffset|] eqn:E.
    + right. cbn. repeat split; try reflexivity.
      * destruct (pi =? 0)%nat; [left | right]; reflexivity.
      * exists r, startOffset. cbn. repeat split; auto.
    + destruct (IH (S pi)) as [[Hs Hnone] | (Hf & Hn & Hc & r' & st & Hin & Hrest)].
      * left. split; [exact Hs|]. intros r' [<- | Hr']; auto.
      * right. repeat split; auto. exists r', st. split; [now right | exact Hrest].
Qed.


Lemma SECTION_PATTERNS_keys :
  map SectionPattern.key SECTION_PATTERNS =
  [js "risk_factors"; js "mdna"; js "financials"].
Proof. reflexivity. Qed.

Lemma locateSections_names :
  forall rawHtml extractedText contentType,
    map SectionMatch.name (locateSections rawHtml extractedText contentType) =
    map SectionPattern.key SECTION_PATTERNS.
Proof.
  intros rawHtml extractedText contentType.
  assert (Hh : map SectionMatch.name (locateInHtml rawHtml) =
               map SectionPattern.key SECTION_PATTERNS).
  { unfold locateInHtml. rewrite map_map. apply map_ext_in. intros p _.
    destruct (findSectionByDomSiblings_cases (bodyDivTexts rawHtml) p)
      as [[-> _] | (_ & Hn & _)]; [reflexivity | exact Hn]. }
  assert (Ht : map SectionMatch.name (locateInText extractedText) =
               map SectionPattern.key SECTION_PATTERNS).
  { unfold locateInText. rewrite map_map. apply map_ext_in. intros p _.
    destruct (locate_pattern_in_text_cases (SectionPattern.key p)
                extractedText (SectionPattern.headingPatterns p) 0)
      as [[-> _] | (_ & Hn & _)]; [reflexivity | exact Hn]. }
  destruct contentType; cbn [locateSections]; assumption.
Qed.

(** Every located section is the result of one configured pattern. *)
Lemma locateSections_In :
  forall rawHtml extractedText contentType s,
    In s (locateSections rawHtml extractedText contentType) ->
    exists pattern,
      In pattern SECTION_PATTERNS /\
      match contentType with
      | html => s = findSectionByDomSiblings (bodyDivTexts rawHtml) pattern
      | _ => s = locate_pattern_in_text (SectionPattern.key pattern)
                   extractedText 0 (SectionPattern.headingPatterns pattern)
      end.
Proof.
  intros rawHtml extractedText contentType s H.
  destruct contentType; cbn [locateSections] in H;
    unfold locateInHtml, locateInText in H;
    apply in_map_iff in H; destruct H as (p & <- & Hp);
    exists p; split; auto.
Qed.

(** C6. For every document and content kind, [locateSections] returns three
    results, one per configured section pattern and in the order of the
    patterns (risk_factors, mdna, financials); the result of a section for
    which no heading pattern matches has found=false, confidence 0, both
    offsets -1, length 0 and empty content. *)
Theorem locateSections_three_results :
  forall rawHtml extractedText contentType,
    let result := locateSections rawHtml extractedText contentType in
    length result = 3%nat
    /\ map SectionMatch.name result =
         [js "risk_factors"; js "mdna"; js "financials"]
    /\ forall k pattern,
         nth_error SECTION_PATTERNS k = Some pattern ->
         no_heading_match rawHtml extractedText contentType pattern ->
         nth_error result k =
           Some (SectionMatch.mk (SectionPattern.key pattern) false 0
                   (-1) (-1) 0 []).
Proof.
  intros rawHtml extractedText contentType result. subst result.
  split; [|split].
  - rewrite <- (length_map SectionMatch.name), locateSections_names.
    reflexivity.
  - rewrite locateSections_names. apply SECTION_PATTERNS_keys.
  - intros k pattern Hk Hno.
    destruct contentType; cbn [locateSections no_heading_match] in *;
      unfold locateInHtml, locateInText;
      rewrite nth_error_map, Hk; cbn [option_map]; f_equal.
    + unfold findSectionByDomSiblings.
      rewrite find_heading_none; [reflexivity | exact Hno].
    + destruct (locate_pattern_in_text_cases (SectionPattern.key pattern)
                  extractedText (SectionPattern.headingPatterns pattern) 0)
        as [[-> _] | (_ & _ & _ & r & st & Hin & He & _)]; [reflexivity|].
      rewrite (Hno r Hin) in He. discriminate.
    + destruct (locate_pattern_in_text_cases (SectionPattern.key pattern)
                  extractedText (SectionPattern.headingPatterns pattern) 0)
        as [[-> _] | (_ & _ & _ & r & st & Hin & He & _)]; [reflexivity|].
      rewrite (Hno r Hin) in He. discriminate.
Qed.

(** C10. Every result of [locateSections], on either path and found or not,
    has lengthChars equal to the length of its content; a result that is not
    found has empty content and length 0; on the flat-text path the end
    offset is the start offset plus the length of the content. *)
Theorem locateSections_length_invariant :
  forall rawHtml extractedText contentType s,
    In s (locateSections rawHtml extractedText contentType) ->
    SectionMatch.lengthChars s = length (SectionMatch.content s)
    /\ (SectionMatch.found s = false ->
        SectionMatch.content s = [] /\ SectionMatch.lengthChars s = 0%nat)
    /\ (contentType <> html ->
        SectionMatch.endOffset s =
          (SectionMatch.startOffset s
           + Z.of_nat (length (SectionMatch.content s)))%Z).
Proof.
  intros rawHtml extractedText contentType s H.
  apply locateSections_In in H. destruct H as (p & _ & Hs).
  assert (Htext :
    s = locate_pattern_in_text (SectionPattern.key p) extractedText 0
          (SectionPattern.headingPatterns p) ->
    SectionMatch.lengthChars s = length (SectionMatch.content s)
    /\ (SectionMatch.found s = false ->
        SectionMatch.content s = [] /\ SectionMatch.lengthChars s = 0%nat)
    /\ SectionMatch.endOffset s =
         (SectionMatch.startOffset s
          + Z.of_nat (length (SectionMatch.content s)))%Z).
  { intros ->.
    destruct (locate_pattern_in_text_cases (SectionPattern.key p)
                extractedText (SectionPattern.headingPatterns p) 0)
      as [[-> _] | (Hf & _ & _ & r & st & _ & _ & _ & _ & Hl & He)].
    - cbn. auto.
    - split; [exact Hl|]. split; [|exact He].
      intros C. rewrite Hf in C. discriminate. }
  destruct contentType.
  - subst s.
    destruct (findSectionByDomSiblings_cases (bodyDivTexts rawHtml) p)
      as [[-> _] | (Hf & _ & _ & Hl)].
    + cbn. split; [reflexivity|]. split; [auto|]. intros C; now elim C.
    + split; [exact Hl|]. split.
      * intros C. rewrite Hf in C. discriminate.
      * intros C; now elim C.
  - destruct (Htext Hs) as (H1 & H2 & H3). auto.
  - destruct (Htext Hs) as (H1 & H2 & H3). auto.
Qed.

(* ------------------------------------------------------------------ *)
(** *** Section validator *)

Lemma Qltb_lt : forall a b : Q, Qltb a b = true <-> (a < b)%Q.
Proof.
  intros a b. unfold Qltb. rewrite negb_true_iff.
  split.
  - intros H. apply Qnot_le_lt. intros C.
    apply Qle_bool_iff in C. congruence.
  - intros H. destruct (Qle_bool b a) eqn:E; [|reflexivity].
    apply Qle_bool_iff in E. exfalso. exact (Qlt_not_le _ _ H E).
Qed.

(** The failures recorded for one key are exactly those of the rule. *)
Lemma check_required_key_In :
  forall sections threshold k f,
    In f (check_required_key sections threshold k) <->
    failure_of sections threshold k f.
Proof.
  intros sections threshold k f.
  unfold check_required_key, failure_of, not_located, resolved_section.
  destruct (find (fun s => matchesSectionKey (SectionMatch.name s) k) sections)
    as [s|] eqn:E.
  - destruct (SectionMatch.found s) eqn:Hf; cbn [negb].
    + rewrite in_app_iff. split.
      * intros [H | H]; right; exists s; (split; [reflexivity|]);
          (split; [exact Hf|]).
        -- destruct (Qltb (SectionMatch.confidence s) threshold) eqn:Q;
             [|destruct H].
           destruct H as [<- | []]. left. split; [reflexivity|].
           now apply Qltb_lt.
        -- destruct (SectionMatch.lengthChars s <? MIN_SECTION_LENGTH) eqn:L;
             [|destruct H].
           destruct H as [<- | []]. right. split; [reflexivity|].
           now apply Nat.ltb_lt.
      * intros [[_ C] | (s' & Hs' & _ & [[-> Hq] | [-> Hl]])];
          [discriminate | |]; injection Hs' as <-.
        -- left. apply Qltb_lt in Hq. rewrite Hq. now left.
        -- right. apply Nat.ltb_lt in Hl. rewrite Hl. now left.
    + split.
      * intros [<- | []]. left. split; reflexivity.
      * intros [[-> _] | (s' & Hs' & Hf' & _)]; [now left|].
        injection Hs' as <-. congruence.
  - split.
    + intros [<- | []]. left. split; [reflexivity | exact I].
    + intros [[-> _] | (s' & Hs' & _)]; [now left | discriminate].
Qed.

Lemma validation_failures_In :
  forall sections requiredKeys threshold f,
    In f (validation_failures sections requiredKeys threshold) <->
    exists k, In k requiredKeys /\ failure_of sections threshold k f.
Proof.
  intros sections requiredKeys threshold f. unfold validation_failures.
  rewrite in_flat_map. split; intros (k & Hk & H); exists k; split; auto;
    now apply check_required_key_In.
Qed.


Lemma locateSections_confidence :
  forall rawHtml extractedText contentType s,
    In s (locateSections rawHtml extractedText contentType) ->
    SectionMatch.found s = true ->
    SectionMatch.confidence s = 85 # 100
    \/ SectionMatch.confidence s = 90 # 100
    \/ SectionMatch.confidence s = 95 # 100.
Proof.
  intros rawHtml extractedText contentType s H Hfound.
  apply locateSections_In in H. destruct H as (p & _ & Hs).
  assert (Htext :
    s = locate_pattern_in_text (SectionPattern.key p) extractedText 0
          (SectionPattern.headingPatterns p) ->
    SectionMatch.confidence s = 85 # 100
    \/ SectionMatch.confidence s = 90 # 100
    \/ SectionMatch.confidence s = 95 # 100).
  { intros E.
    destruct (locate_pattern_in_text_cases (SectionPattern.key p)
                extractedText (SectionPattern.headingPatterns p) 0)
      as [[E' _] | (_ & _ & [Hc | Hc] & _)]; rewrite <- E in *.
    - rewrite E' in Hfound. discriminate.
    - auto.
    - auto. }
  destruct contentType; auto.
  destruct (findSectionByDomSiblings_cases (bodyDivTexts rawHtml) p)
    as [[E' _] | (_ & _ & [Hc | Hc] & _)]; rewrite <- Hs in *.
  - rewrite E' in Hfound. discriminate.
  - auto.
  - auto.
Qed.

(** C9. Every found result of [locateSections] has confidence 0.85, 0.90 or
    0.95; hence, with the threshold of any plan of [buildWorkflow], the
    validator records no confidence failure for located sections: each of
    its failures is a section not found or a section shorter than 500
    characters. *)
Theorem locator_confidence_meets_threshold :
  forall rawHtml extractedText contentType,
    let sections := locateSections rawHtml extractedText contentType in
    (forall s,
        In s sections -> SectionMatch.found s = true ->
        SectionMatch.confidence s = 85 # 100
        \/ SectionMatch.confidence s = 90 # 100
        \/ SectionMatch.confidence s = 95 # 100)
    /\ forall options requiredKeys f,
         In f (validation_failures sections requiredKeys
                 (WorkflowPlan.confidenceThreshold (buildWorkflow options))) ->
         (exists k, f = NotFound k /\ not_located sections k)
         \/ (exists k n, f = TooShort k n /\ (n < 500)%nat).
Proof.
  intros rawHtml extractedText contentType sections.
  assert (Htiers := locateSections_confidence rawHtml extractedText contentType).
  fold sections in Htiers.
  split; [exact Htiers|].
  intros options requiredKeys f Hf.
  apply validation_failures_In in Hf.
  destruct Hf as (k & _ & [[-> Hnl] | (s & Hs & Hfound & [[-> Hq] | [-> Hl]])]).
  - left. exists k. auto.
  - exfalso.
    assert (Hin : In s sections).
    { unfold resolved_section in Hs. apply find_some in Hs. tauto. }
    assert (Hthr :
      WorkflowPlan.confidenceThreshold (buildWorkflow options) = 75 # 100
      \/ WorkflowPlan.confidenceThreshold (buildWorkflow options) = 5 # 10).
    { unfold buildWorkflow. destruct (AnalyzeOptions.mode options);
        cbn; [left | right]; reflexivity. }
    revert Hq.
    destruct (Htiers s Hin Hfound) as [-> | [-> | ->]];
      destruct Hthr as [-> | ->]; unfold Qlt; cbn; lia.
  - right. exists k, (SectionMatch.lengthChars s). auto.
Qed.

(* ------------------------------------------------------------------ *)
(** *** Summarizer *)

Lemma truncate_length :
  forall text maxLen,
    (3 <= maxLen)%nat -> (length (truncate text maxLen) <= maxLen)%nat.
Proof.
  intros text maxLen H. unfold truncate.
  destruct (length text <=? maxLen)%nat eqn:E.
  - now apply Nat.leb_le.
  - unfold slice. rewrite length_app, length_firstn.
    change (length (js "...")) with 3%nat. lia.
Qed.

Lemma analyze_required_key_ok :
  forall sections k, analysis_for sections k (analyze_required_key sections k).
Proof.
  intros sections k.
  unfold analysis_for, analyze_required_key, not_located, resolved_section.
  destruct (find (fun s => matchesSectionKey (SectionMatch.name s) k) sections)
    as [s|] eqn:E.
  - destruct (SectionMatch.found s) eqn:Hf; cbn [negb].
    + cbn [SectionAnalysis.summary SectionAnalysis.evidence
           SectionAnalysis.found SectionAnalysis.name
           SectionAnalysis.confidence].
      rewrite !length_map. repeat split.
      * apply firstn_le_length.
      * apply firstn_le_length.
      * apply Forall_forall. intros e He. apply in_map_iff in He.
        destruct He as (x & <- & _). apply truncate_length. lia.
      * discriminate.
      * discriminate.
      * discriminate.
      * injection H as <-. reflexivity.
      * injection H as <-. reflexivity.
    + cbn [SectionAnalysis.summary SectionAnalysis.evidence
           SectionAnalysis.found SectionAnalysis.name
           SectionAnalysis.confidence length].
      repeat split; auto; try lia.
      all: match goal with
           | E' : Some _ = Some _ |- _ => injection E' as <-; congruence
           end.
  - cbn [SectionAnalysis.summary SectionAnalysis.evidence
         SectionAnalysis.found SectionAnalysis.name
         SectionAnalysis.confidence length].
    repeat split; auto; try lia; discriminate.
Qed.

(** C7. For every list of located sections and every list of required
    keys, [generateAnalysis] returns one analysis per requested key, in the
    order of the request; each has at most 5 summary sentences and at most 3
    evidence snippets, each evidence snippet has at most 200 code units, and
    a key whose section is absent or not found gets found=false with empty
    summary and empty evidence. *)
Theorem generateAnalysis_bounds :
  forall sections requiredKeys,
    let analyses :=
      AnalysisResult.sections (generateAnalysis sections requiredKeys) in
    length analyses = length requiredKeys
    /\ Forall2 (analysis_for sections) requiredKeys analyses.
Proof.
  intros sections requiredKeys analyses. subst analyses.
  unfold generateAnalysis. cbn [AnalysisResult.sections].
  split; [apply length_map|].
  induction requiredKeys as [|k ks IH]; cbn [map]; constructor.
  - apply analyze_required_key_ok.
  - exact IH.
Qed.

(* ------------------------------------------------------------------ *)
(** *** Flat-text extraction *)





Lemma nth_error_skipn :
  forall (A : Type) (l : list A) n j,
    nth_error (skipn n l) j = nth_error l (n + j).
Proof.
  intros A l; induction l as [|x l IH]; intros [|n] j; cbn; auto.
  destruct j; reflexivity.
Qed.



(* ------------------------------------------------------------------ *)
(** *** Ledger builder *)

Lemma ledger_fold_lists :
  forall results d e sk,
    (forall res, In res results -> StepResult.status res = skipped ->
                 In (StepResult.name res) sk) ->
    exists d',
      fold_left ledger_step results (d, e, sk) =
      (d', e ++ executed_names results, sk).
Proof.
  induction results as [|res results IH]; intros d e sk H.
  - exists d. cbn. now rewrite app_nil_r.
  - cbn [fold_left]. unfold ledger_step at 2. unfold executed_names.
    cbn [filter].
    assert (Hrest : forall r, In r results -> StepResult.status r = skipped ->
                              In (StepResult.name r) sk).
    { intros r Hr. apply H. now right. }
    destruct (StepResult.status res) eqn:Est.
    + destruct (IH (obj_set (StepName_str (StepResult.name res))
                      (StepResult.durationMs res) d) e sk Hrest) as (d' & ->).
      exists d'. reflexivity.
    + destruct (IH (obj_set (StepName_str (StepResult.name res))
                      (StepResult.durationMs res) d) e sk Hrest) as (d' & ->).
      exists d'. reflexivity.
    + destruct (IH (obj_set (StepName_str (StepResult.name res))
                      (StepResult.durationMs res) d)
                   (e ++ [StepResult.name res]) sk Hrest) as (d' & ->).
      exists d'. cbn [map]. now rewrite <- app_assoc.
    + destruct (IH (obj_set (StepName_str (StepResult.name res))
                      (StepResult.durationMs res) d)
                   (e ++ [StepResult.name res]) sk Hrest) as (d' & ->).
      exists d'. cbn [map]. now rewrite <- app_assoc.
    + assert (Hin : In (StepResult.name res) sk)
        by (apply H; [now left | exact Est]).
      assert (Hex : existsb (StepName_eqb (StepResult.name res)) sk = true).
      { apply existsb_exists. exists (StepResult.name res). split; [exact Hin|].
        unfold StepName_eqb.
        destruct (StepName_eq_dec (StepResult.name res) (StepResult.name res));
          congruence. }
      rewrite Hex. cbn [negb].
      destruct (IH (obj_set (StepName_str (StepResult.name res))
                      (StepResult.durationMs res) d) e sk Hrest) as (d' & ->).
      exists d'. reflexivity.
Qed.

Lemma buildLedger_lists :
  forall now ctx plan passed failureReason,
    (forall res, In res (WorkflowContext.stepResults ctx) ->
                 StepResult.status res = skipped ->
                 In (StepResult.name res) (WorkflowPlan.skippedSteps plan)) ->
    let ledger := buildLedger now ctx plan passed failureReason in
    AuditLedger.executedSteps ledger =
      executed_names (WorkflowContext.stepResults ctx)
    /\ AuditLedger.skippedSteps ledger = WorkflowPlan.skippedSteps plan.
Proof.
  intros now ctx plan p r H ledger. subst ledger. unfold buildLedger.
  destruct (ledger_fold_lists (WorkflowContext.stepResults ctx) [] []
              (WorkflowPlan.skippedSteps plan) H) as (d' & ->).
  cbn. auto.
Qed.

Lemma buildLedger_verdict :
  forall now ctx plan passed failureReason,
    let ledger := buildLedger now ctx plan passed failureReason in
    AuditLedger.timestamp ledger = now
    /\ AuditLedger.passed ledger = passed
    /\ AuditLedger.failureReason ledger = failureReason.
Proof.
  intros now ctx plan p r ledger. subst ledger. unfold buildLedger.
  destruct (fold_left ledger_step (WorkflowContext.stepResults ctx)
              ([], [], WorkflowPlan.skippedSteps plan)) as [[d e] sk].
  cbn. auto.
Qed.

(** C3, amended. [buildLedger] is a function of its arguments and of the
    reading of the wall clock that it stores in the timestamp: the passed
    flag and the failure reason are the ones supplied, the timestamp is the
    clock reading, and every other field is determined by the step results,
    the sections, the invocation id and the mode of the context and by the
    skip list of the plan; two calls with these in common return ledgers
    that differ at most in the timestamp. *)
Theorem buildLedger_pure_up_to_clock :
  forall now1 now2 ctx1 ctx2 plan1 plan2 passed failureReason,
    WorkflowContext.stepResults ctx1 = WorkflowContext.stepResults ctx2 ->
    WorkflowContext.sections ctx1 = WorkflowContext.sections ctx2 ->
    AnalyzeOptions.invocationId (WorkflowContext.options ctx1) =
      AnalyzeOptions.invocationId (WorkflowContext.options ctx2) ->
    AnalyzeOptions.mode (WorkflowContext.options ctx1) =
      AnalyzeOptions.mode (WorkflowContext.options ctx2) ->
    WorkflowPlan.skippedSteps plan1 = WorkflowPlan.skippedSteps plan2 ->
    set_timestamp now2 (buildLedger now1 ctx1 plan1 passed failureReason) =
      buildLedger now2 ctx2 plan2 passed failureReason
    /\ AuditLedger.timestamp
         (buildLedger now1 ctx1 plan1 passed failureReason) = now1
    /\ AuditLedger.passed
         (buildLedger now1 ctx1 plan1 passed failureReason) = passed
    /\ AuditLedger.failureReason
         (buildLedger now1 ctx1 plan1 passed failureReason) = failureReason.
Proof.
  intros now1 now2 ctx1 ctx2 plan1 plan2 p r Hres Hsec Hid Hmode Hskip.
  split; [|apply buildLedger_verdict].
  unfold buildLedger. rewrite Hres, Hsec, Hid, Hmode, Hskip.
  destruct (fold_left ledger_step (WorkflowContext.stepResults ctx2)
              ([], [], WorkflowPlan.skippedSteps plan2)) as [[d e] sk].
  reflexivity.
Qed.

(* ------------------------------------------------------------------ *)
(** *** Orchestrator *)

Lemma emitOutputs_ledgers :
  forall now ctx plan passed failureReason,
    ledgers (emitOutputs now ctx plan passed failureReason) =
    [buildLedger now ctx plan passed failureReason].
Proof.
  intros now ctx plan p r. unfold emitOutputs. destruct p; reflexivity.
Qed.

Lemma StepName_eqb_refl : forall n, StepName_eqb n n = true.
Proof.
  intros n. unfold StepName_eqb. destruct (StepName_eq_dec n n); congruence.
Qed.

Lemma existsb_StepName_In :
  forall n l, existsb (StepName_eqb n) l = true <-> In n l.
Proof.
  intros n l. rewrite existsb_exists. split.
  - intros (x & Hx & E). unfold StepName_eqb in E.
    destruct (StepName_eq_dec n x); [now subst | discriminate].
  - intros H. exists n. split; [exact H | apply StepName_eqb_refl].
Qed.

Section Run.

Variable now : jsstring.
Variable elapsed : nat -> Z.
Variable options : AnalyzeOptions.t.
Variable plan : WorkflowPlan.t.

(** A step that is recorded without stopping the run extends what the rest
    of the run records. *)
Lemma run_spec_cons :
  forall step rest ctx ctx' r0 run,
    WorkflowContext.stepResults ctx' =
      WorkflowContext.stepResults ctx ++ [r0] ->
    recorded (WorkflowPlan.skippedSteps plan) step r0 ->
    (StepResult.status r0 = failed -> enforced options step = false) ->
    run_spec now options plan rest ctx' run ->
    run_spec now options plan (step :: rest) ctx run.
Proof.
  intros step rest ctx ctx' r0 run Hctx Hr0 Hfree
    (results & Hres & Hrec & Hend & Hlast).
  exists (r0 :: results). split; [|split; [|split]].
  - rewrite Hres, Hctx, <- app_assoc. reflexivity.
  - cbn [length firstn]. constructor; assumption.
  - destruct Hend
      as [(He & Hl & Hf) | (He & pre & st & res & m & Hp & Hn & Hrest)].
    + left. repeat split; auto. cbn [length]. now rewrite Hl.
    + right. split; [exact He|]. exists (r0 :: pre), st, res, m.
      split; [now rewrite Hp|]. exact (conj Hn Hrest).
  - intros [|i] st res Hst Hr Hfail Henf.
    + injection Hst as <-. injection Hr as <-.
      rewrite (Hfree Hfail) in Henf. discriminate.
    + destruct (Hlast i st res Hst Hr Hfail Henf) as [Hl He].
      split; [cbn [length]; now rewrite Hl | exact He].
Qed.

(** What the loop of the orchestrator records and how it ends, from any
    position [k] of the plan and any context. *)
Lemma runSteps_spec :
  forall steps k ctx,
    Forall keeps_stepResults steps ->
    run_spec now options plan steps ctx
      (runSteps now elapsed options plan k steps ctx).
Proof.
  induction steps as [|step rest IH]; intros k ctx Hkeep.
  - exists []. cbn. rewrite app_nil_r. repeat split; auto.
    all: destruct i; discriminate.
  - inversion Hkeep as [|? ? Hstep Hrest]; subst.
    cbn [runSteps].
    destruct (existsb (StepName_eqb (WorkflowStep.name step))
                (WorkflowPlan.skippedSteps plan)) eqn:Eskip.
    + (* the step is in the skip list *)
      eapply run_spec_cons; [| | |apply IH; exact Hrest].
      * reflexivity.
      * split; [reflexivity|]. rewrite Eskip. reflexivity.
      * discriminate.
    + destruct (WorkflowStep.execute step ctx) as [ctx1 err] eqn:Eexec.
      assert (Hkept : WorkflowContext.stepResults ctx1 =
                      WorkflowContext.stepResults ctx).
      { specialize (Hstep ctx). now rewrite Eexec in Hstep. }
      destruct err as [message|].
      * (* the step throws *)
        fold (enforced options step).
        destruct (enforced options step) eqn:Eenf.
        -- set (r0 := StepResult.mk (WorkflowStep.name step) failed
                        (elapsed k) (Some message)).
           exists [r0]. split; [|split; [|split]].
           ++ cbn. now rewrite Hkept.
           ++ cbn [length firstn]. constructor; [|constructor].
              split; [reflexivity|]. rewrite Eskip. now right.
           ++ right. split; [reflexivity|].
              exists [], step, r0, message. repeat split; auto.
           ++ intros [|i] st res Hst Hr Hfail Henf; [split; reflexivity|].
              destruct i; discriminate.
        -- eapply run_spec_cons; [| | |apply IH; exact Hrest].
           ++ cbn. now rewrite Hkept.
           ++ split; [reflexivity|]. rewrite Eskip. now right.
           ++ intros _. exact Eenf.
      * (* the step returns *)
        eapply run_spec_cons; [| | |apply IH; exact Hrest].
        -- cbn. now rewrite Hkept.
        -- split; [reflexivity|]. rewrite Eskip. now left.
        -- discriminate.
Qed.

(** The results of the loop are the outcomes of the steps it has started,
    each started on the context left by the step before it. *)
Lemma runSteps_trace :
  forall steps k ctx,
    Forall keeps_stepResults steps ->
    exists results,
      WorkflowContext.stepResults
        (RunResult.ctx (runSteps now elapsed options plan k steps ctx)) =
        WorkflowContext.stepResults ctx ++ results
      /\ step_trace (WorkflowPlan.skippedSteps plan) elapsed k steps ctx
           results
           (RunResult.ctx (runSteps now elapsed options plan k steps ctx)).
Proof.
  induction steps as [|step rest IH]; intros k ctx Hkeep.
  - exists []. cbn [runSteps RunResult.ctx]. rewrite app_nil_r.
    split; [reflexivity | constructor].
  - inversion Hkeep as [|? ? Hstep Hrest]; subst.
    cbn [runSteps].
    destruct (existsb (StepName_eqb (WorkflowStep.name step))
                (WorkflowPlan.skippedSteps plan)) eqn:Eskip.
    + set (r0 := StepResult.mk (WorkflowStep.name step) skipped 0 None).
      destruct (IH (S k) (push_stepResult ctx r0) Hrest)
        as (results & Hres & Htrace).
      exists (r0 :: results). split.
      * rewrite Hres. cbn [push_stepResult WorkflowContext.stepResults].
        now rewrite <- app_assoc.
      * apply trace_step with (ctx' := push_stepResult ctx r0);
          [|exact Htrace].
        unfold step_outcome. rewrite Eskip. split; reflexivity.
    + destruct (WorkflowStep.execute step ctx) as [ctx1 err] eqn:Eexec.
      assert (Hkept : WorkflowContext.stepResults ctx1 =
                      WorkflowContext.stepResults ctx).
      { specialize (Hstep ctx). now rewrite Eexec in Hstep. }
      destruct err as [message|].
      * set (r0 := StepResult.mk (WorkflowStep.name step) failed
                     (elapsed k) (Some message)).
        assert (Hout : step_outcome (WorkflowPlan.skippedSteps plan)
                         (elapsed k) step ctx r0 (push_stepResult ctx1 r0)).
        { unfold step_outcome. rewrite Eskip, Eexec. split; reflexivity. }
        destruct (InvocationMode_eqb (AnalyzeOptions.mode options) command
                  && WorkflowStep.required step).
        -- exists [r0]. cbn [RunResult.ctx]. split.
           ++ cbn [push_stepResult WorkflowContext.stepResults].
              now rewrite Hkept.
           ++ apply trace_step with (ctx' := push_stepResult ctx1 r0);
                [exact Hout | constructor].
        -- destruct (IH (S k) (push_stepResult ctx1 r0) Hrest)
             as (results & Hres & Htrace).
           exists (r0 :: results). split.
           ++ rewrite Hres.
              cbn [push_stepResult WorkflowContext.stepResults].
              now rewrite Hkept, <- app_assoc.
           ++ apply trace_step with (ctx' := push_stepResult ctx1 r0);
                [exact Hout | exact Htrace].
      * set (r0 := StepResult.mk (WorkflowStep.name step) passed
                     (elapsed k) None).
        destruct (IH (S k) (push_stepResult ctx1 r0) Hrest)
          as (results & Hres & Htrace).
        exists (r0 :: results). split.
        -- rewrite Hres. cbn [push_stepResult WorkflowContext.stepResults].
           now rewrite Hkept, <- app_assoc.
        -- apply trace_step with (ctx' := push_stepResult ctx1 r0);
             [|exact Htrace].
           unfold step_outcome. rewrite Eskip, Eexec. split; reflexivity.
Qed.

End Run.


(** The steps of [buildWorkflow] leave the step results to the
    orchestrator. *)
Lemma buildWorkflow_keeps_stepResults :
  forall options,
    Forall keeps_stepResults (WorkflowPlan.steps (buildWorkflow options)).
Proof.
  intros options. unfold buildWorkflow. cbn [WorkflowPlan.steps].
  repeat apply Forall_cons; try apply Forall_nil; intros ctx;
    cbn [WorkflowStep.execute];
    unfold execute_fetch, execute_extract, execute_locate, execute_validate,
      execute_generate, execute_emit_ledger.
  - destruct (fetchFiling (WorkflowContext.options ctx)) as [[c kd]|m];
      reflexivity.
  - destruct (extractText (WorkflowContext.rawContent ctx)
                (WorkflowContext.contentType ctx)) as [t|m]; [|reflexivity].
    destruct (length t <? 1000)%nat; reflexivity.
  - reflexivity.
  - destruct (validateSections _ _ _ _); reflexivity.
  - reflexivity.
  - reflexivity.
Qed.

(** C2. In every run the ledger is emitted exactly once, built from the
    context that the run has left.  The results of the run are the outcomes
    of the steps of a prefix of the plan, executed one after the other: a
    step outside the skip list is executed on the context left by the step
    before it, and recorded as passed when it returns and as failed, with
    its message, when it throws.  The loop over the steps is cut short only
    by a failure of a required step in command mode: the run then ends with
    exit code 2 right after recording that failure, no later step is
    executed, and the ledger has passed=false and the message of the failure
    as failure reason.  After a failure of a step that is not required, or
    of any step in intent mode, the next step of the plan is executed and
    recorded too; a run that is not cut short records every step and its
    ledger has passed=true. *)
Theorem runWorkflow_enforcement :
  forall now elapsed options intentPlan,
    let plan := match intentPlan with
                | Some p => p
                | None => buildWorkflow options
                end in
    let run := runWorkflow now elapsed options intentPlan in
    let steps := WorkflowPlan.steps plan in
    let results := WorkflowContext.stepResults (RunResult.ctx run) in
    Forall keeps_stepResults steps ->
    (exists ledger,
        ledgers (RunResult.files run) = [ledger]
        /\ ((RunResult.exitCode run = None
             /\ length results = length steps
             /\ ledger = buildLedger now (RunResult.ctx run) plan true None
             /\ AuditLedger.passed ledger = true
             /\ AuditLedger.failureReason ledger = None)
            \/ (RunResult.exitCode run = Some 2%Z
                /\ exists pre step res message,
                     results = pre ++ [res]
                     /\ nth_error steps (length pre) = Some step
                     /\ WorkflowStep.required step = true
                     /\ AnalyzeOptions.mode options = command
                     /\ StepResult.status res = failed
                     /\ StepResult.error res = Some message
                     /\ ledger = buildLedger now (RunResult.ctx run) plan
                                   false (Some message)
                     /\ AuditLedger.passed ledger = false
                     /\ AuditLedger.failureReason ledger = Some message)))
    /\ step_trace (WorkflowPlan.skippedSteps plan) elapsed 0 steps
         (initial_context options) results (RunResult.ctx run)
    /\ Forall2 (recorded (WorkflowPlan.skippedSteps plan))
               (firstn (length results) steps) results
    /\ (forall i step res,
           nth_error steps i = Some step ->
           nth_error results i = Some res ->
           StepResult.status res = failed ->
           if enforced options step
           then S i = length results
                /\ RunResult.exitCode run = Some 2%Z
           else (S i < length steps)%nat -> (S i < length results)%nat).
Proof.
  intros now elapsed options intentPlan plan run steps results Hkeep.
  destruct (@runSteps_spec now elapsed options plan steps 0
              (initial_context options) Hkeep)
    as (rs & Hres & Hrec & Hend & Hlast).
  destruct (@runSteps_trace now elapsed options plan steps 0
              (initial_context options) Hkeep)
    as (rs' & Hres' & Htrace).
  change (runSteps now elapsed options plan 0 steps (initial_context options))
    with run in *.
  cbn [initial_context WorkflowContext.stepResults app] in Hres, Hres'.
  fold results in Hres, Hres'. subst rs rs'.
  split; [|split; [exact Htrace | split; [exact Hrec|]]].
  - destruct Hend
      as [(He & Hl & Hf)
         | (He & pre & st & res & m & Hp & Hn & Henf & Hst & Herr & Hf)].
    + exists (buildLedger now (RunResult.ctx run) plan true None).
      split; [rewrite Hf; apply emitOutputs_ledgers|].
      left. destruct (buildLedger_verdict now (RunResult.ctx run) plan true
                        None) as (_ & Hp & Hr). auto.
    + exists (buildLedger now (RunResult.ctx run) plan false (Some m)).
      split; [rewrite Hf; apply emitOutputs_ledgers|].
      right. split; [exact He|]. exists pre, st, res, m.
      destruct (buildLedger_verdict now (RunResult.ctx run) plan false
                  (Some m)) as (_ & Hpf & Hr).
      unfold enforced in Henf. apply andb_true_iff in Henf.
      destruct Henf as [Hmode Hreq].
      repeat split; auto.
      destruct (AnalyzeOptions.mode options); [reflexivity | discriminate].
  - intros i st res Hst Hr Hfail.
    destruct (enforced options st) eqn:Henf.
    + exact (Hlast i st res Hst Hr Hfail Henf).
    + intros Hi.
      destruct Hend
        as [(He & Hl & Hf)
           | (He & pre & st' & res' & m & Hp & Hn & Henf' & _)].
      * now rewrite Hl.
      * rewrite Hp, length_app. cbn [length].
        assert (Hlt : (i < length results)%nat)
          by (apply nth_error_Some; congruence).
        rewrite Hp, length_app in Hlt. cbn [length] in Hlt.
        assert (Hne : i <> length pre) by (intros ->; congruence).
        lia.
Qed.

Lemma count_occ_filter :
  forall (p : StepName -> bool) l n,
    count_occ StepName_eq_dec (filter p l) n =
    if p n then count_occ StepName_eq_dec l n else 0%nat.
Proof.
  intros p l n; induction l as [|x l IH]; cbn [filter count_occ].
  - now destruct (p n).
  - destruct (p x) eqn:Px; cbn [count_occ];
      destruct (StepName_eq_dec x n) as [->|Hne]; rewrite IH;
      try rewrite Px; destruct (p n); congruence.
Qed.

(** The executed names of a run that recorded every step: the steps of the
    plan that are not in the skip list. *)
Lemma executed_names_recorded :
  forall skip steps results,
    Forall2 (recorded skip) steps results ->
    executed_names results =
      filter (fun n => negb (existsb (StepName_eqb n) skip))
             (map WorkflowStep.name steps)
    /\ forall res, In res results -> StepResult.status res = skipped ->
                   In (StepResult.name res) skip.
Proof.
  intros skip steps results H. induction H as [|st res steps results [Hn Hs] _ [IH1 IH2]].
  - split; [reflexivity | intros res []].
  - unfold executed_names in *. cbn [filter map].
    destruct (existsb (StepName_eqb (WorkflowStep.name st)) skip) eqn:E.
    + rewrite Hs. cbn [negb]. split; [exact IH1|].
      intros r [<- | Hr] Hsk; [|now apply IH2].
      rewrite Hn. now apply existsb_StepName_In.
    + cbn [negb]. split.
      * destruct Hs as [-> | ->]; cbn [map]; now rewrite IH1, Hn.
      * intros r [<- | Hr] Hsk; [|now apply IH2].
        destruct Hs as [Hs | Hs]; congruence.
Qed.

(** C1, amended. For every run that is not cut short by the enforcement
    rule, over a plan that has the six steps of the universe and a skip list
    without repetition, the executed and skipped lists of the ledger taken
    together contain every name of the universe exactly once. *)
Theorem completed_run_covers_universe :
  forall now elapsed options intentPlan,
    let plan := match intentPlan with
                | Some p => p
                | None => buildWorkflow options
                end in
    let run := runWorkflow now elapsed options intentPlan in
    map WorkflowStep.name (WorkflowPlan.steps plan) = ALL_REQUIRED_STEPS ->
    Forall keeps_stepResults (WorkflowPlan.steps plan) ->
    NoDup (WorkflowPlan.skippedSteps plan) ->
    RunResult.exitCode run = None ->
    exists ledger,
      ledgers (RunResult.files run) = [ledger]
      /\ covers_universe_once ledger.
Proof.
  intros now elapsed options intentPlan plan run Hnames Hkeep Hnodup Hexit.
  destruct (@runSteps_spec now elapsed options plan (WorkflowPlan.steps plan) 0
              (initial_context options) Hkeep)
    as (rs & Hres & Hrec & Hend & _).
  change (runSteps now elapsed options plan 0 (WorkflowPlan.steps plan)
            (initial_context options)) with run in *.
  cbn [initial_context WorkflowContext.stepResults app] in Hres.
  destruct Hend as [(_ & Hl & Hf) | (He & _)]; [|congruence].
  rewrite Hl, firstn_all in Hrec.
  destruct (executed_names_recorded Hrec) as [Hexec Hskipped].
  rewrite <- Hres in Hexec, Hskipped.
  destruct (buildLedger_lists now (RunResult.ctx run) plan true None Hskipped)
    as [He Hs].
  exists (buildLedger now (RunResult.ctx run) plan true None).
  split; [rewrite Hf; apply emitOutputs_ledgers|].
  intros n _. rewrite He, Hs, Hexec, Hnames, count_occ_app, count_occ_filter.
  destruct (existsb (StepName_eqb n) (WorkflowPlan.skippedSteps plan)) eqn:E;
    cbn [negb].
  - apply existsb_StepName_In in E.
    rewrite (proj1 (NoDup_count_occ' StepName_eq_dec _) Hnodup n E).
    reflexivity.
  - assert (Hnot : ~ In n (WorkflowPlan.skippedSteps plan)).
    { intros C. apply existsb_StepName_In in C. congruence. }
    rewrite (proj1 (count_occ_not_In StepName_eq_dec _ n) Hnot).
    destruct n; reflexivity.
Qed.

(* ================================================================== *)
(** ** Further properties of the analysis pipeline *)
(* ================================================================== *)

(** A property depends on the collaborators its statement names, and on
    no other. *)
#[local] Set Default Proof Using "Type".

(* ------------------------------------------------------------------ *)
(** *** Section keys and their aliases *)

Lemma str_eqb_eq : forall a b, str_eqb a b = true <-> a = b.
Proof.
  intros a b. unfold str_eqb. destruct (jsstring_eq_dec a b); split;
    intros H; congruence.
Qed.

Lemma includes_In : forall l x, includes l x = true <-> In x l.
Proof.
  intros l x. unfold includes. rewrite existsb_exists. split.
  - intros (y & Hy & E). apply str_eqb_eq in E. now subst.
  - intros H. exists x. split; [exact H | now apply str_eqb_eq].
Qed.

(** X1. The alias table of the locator and the alias table of the
    summarizer agree: a required key that [matchesSectionKey] accepts for a
    section name is mapped by [sectionKeyToName] to that very name, so a key
    resolves to at most one section name, and that name is one of the three
    configured keys. *)
Theorem section_aliases_agree :
  forall sectionName requireKey,
    matchesSectionKey sectionName requireKey = true ->
    sectionKeyToName requireKey = Str sectionName
    /\ In sectionName [js "risk_factors"; js "mdna"; js "financials"]
    /\ forall other,
         matchesSectionKey other requireKey = true -> other = sectionName.
Proof.
  clear bodyDivTexts extractText.
  assert (Hname : forall n k, matchesSectionKey n k = true ->
                    sectionKeyToName k = Str n
                    /\ In n [js "risk_factors"; js "mdna"; js "financials"]).
  { intros n k H. unfold matchesSectionKey in H.
    destruct (find (fun p => str_eqb (SectionPattern.key p) n)
                SECTION_PATTERNS) as [p|] eqn:E; [|discriminate].
    apply find_some in E. destruct E as [Hp Hk].
    apply str_eqb_eq in Hk. apply includes_In in H.
    unfold sectionKeyToName.
    unfold SECTION_PATTERNS in Hp. cbn [In] in Hp.
    destruct Hp as [<- | [<- | [<- | []]]];
      cbn [SectionPattern.key SectionPattern.requireKeys In] in *;
      subst n; (split; [|cbn [In]; tauto]).
    - destruct H as [<- | [<- | []]]; reflexivity.
    - destruct H as [<- | [<- | [<- | []]]]; reflexivity.
    - destruct H as [<- | [<- | [<- | []]]]; reflexivity. }
  intros n k H. destruct (Hname n k H) as [Hn Hin].
  split; [exact Hn|]. split; [exact Hin|].
  intros other Ho. destruct (Hname other k Ho) as [Ho' _]. congruence.
Qed.

(* ------------------------------------------------------------------ *)
(** *** Summarizer: ranking, summary and evidence *)

Lemma Qltb_false_le : forall a b : Q, Qltb a b = false -> (b <= a)%Q.
Proof.
  intros a b H. apply Qnot_lt_le. intros C. apply Qltb_lt in C. congruence.
Qed.

Lemma insert_by_score_perm :
  forall x l, Permutation (insert_by_score x l) (x :: l).
Proof.
  intros x l; induction l as [|y l IH]; cbn [insert_by_score]; [reflexivity|].
  destruct (Qltb (ScoredSentence.score x) (ScoredSentence.score y));
    [|reflexivity].
  rewrite IH. apply perm_swap.
Qed.

Lemma insert_by_score_sorted :
  forall x l,
    StronglySorted
      (fun a b => (ScoredSentence.score b <= ScoredSentence.score a)%Q) l ->
    StronglySorted
      (fun a b => (ScoredSentence.score b <= ScoredSentence.score a)%Q)
      (insert_by_score x l).
Proof.
  intros x l; induction l as [|y l IH]; intros H; cbn [insert_by_score].
  - repeat constructor.
  - inversion H as [|? ? Hl Hy]; subst.
    destruct (Qltb (ScoredSentence.score x) (ScoredSentence.score y)) eqn:E.
    + constructor; [now apply IH|].
      apply Forall_forall. intros z Hz.
      apply (Permutation_in _ (insert_by_score_perm x l)) in Hz.
      destruct Hz as [<- | Hz].
      * apply Qlt_le_weak. now apply Qltb_lt.
      * rewrite Forall_forall in Hy. now apply Hy.
    + apply Qltb_false_le in E. constructor; [exact H|].
      constructor; [exact E|].
      apply Forall_forall. intros z Hz. rewrite Forall_forall in Hy.
      apply Qle_trans with (ScoredSentence.score y); [now apply Hy | exact E].
Qed.

Lemma sort_by_score_perm :
  forall l, Permutation (sort_by_score l) l.
Proof.
  unfold sort_by_score. induction l as [|x l IH]; cbn [fold_right];
    [reflexivity|].
  rewrite insert_by_score_perm. now constructor.
Qed.

Lemma sort_by_score_sorted :
  forall l,
    StronglySorted
      (fun a b => (ScoredSentence.score b <= ScoredSentence.score a)%Q)
      (sort_by_score l).
Proof.
  unfold sort_by_score. induction l as [|x l IH]; cbn [fold_right].
  - constructor.
  - now apply insert_by_score_sorted.
Qed.

Lemma scoreSentences_members :
  forall sentences keywords a,
    In a (scoreSentences sentences keywords) ->
    (30 < length (ScoredSentence.text a) < 500)%nat
    /\ In (ScoredSentence.text a) sentences
    /\ ScoredSentence.score a =
         sentence_score keywords (ScoredSentence.text a).
Proof.
  intros sentences keywords a Ha. unfold scoreSentences in Ha.
  apply (Permutation_in _ (sort_by_score_perm _)) in Ha.
  apply in_map_iff in Ha. destruct Ha as (t & <- & Ht).
  apply filter_In in Ht. destruct Ht as [Hin Hband].
  apply andb_true_iff in Hband. destruct Hband as [H1 H2].
  apply Nat.ltb_lt in H1. apply Nat.ltb_lt in H2.
  cbn [ScoredSentence.text ScoredSentence.score]. auto.
Qed.

(** X2. [scoreSentences] ranks without losing or inventing a sentence: its
    result is a rearrangement of the sentences of the length band (more than
    30 and fewer than 500 code units), each paired with its score, and the
    scores never increase along the result. *)
Theorem scoreSentences_ranked :
  forall sentences keywords,
    let ranked := scoreSentences sentences keywords in
    Permutation ranked
      (map (fun text =>
              ScoredSentence.mk text (sentence_score keywords text))
           (filter (fun s => (30 <? length s) && (length s <? 500))
                   sentences))
    /\ StronglySorted
         (fun a b => (ScoredSentence.score b <= ScoredSentence.score a)%Q)
         ranked
    /\ Forall (fun a =>
                 (30 < length (ScoredSentence.text a) < 500)%nat
                 /\ In (ScoredSentence.text a) sentences
                 /\ ScoredSentence.score a =
                      sentence_score keywords (ScoredSentence.text a))
              ranked.
Proof.
  intros sentences keywords ranked. subst ranked. unfold scoreSentences.
  split; [apply sort_by_score_perm|]. split; [apply sort_by_score_sorted|].
  apply Forall_forall. intros a Ha. now apply scoreSentences_members.
Qed.


Lemma insert_by_score_ties :
  forall q x l,
    filter (fun a => Qeq_bool (ScoredSentence.score a) q)
           (insert_by_score x l) =
    filter (fun a => Qeq_bool (ScoredSentence.score a) q) (x :: l).
Proof.
  intros q x l; induction l as [|y l IH]; cbn [insert_by_score];
    [reflexivity|].
  destruct (Qltb (ScoredSentence.score x) (ScoredSentence.score y)) eqn:E;
    [|reflexivity].
  cbn [filter] in *. rewrite IH.
  destruct (Qeq_bool (ScoredSentence.score x) q) eqn:Ex;
    destruct (Qeq_bool (ScoredSentence.score y) q) eqn:Ey; try reflexivity.
  exfalso. apply Qltb_lt in E.
  apply Qeq_bool_iff in Ex. apply Qeq_bool_iff in Ey.
  rewrite Ex, Ey in E. exact (Qlt_irrefl _ E).
Qed.

(** X3. The ranking of [scoreSentences] is stable: for every score, the
    sentences that have that score come out in the order in which they
    appear in the section. *)
Theorem scoreSentences_stable :
  forall sentences keywords q,
    map ScoredSentence.text
      (filter (fun a => Qeq_bool (ScoredSentence.score a) q)
              (scoreSentences sentences keywords)) =
    filter (fun s => Qeq_bool (sentence_score keywords s) q)
           (filter (fun s => (30 <? length s) && (length s <? 500))
                   sentences).
Proof.
  intros sentences keywords q. unfold scoreSentences.
  set (band := filter (fun s => (30 <? length s) && (length s <? 500))
                      sentences).
  assert (Hsort : forall l,
    filter (fun a => Qeq_bool (ScoredSentence.score a) q) (sort_by_score l) =
    filter (fun a => Qeq_bool (ScoredSentence.score a) q) l).
  { unfold sort_by_score. induction l as [|x l IH]; cbn [fold_right];
      [reflexivity|].
    rewrite insert_by_score_ties. cbn [filter]. now rewrite IH. }
  rewrite Hsort. clear Hsort.
  induction band as [|s l IH]; cbn [map filter]; [reflexivity|].
  cbn [ScoredSentence.score].
  destruct (Qeq_bool (sentence_score keywords s) q); cbn [map];
    now rewrite IH.
Qed.

Lemma In_firstn :
  forall (A : Type) (n : nat) (l : list A) (x : A),
    In x (firstn n l) -> In x l.
Proof.
  intros A n; induction n as [|n IH]; intros [|y l] x H; cbn in *; try tauto.
  destruct H as [H | H]; [now left | right; now apply IH].
Qed.

(** X4. In every analysis of [generateAnalysis] the evidence is the
    truncation to 200 code units of the first three summary sentences, in
    the same order, and every summary sentence has more than 30 and fewer
    than 500 code units. *)
Theorem analysis_evidence_from_summary :
  forall sections requiredKeys a,
    In a (AnalysisResult.sections
            (generateAnalysis sections requiredKeys)) ->
    SectionAnalysis.evidence a =
      map (fun t => truncate t 200) (firstn 3 (SectionAnalysis.summary a))
    /\ Forall (fun t : jsstring => (30 < length t < 500)%nat)
              (SectionAnalysis.summary a).
Proof.
  intros sections requiredKeys a Ha.
  unfold generateAnalysis in Ha. cbn [AnalysisResult.sections] in Ha.
  apply in_map_iff in Ha. destruct Ha as (k & <- & _).
  unfold analyze_required_key.
  destruct (find (fun s => matchesSectionKey (SectionMatch.name s) k)
              sections) as [s|]; [|split; [reflexivity | constructor]].
  destruct (negb (SectionMatch.found s));
    [split; [reflexivity | constructor]|].
  cbn [SectionAnalysis.evidence SectionAnalysis.summary].
  unfold MAX_SUMMARY_POINTS, MAX_EVIDENCE_SNIPPETS.
  set (scored := scoreSentences _ _). split.
  - rewrite firstn_map, firstn_firstn, map_map. reflexivity.
  - apply Forall_forall. intros t Ht. apply in_map_iff in Ht.
    destruct Ht as (x & <- & Hx). apply In_firstn in Hx.
    now apply (scoreSentences_members _ _ _ Hx).
Qed.


(** X5. [truncate] with a limit of at least 3 returns a short text as it
    is, and cuts a longer text to exactly the limit: its first
    [maxLen - 3] code units followed by three dots. *)
Theorem truncate_exact :
  forall text maxLen,
    (3 <= maxLen)%nat ->
    ((length text <= maxLen)%nat -> truncate text maxLen = text)
    /\ ((maxLen < length text)%nat ->
        truncate text maxLen = firstn (maxLen - 3) text ++ js "..."
        /\ length (truncate text maxLen) = maxLen).
Proof.
  intros text maxLen H3. unfold truncate, slice. split; intros H.
  - apply Nat.leb_le in H. now rewrite H.
  - apply Nat.leb_gt in H as H'. rewrite H'. cbn [skipn].
    rewrite Nat.sub_0_r. split; [reflexivity|].
    rewrite length_app, length_firstn.
    change (length (js "...")) with 3%nat. lia.
Qed.

Lemma filter_found_split :
  forall analyses : list SectionAnalysis.t,
    (length (filter SectionAnalysis.found analyses)
     + length (filter (fun a => negb (SectionAnalysis.found a)) analyses)
     = length analyses)%nat.
Proof.
  induction analyses as [|a l IH]; cbn [filter]; [reflexivity|].
  destruct (SectionAnalysis.found a); cbn [negb length]; lia.
Qed.

(** X6. The overall summary of [generateAnalysis] is empty exactly when no
    key is requested; otherwise it has one line for the found sections (if
    any), one for the missing ones (if any) and at most one more per found
    section, so at most two lines more than there are requested keys. *)
Theorem overallSummary_size :
  forall sections requiredKeys,
    let result := generateAnalysis sections requiredKeys in
    (AnalysisResult.overallSummary result = [] <-> requiredKeys = [])
    /\ (length (AnalysisResult.overallSummary result)
        <= 2 + length requiredKeys)%nat.
Proof.
  intros sections requiredKeys result. subst result.
  unfold generateAnalysis. cbn [AnalysisResult.overallSummary].
  set (analyses := map (analyze_required_key sections) requiredKeys).
  assert (Hlen : length analyses = length requiredKeys)
    by apply length_map.
  unfold buildOverallSummary.
  set (found := filter SectionAnalysis.found analyses).
  set (missing := filter (fun a => negb (SectionAnalysis.found a)) analyses).
  assert (Hsplit : (length found + length missing = length analyses)%nat)
    by apply filter_found_split.
  set (tops := flat_map _ found).
  assert (Htops : (length tops <= length found)%nat).
  { subst tops. clear. induction found as [|a l IH]; cbn [flat_map];
      [apply Nat.le_refl|].
    rewrite length_app. destruct (SectionAnalysis.summary a);
      cbn [length]; lia. }
  split.
  - split.
    + intros H. destruct requiredKeys as [|k ks]; [reflexivity|].
      cbn [length] in Hlen. exfalso.
      destruct (0 <? length found)%nat eqn:Ef; [discriminate H|].
      destruct (0 <? length missing)%nat eqn:Em; [discriminate H|].
      apply Nat.ltb_ge in Ef. apply Nat.ltb_ge in Em. lia.
    + intros ->. reflexivity.
  - rewrite !length_app.
    destruct (0 <? length found)%nat; destruct (0 <? length missing)%nat;
      cbn [length]; lia.
Qed.


(* ------------------------------------------------------------------ *)
(** *** Locator: the extent of a section on the structured-markup path *)

Lemma first_pattern_some :
  forall hit ps pi k,
    first_pattern hit pi ps = Some k ->
    exists r, nth_error ps (k - pi) = Some r /\ hit r = true /\ (pi <= k)%nat.
Proof.
  intros hit ps; induction ps as [|r ps IH]; intros pi k H; [discriminate|].
  cbn [first_pattern] in H. destruct (hit r) eqn:E.
  - injection H as <-. exists r. rewrite Nat.sub_diag. auto.
  - apply IH in H. destruct H as (r' & Hn & Hh & Hle).
    exists r'. replace (k - pi)%nat with (S (k - S pi)) by lia.
    cbn [nth_error]. repeat split; auto. lia.
Qed.

Lemma first_pattern_none_iff :
  forall hit ps pi,
    first_pattern hit pi ps = None <-> existsb hit ps = false.
Proof.
  intros hit ps; induction ps as [|r ps IH]; intros pi; cbn; [tauto|].
  destruct (hit r); cbn; [split; discriminate | apply IH].
Qed.

(** The heading found by the first loop is the first heading candidate. *)
Lemma find_heading_some :
  forall ps divs i h pi,
    find_heading ps i divs = Some (h, pi) ->
    exists d,
      (i <= h)%nat
      /\ nth_error divs (h - i) = Some d
      /\ heading_candidate ps d = true
      /\ forall j d', (j < h - i)%nat -> nth_error divs j = Some d' ->
                      heading_candidate ps d' = false.
Proof.
  intros ps divs; induction divs as [|d divs IH]; intros i h pi H;
    [discriminate|].
  cbn [find_heading] in H. unfold heading_candidate.
  destruct ((150 <? length (block_text d)) || (length (block_text d) <? 3))
    eqn:Egate.
  - apply IH in H. destruct H as (d0 & Hle & Hn & Hc & Hmin).
    exists d0. replace (h - i)%nat with (S (h - S i)) by lia.
    cbn [nth_error]. repeat split; auto; [lia|].
    intros [|j] d' Hj Hd'.
    + injection Hd' as <-. now rewrite Egate.
    + apply (Hmin j d'); [lia | exact Hd'].
  - destruct (first_pattern (fun r => test r (block_text d)) 0 ps)
      as [k|] eqn:Ep.
    + injection H as <- <-. exists d. rewrite Nat.sub_diag.
      cbn [nth_error]. repeat split; auto.
      * rewrite Egate. cbn [negb andb].
        destruct (existsb (fun r => test r (block_text d)) ps) eqn:Ex;
          [reflexivity|].
        apply (first_pattern_none_iff _ ps 0) in Ex. congruence.
      * intros j d' Hj. lia.
    + apply IH in H. destruct H as (d0 & Hle & Hn & Hc & Hmin).
      exists d0. replace (h - i)%nat with (S (h - S i)) by lia.
      cbn [nth_error]. repeat split; auto; [lia|].
      intros [|j] d' Hj Hd'.
      * injection Hd' as <-. rewrite Egate. cbn [negb andb].
        now apply (first_pattern_none_iff _ ps 0).
      * apply (Hmin j d'); [lia | exact Hd'].
Qed.

(** The second loop collects the blocks up to the first block that ends the
    section. *)
Lemma collect_blocks_spec :
  forall divs i blocks e,
    collect_blocks i divs = (blocks, e) ->
    (i <= e <= i + length divs)%nat
    /\ blocks =
         filter (fun t => 2 <? length t)
                (map block_text (firstn (e - i) divs))
    /\ (forall d, In d (firstn (e - i) divs) -> ends_section d = false)
    /\ (forall d, nth_error divs (e - i) = Some d -> ends_section d = true).
Proof.
  induction divs as [|d divs IH]; intros i blocks e H.
  - cbn in H. injection H as <- <-. rewrite Nat.sub_diag.
    split; [cbn [length]; lia|]. split; [reflexivity|].
    split; [intros d []|]. intros d Hd. discriminate Hd.
  - cbn [collect_blocks] in H. fold (ends_section d) in H.
    destruct (ends_section d) eqn:Eend.
    + injection H as <- <-. rewrite Nat.sub_diag. cbn [firstn map filter].
      split; [cbn [length]; lia|]. split; [reflexivity|].
      split; [intros d' []|].
      intros d' Hd'. cbn [nth_error] in Hd'. now injection Hd' as <-.
    + destruct (collect_blocks (S i) divs) as [bs e'] eqn:Erest.
      injection H as <- <-.
      destruct (IH (S i) bs e' Erest) as (Hb & Hbs & Hno & Hend).
      replace (e' - i)%nat with (S (e' - S i)) by lia.
      cbn [firstn map filter length].
      split; [lia|]. split; [|split].
      * destruct (2 <? length (block_text d))%nat; now rewrite Hbs.
      * intros d' [<- | Hd']; [exact Eend | now apply Hno].
      * cbn [nth_error]. exact Hend.
Qed.

(** X7. A section found on the structured-markup path lies inside the
    document and has a heading of the right size: its start offset is the
    index of the first block whose white-space normalised text has between 3
    and 150 code units and matches a heading pattern of the section, and its
    end offset is greater than the start offset and at most the number of
    blocks. *)
Theorem html_section_offsets :
  forall bodyDivs pattern,
    let s := findSectionByDomSiblings bodyDivs pattern in
    SectionMatch.found s = true ->
    exists h d,
      SectionMatch.startOffset s = Z.of_nat h
      /\ nth_error bodyDivs h = Some d
      /\ heading_candidate (SectionPattern.headingPatterns pattern) d = true
      /\ (forall j d', (j < h)%nat -> nth_error bodyDivs j = Some d' ->
                       heading_candidate
                         (SectionPattern.headingPatterns pattern) d' = false)
      /\ (SectionMatch.startOffset s < SectionMatch.endOffset s
          <= Z.of_nat (length bodyDivs))%Z.
Proof.
  intros bodyDivs pattern s Hfound. subst s.
  unfold findSectionByDomSiblings in *.
  destruct (find_heading (SectionPattern.headingPatterns pattern) 0 bodyDivs)
    as [[h pi]|] eqn:Eh; [|discriminate].
  destruct (find_heading_some _ _ _ Eh) as (d & _ & Hn & Hc & Hmin).
  rewrite Nat.sub_0_r in Hn, Hmin.
  destruct (collect_blocks (S h) (skipn (S h) bodyDivs)) as [blocks e] eqn:Ec.
  destruct (collect_blocks_spec _ _ Ec) as (Hb & _).
  rewrite length_skipn in Hb.
  assert (h < length bodyDivs)%nat by (apply nth_error_Some; congruence).
  exists h, d. cbn [SectionMatch.startOffset SectionMatch.endOffset].
  split; [reflexivity|]. split; [exact Hn|]. split; [exact Hc|].
  split; [exact Hmin | lia].
Qed.

(** X8. The content of a section found on the structured-markup path is
    made of the blocks strictly between its start and end offsets, each
    normalised, those of more than 2 code units joined by line feeds; none
    of these blocks is a short numbered item heading, and the block at the
    end offset, when there is one, is such a heading.  So the content stops
    before the next item. *)
Theorem html_section_content :
  forall bodyDivs pattern,
    let s := findSectionByDomSiblings bodyDivs pattern in
    SectionMatch.found s = true ->
    exists h e between,
      SectionMatch.startOffset s = Z.of_nat h
      /\ SectionMatch.endOffset s = Z.of_nat e
      /\ between = firstn (e - S h) (skipn (S h) bodyDivs)
      /\ SectionMatch.content s =
           join [10%N]
             (filter (fun t => 2 <? length t) (map block_text between))
      /\ (forall d, In d between -> ends_section d = false)
      /\ (forall d, nth_error bodyDivs e = Some d -> ends_section d = true).
Proof.
  intros bodyDivs pattern s Hfound. subst s.
  unfold findSectionByDomSiblings in *.
  destruct (find_heading (SectionPattern.headingPatterns pattern) 0 bodyDivs)
    as [[h pi]|] eqn:Eh; [|discriminate].
  destruct (collect_blocks (S h) (skipn (S h) bodyDivs)) as [blocks e] eqn:Ec.
  destruct (collect_blocks_spec _ _ Ec) as (Hb & Hblocks & Hno & Hend).
  exists h, e, (firstn (e - S h) (skipn (S h) bodyDivs)).
  cbn [SectionMatch.startOffset SectionMatch.endOffset SectionMatch.content].
  split; [reflexivity|]. split; [reflexivity|]. split; [reflexivity|].
  split; [now rewrite Hblocks|]. split; [exact Hno|].
  intros d Hd. apply Hend. rewrite nth_error_skipn.
  replace (S h + (e - S h))%nat with e by lia. exact Hd.
Qed.


(* ------------------------------------------------------------------ *)
(** *** Facts about strings *)

Lemma trimStart_length : forall s, (length (trimStart s) <= length s)%nat.
Proof.
  induction s as [|c s IH]; cbn [trimStart]; [apply Nat.le_refl|].
  destruct (is_space c); cbn [length]; lia.
Qed.

Lemma trim_length : forall s, (length (trim s) <= length s)%nat.
Proof.
  intros s. unfold trim, trimEnd. rewrite length_rev.
  etransitivity; [apply trimStart_length|]. rewrite length_rev.
  apply trimStart_length.
Qed.

Lemma split_on_nonempty : forall sep s, split_on sep s <> [].
Proof.
  intros sep s; destruct s as [|c s]; cbn [split_on]; [discriminate|].
  destruct (c =? sep)%N; [discriminate|].
  destruct (split_on sep s); discriminate.
Qed.

Lemma join_cons :
  forall sep p q ps,
    join sep (p :: q :: ps) = p ++ sep ++ join sep (q :: ps).
Proof. reflexivity. Qed.

(** Joining the pieces of a split gives the string back. *)
Lemma join_split_on :
  forall sep s, join [sep] (split_on sep s) = s.
Proof.
  intros sep s; induction s as [|c s IH]; cbn [split_on]; [reflexivity|].
  destruct (split_on sep s) as [|l ls] eqn:Es;
    [now apply split_on_nonempty in Es|].
  destruct (c =? sep)%N eqn:E.
  - apply N.eqb_eq in E. subst c. rewrite join_cons, IH. reflexivity.
  - destruct ls as [|l' ls].
    + cbn [join] in *. now rewrite IH.
    + rewrite join_cons in *. rewrite <- IH. reflexivity.
Qed.

Lemma join_cons_length :
  forall sep p ps,
    (length p <= length (join sep (p :: ps)))%nat.
Proof.
  intros sep p [|q ps]; cbn [join]; [apply Nat.le_refl|].
  rewrite length_app. lia.
Qed.

Lemma join_firstn_length :
  forall sep n parts,
    (length (join sep (firstn n parts)) <= length (join sep parts))%nat.
Proof.
  intros sep n; induction n as [|n IH]; intros parts.
  - cbn. lia.
  - destruct parts as [|p ps]; [apply Nat.le_refl|].
    cbn [firstn]. destruct ps as [|q ps].
    + destruct n; apply Nat.le_refl.
    + specialize (IH (q :: ps)).
      destruct n as [|n].
      * cbn [firstn join]. rewrite length_app. lia.
      * cbn [firstn] in *. cbn [join] in *.
        rewrite !length_app. lia.
Qed.

Lemma exec_from_bounds :
  forall r s fuel i k,
    exec_from r s fuel i = Some k -> (i <= k <= i + fuel)%nat.
Proof.
  intros r s fuel; induction fuel as [|f IH]; intros i k H;
    cbn [exec_from] in H.
  - destruct (match_at r s i); [injection H as <-; lia | discriminate].
  - destruct (match_at r s i); [injection H as <-; lia|].
    apply IH in H. lia.
Qed.

Lemma extractTextSection_length :
  forall text startOffset,
    (length (extractTextSection text startOffset)
     <= length text - startOffset)%nat.
Proof.
  intros text startOffset. unfold extractTextSection.
  set (lines := split_on 10 (skipn startOffset text)).
  set (sectionLines := match find_end 3 (skipn 3 lines) with
                       | Some endIdx => firstn endIdx lines
                       | None => firstn 800 lines
                       end).
  assert (Hjoin : (length (join [10%N] sectionLines)
                   <= length text - startOffset)%nat).
  { rewrite <- length_skipn.
    rewrite <- (join_split_on 10 (skipn startOffset text)).
    fold lines. subst sectionLines.
    destruct (find_end 3 (skipn 3 lines)); apply join_firstn_length. }
  assert (Htrim := trim_length (join [10%N] sectionLines)).
  destruct (MAX_SECTION_CHARS <? _)%N.
  - rewrite length_firstn. lia.
  - lia.
Qed.

(** X9. A section found on the flat-text path lies inside the text: its
    start offset is a position of the text, its end offset is not before the
    start and not beyond the end of the text, and its content is not longer
    than the text that follows the start. *)
Theorem text_section_offsets :
  forall text s,
    In s (locateInText text) ->
    SectionMatch.found s = true ->
    (0 <= SectionMatch.startOffset s <= SectionMatch.endOffset s)%Z
    /\ (SectionMatch.endOffset s <= Z.of_nat (length text))%Z
    /\ (Z.of_nat (SectionMatch.lengthChars s)
        <= Z.of_nat (length text) - SectionMatch.startOffset s)%Z.
Proof.
  intros text s Hin Hfound. unfold locateInText in Hin.
  apply in_map_iff in Hin. destruct Hin as (p & Hs & _).
  destruct (locate_pattern_in_text_cases (SectionPattern.key p) text
              (SectionPattern.headingPatterns p) 0)
    as [[E _] | (_ & _ & _ & r & st & _ & He & Hst & Hcontent & Hlen & Hend)];
    rewrite Hs in *.
  - rewrite E in Hfound. discriminate.
  - unfold exec in He. apply exec_from_bounds in He.
    assert (Hl := extractTextSection_length text st).
    rewrite <- Hcontent in Hl.
    rewrite Hend, Hst, Hlen. lia.
Qed.


(* ------------------------------------------------------------------ *)
(** *** Ledger builder: its maps and its two lists *)

Lemma obj_get_set :
  forall (A : Type) (k k' : jsstring) (v : A) o,
    obj_get k (obj_set k' v o) =
    if str_eqb k k' then Some v else obj_get k o.
Proof.
  intros A k k' v o; induction o as [|[k2 v2] o IH]; cbn [obj_set obj_get].
  - reflexivity.
  - destruct (str_eqb k' k2) eqn:E2; cbn [obj_get].
    + apply str_eqb_eq in E2. subst k2.
      destruct (str_eqb k k'); reflexivity.
    + rewrite IH. destruct (str_eqb k k2) eqn:E; [|reflexivity].
      apply str_eqb_eq in E. subst k2.
      destruct (str_eqb k k') eqn:E'; [|reflexivity].
      apply str_eqb_eq in E'. subst k'.
      assert (str_eqb k k = true) by now apply str_eqb_eq. congruence.
Qed.

Lemma find_app_last :
  forall (A : Type) (p : A -> bool) l x,
    find p (l ++ [x]) =
    match find p l with
    | Some y => Some y
    | None => if p x then Some x else None
    end.
Proof.
  intros A p l x; induction l as [|y l IH]; cbn [app find]; [reflexivity|].
  destruct (p y); [reflexivity | exact IH].
Qed.

(** An object filled by a loop of assignments holds, for every key, the
    value of the last assignment to it. *)
Lemma obj_fill_get :
  forall (A B : Type) (key : A -> jsstring) (val : A -> B) l o k,
    obj_get k (fold_left (fun o x => obj_set (key x) (val x) o) l o) =
    match find_last (fun x => str_eqb k (key x)) l with
    | Some x => Some (val x)
    | None => obj_get k o
    end.
Proof.
  intros A B key val l; unfold find_last.
  induction l as [|x l IH]; intros o k; cbn [fold_left rev];
    [reflexivity|].
  rewrite IH, find_app_last, obj_get_set.
  destruct (find (fun x0 => str_eqb k (key x0)) (rev l)); [reflexivity|].
  destruct (str_eqb k (key x)); reflexivity.
Qed.

Lemma ledger_fold_durations :
  forall results d e sk,
    fst (fst (fold_left ledger_step results (d, e, sk))) =
    fold_left (fun o r => obj_set (StepName_str (StepResult.name r))
                            (StepResult.durationMs r) o) results d.
Proof.
  induction results as [|res results IH]; intros d e sk; [reflexivity|].
  cbn [fold_left]. unfold ledger_step at 2.
  destruct (StepResult.status res); try apply IH.
  destruct (negb (existsb (StepName_eqb (StepResult.name res)) sk));
    apply IH.
Qed.

Lemma StepName_str_inj :
  forall a b, StepName_str a = StepName_str b -> a = b.
Proof.
  intros a b H; destruct a, b; try reflexivity; vm_compute in H;
    discriminate H.
Qed.

(** X10. The two maps of the ledger hold the last write for every key:
    [durationsMs] gives, for a step name, the duration of the last step
    result with that name (and nothing for a name without result), and
    [sectionValidation] gives, for a section name, the found flag,
    confidence and length of the last section with that name. *)
Theorem buildLedger_maps :
  forall now ctx plan passed failureReason,
    let ledger := buildLedger now ctx plan passed failureReason in
    (forall n,
        obj_get (StepName_str n) (AuditLedger.durationsMs ledger) =
        option_map StepResult.durationMs
          (find_last (fun r => StepName_eqb n (StepResult.name r))
                     (WorkflowContext.stepResults ctx)))
    /\ (forall name,
           obj_get name (AuditLedger.sectionValidation ledger) =
           option_map
             (fun s => SectionValidationEntry.mk (SectionMatch.found s)
                         (SectionMatch.confidence s)
                         (SectionMatch.lengthChars s))
             (find_last (fun s => str_eqb name (SectionMatch.name s))
                        (WorkflowContext.sections ctx))).
Proof.
  intros now ctx plan p r ledger. subst ledger. unfold buildLedger.
  assert (Hd := ledger_fold_durations (WorkflowContext.stepResults ctx)
                  [] [] (WorkflowPlan.skippedSteps plan)).
  destruct (fold_left ledger_step (WorkflowContext.stepResults ctx)
              ([], [], WorkflowPlan.skippedSteps plan)) as [[d e] sk].
  cbn [fst] in Hd. subst d.
  cbn [AuditLedger.durationsMs AuditLedger.sectionValidation]. split.
  - intros n.
    rewrite (obj_fill_get (fun r => StepName_str (StepResult.name r))
               StepResult.durationMs).
    cbn [obj_get]. unfold find_last.
    assert (Hp : forall l,
      find (fun x => str_eqb (StepName_str n)
                       (StepName_str (StepResult.name x))) l =
      find (fun x => StepName_eqb n (StepResult.name x)) l).
    { intros l. induction l as [|x l IH]; cbn [find]; [reflexivity|].
      rewrite IH. unfold StepName_eqb.
      destruct (StepName_eq_dec n (StepResult.name x)) as [->|Hne].
      - assert (E : str_eqb (StepName_str (StepResult.name x))
                      (StepName_str (StepResult.name x)) = true)
          by now apply str_eqb_eq.
        now rewrite E.
      - destruct (str_eqb (StepName_str n)
                    (StepName_str (StepResult.name x))) eqn:E;
          [|reflexivity].
        apply str_eqb_eq, StepName_str_inj in E. contradiction. }
    rewrite Hp. destruct (find _ _); reflexivity.
  - intros name.
    rewrite (obj_fill_get SectionMatch.name
               (fun s => SectionValidationEntry.mk (SectionMatch.found s)
                           (SectionMatch.confidence s)
                           (SectionMatch.lengthChars s))).
    cbn [obj_get]. destruct (find_last _ _); reflexivity.
Qed.

Lemma ledger_fold_executed :
  forall results d e sk,
    snd (fst (fold_left ledger_step results (d, e, sk))) =
    e ++ executed_names results.
Proof.
  unfold executed_names.
  induction results as [|res results IH]; intros d e sk.
  - cbn. now rewrite app_nil_r.
  - cbn [fold_left filter]. unfold ledger_step at 2.
    destruct (StepResult.status res); try apply IH.
    + rewrite IH. cbn [map]. now rewrite <- app_assoc.
    + rewrite IH. cbn [map]. now rewrite <- app_assoc.
    + destruct (negb (existsb (StepName_eqb (StepResult.name res)) sk));
        apply IH.
Qed.

(** What the loop over the step results adds to the skip list, from any
    state of the accumulators. *)
Lemma ledger_fold_skipped :
  forall results d e sk,
    exists extra,
      snd (fold_left ledger_step results (d, e, sk)) = sk ++ extra
      /\ NoDup extra
      /\ (forall n, In n extra ->
            ~ In n sk
            /\ exists res, In res results
                           /\ StepResult.name res = n
                           /\ StepResult.status res = skipped)
      /\ (forall res, In res results ->
            StepResult.status res = skipped ->
            In (StepResult.name res) (sk ++ extra)).
Proof.
  induction results as [|res results IH]; intros d e sk.
  - exists []. cbn. rewrite !app_nil_r.
    split; [reflexivity|]. split; [constructor|].
    split; [intros n [] | intros res []].
  - cbn [fold_left]. unfold ledger_step at 2.
    set (d1 := obj_set (StepName_str (StepResult.name res))
                 (StepResult.durationMs res) d).
    assert (Hkeep : forall e1,
      StepResult.status res <> skipped
      \/ In (StepResult.name res) sk ->
      exists extra,
        snd (fold_left ledger_step results (d1, e1, sk)) = sk ++ extra
        /\ NoDup extra
        /\ (forall n, In n extra ->
              ~ In n sk
              /\ exists r0, In r0 (res :: results)
                            /\ StepResult.name r0 = n
                            /\ StepResult.status r0 = skipped)
        /\ (forall r0, In r0 (res :: results) ->
              StepResult.status r0 = skipped ->
              In (StepResult.name r0) (sk ++ extra))).
    { intros e1 Hst.
      destruct (IH d1 e1 sk) as (extra & Hf & Hnd & Hex & Hall).
      exists extra. split; [exact Hf|]. split; [exact Hnd|]. split.
      - intros n Hn. destruct (Hex n Hn) as (Hnot & r0 & Hr0 & Hrest).
        split; [exact Hnot|]. exists r0. split; [now right | exact Hrest].
      - intros r0 [<- | Hr0] Hs; [|now apply Hall].
        destruct Hst as [Hst | Hst]; [contradiction|].
        apply in_or_app. now left. }
    destruct (StepResult.status res) eqn:Est;
      try (apply Hkeep; left; discriminate).
    destruct (existsb (StepName_eqb (StepResult.name res)) sk) eqn:Ein;
      cbn [negb].
    + apply Hkeep. right. now apply existsb_StepName_In.
    + clear Hkeep.
      assert (Hnot : ~ In (StepResult.name res) sk).
      { intros C. apply existsb_StepName_In in C. congruence. }
      destruct (IH d1 e (sk ++ [StepResult.name res]))
        as (extra & Hf & Hnd & Hex & Hall).
      exists (StepResult.name res :: extra). rewrite Hf.
      split; [now rewrite <- app_assoc|]. split; [|split].
      * constructor; [|exact Hnd].
        intros C. destruct (Hex _ C) as [Hc _].
        apply Hc. apply in_or_app. right. now left.
      * intros n [<- | Hn].
        -- split; [exact Hnot|]. exists res.
           split; [now left | auto].
        -- destruct (Hex n Hn) as (Hc & r0 & Hr0 & Hrest). split.
           ++ intros C. apply Hc. apply in_or_app. now left.
           ++ exists r0. split; [now right | exact Hrest].
      * intros r0 [<- | Hr0] Hs.
        -- apply in_or_app. right. now left.
        -- specialize (Hall r0 Hr0 Hs). rewrite <- app_assoc in Hall.
           exact Hall.
Qed.

(** X11. For any step results and any plan, the skip list of the ledger
    starts with the skip list of the plan and goes on with the names of the
    skipped results that are not yet in it, each once; it contains the name
    of every skipped result; and it names no step twice when the skip list
    of the plan does not.  The executed list is the list of the names of
    the passed and failed results, in their order. *)
Theorem buildLedger_lists_general :
  forall now ctx plan passed failureReason,
    let ledger := buildLedger now ctx plan passed failureReason in
    AuditLedger.executedSteps ledger =
      executed_names (WorkflowContext.stepResults ctx)
    /\ (exists extra,
           AuditLedger.skippedSteps ledger =
             WorkflowPlan.skippedSteps plan ++ extra
           /\ forall n, In n extra ->
                exists res, In res (WorkflowContext.stepResults ctx)
                            /\ StepResult.name res = n
                            /\ StepResult.status res = skipped)
    /\ (forall res, In res (WorkflowContext.stepResults ctx) ->
          StepResult.status res = skipped ->
          In (StepResult.name res) (AuditLedger.skippedSteps ledger))
    /\ (NoDup (WorkflowPlan.skippedSteps plan) ->
        NoDup (AuditLedger.skippedSteps ledger)).
Proof.
  intros now ctx plan p r ledger. subst ledger. unfold buildLedger.
  assert (He := ledger_fold_executed (WorkflowContext.stepResults ctx) [] []
                  (WorkflowPlan.skippedSteps plan)).
  destruct (ledger_fold_skipped (WorkflowContext.stepResults ctx) [] []
              (WorkflowPlan.skippedSteps plan))
    as (extra & Hs & Hnd & Hex & Hall).
  destruct (fold_left ledger_step (WorkflowContext.stepResults ctx)
              ([], [], WorkflowPlan.skippedSteps plan)) as [[d e] sk].
  cbn [fst snd app] in He, Hs. subst e sk.
  cbn [AuditLedger.executedSteps AuditLedger.skippedSteps].
  split; [reflexivity|]. split; [|split; [exact Hall|]].
  - exists extra. split; [reflexivity|].
    intros n Hn. now destruct (Hex n Hn).
  - intros Hplan. apply NoDup_app; auto.
    intros n Hn C. destruct (Hex n C) as [Hnot _]. contradiction.
Qed.


(* ------------------------------------------------------------------ *)
(** *** Orchestrator: what a run writes and when it stops *)

(** How the loop ends, for any steps whatever their work does. *)
Lemma runSteps_outputs :
  forall now elapsed options plan steps k ctx,
    let run := runSteps now elapsed options plan k steps ctx in
    (RunResult.exitCode run = None
     /\ RunResult.files run =
          emitOutputs now (RunResult.ctx run) plan true None)
    \/ (RunResult.exitCode run = Some 2%Z
        /\ AnalyzeOptions.mode options = command
        /\ exists message,
             RunResult.files run =
               emitOutputs now (RunResult.ctx run) plan false (Some message)).
Proof.
  intros now elapsed options plan steps.
  induction steps as [|step rest IH]; intros k ctx; cbn [runSteps].
  - left. split; reflexivity.
  - destruct (existsb (StepName_eqb (WorkflowStep.name step))
                (WorkflowPlan.skippedSteps plan)); [apply IH|].
    destruct (WorkflowStep.execute step ctx) as [ctx1 [message|]];
      [|apply IH].
    destruct (InvocationMode_eqb (AnalyzeOptions.mode options) command
              && WorkflowStep.required step) eqn:E; [|apply IH].
    right. apply andb_true_iff in E. destruct E as [Em _].
    split; [reflexivity|]. split.
    + destruct (AnalyzeOptions.mode options); [reflexivity | discriminate].
    + exists message. reflexivity.
Qed.

(** X12. A run writes its analysis exactly when it passes: a run that is
    not cut short writes the ledger, with passed=true and no failure reason,
    and then the analysis built from the final context; a run cut short
    writes the ledger alone, with passed=false and a failure reason, and
    this happens in command mode only. *)
Theorem runWorkflow_outputs :
  forall now elapsed options intentPlan,
    let run := runWorkflow now elapsed options intentPlan in
    (RunResult.exitCode run = None
     /\ exists dir ledgerName ledger analysisName,
          RunResult.files run =
            [LedgerFile dir ledgerName ledger;
             AnalysisFile dir analysisName
               (buildAnalysisOutput (RunResult.ctx run))]
          /\ AuditLedger.passed ledger = true
          /\ AuditLedger.failureReason ledger = None)
    \/ (RunResult.exitCode run = Some 2%Z
        /\ AnalyzeOptions.mode options = command
        /\ exists dir ledgerName ledger message,
             RunResult.files run = [LedgerFile dir ledgerName ledger]
             /\ AuditLedger.passed ledger = false
             /\ AuditLedger.failureReason ledger = Some message).
Proof.
  intros now elapsed options intentPlan run. subst run. unfold runWorkflow.
  set (plan := match intentPlan with
               | Some p => p
               | None => buildWorkflow options
               end).
  destruct (runSteps_outputs now elapsed options plan
              (WorkflowPlan.steps plan) 0 (initial_context options))
    as [[He Hf] | (He & Hm & message & Hf)].
  - left. split; [exact He|]. rewrite Hf. unfold emitOutputs.
    do 4 eexists. split; [reflexivity|].
    destruct (buildLedger_verdict now
                (RunResult.ctx (runSteps now elapsed options plan 0
                                  (WorkflowPlan.steps plan)
                                  (initial_context options)))
                plan true None) as (_ & Hp & Hr).
    auto.
  - right. split; [exact He|]. split; [exact Hm|]. rewrite Hf.
    unfold emitOutputs. do 3 eexists. exists message.
    split; [reflexivity|].
    destruct (buildLedger_verdict now
                (RunResult.ctx (runSteps now elapsed options plan 0
                                  (WorkflowPlan.steps plan)
                                  (initial_context options)))
                plan false (Some message)) as (_ & Hp & Hr).
    auto.
Qed.



Lemma recorded_no_skip :
  forall steps results,
    Forall2 (recorded []) steps results ->
    map StepResult.name results = map WorkflowStep.name steps
    /\ Forall (fun res => StepResult.status res = passed
                          \/ StepResult.status res = failed) results.
Proof.
  intros steps results H; induction H as [|st res steps results [Hn Hs] _ [IH1 IH2]].
  - split; [reflexivity | constructor].
  - cbn [map existsb] in *. split; [now rewrite Hn, IH1|].
    constructor; assumption.
Qed.

Lemma executed_names_all :
  forall results,
    Forall (fun res => StepResult.status res = passed
                       \/ StepResult.status res = failed) results ->
    executed_names results = map StepResult.name results.
Proof.
  unfold executed_names. induction 1 as [|res results [H | H] _ IH];
    cbn [filter map]; [reflexivity | |]; rewrite H; cbn [map];
    now rewrite IH.
Qed.

Lemma buildWorkflow_keeps_options :
  forall options,
    Forall keeps_options (WorkflowPlan.steps (buildWorkflow options)).
Proof.
  intros options. unfold buildWorkflow. cbn [WorkflowPlan.steps].
  repeat apply Forall_cons; try apply Forall_nil; intros ctx;
    cbn [WorkflowStep.execute];
    unfold execute_fetch, execute_extract, execute_locate, execute_validate,
      execute_generate, execute_emit_ledger.
  - destruct (fetchFiling (WorkflowContext.options ctx)) as [[c kd]|m];
      reflexivity.
  - destruct (extractText (WorkflowContext.rawContent ctx)
                (WorkflowContext.contentType ctx)) as [t|m]; [|reflexivity].
    destruct (length t <? 1000)%nat; reflexivity.
  - reflexivity.
  - destruct (validateSections _ _ _ _); reflexivity.
  - reflexivity.
  - reflexivity.
Qed.

Lemma runSteps_options :
  forall now elapsed options plan steps k ctx,
    Forall keeps_options steps ->
    WorkflowContext.options
      (RunResult.ctx (runSteps now elapsed options plan k steps ctx)) =
    WorkflowContext.options ctx.
Proof.
  intros now elapsed options plan steps.
  induction steps as [|step rest IH]; intros k ctx Hkeep; cbn [runSteps];
    [reflexivity|].
  inversion Hkeep as [|? ? Hstep Hrest]; subst.
  destruct (existsb (StepName_eqb (WorkflowStep.name step))
              (WorkflowPlan.skippedSteps plan)); [now rewrite IH|].
  specialize (Hstep ctx).
  destruct (WorkflowStep.execute step ctx) as [ctx1 [message|]];
    cbn [fst] in Hstep.
  - destruct (InvocationMode_eqb (AnalyzeOptions.mode options) command
              && WorkflowStep.required step); [exact Hstep|].
    now rewrite IH.
  - now rewrite IH.
Qed.

(** The run of the planner's own plan in command mode: the results answer a
    prefix of the six steps, none is skipped, and a failed result is the
    last one. *)
Lemma command_run_results :
  forall now elapsed options,
    AnalyzeOptions.mode options = command ->
    let run := runWorkflow now elapsed options None in
    let results := WorkflowContext.stepResults (RunResult.ctx run) in
    map StepResult.name results = firstn (length results) ALL_REQUIRED_STEPS
    /\ Forall (fun res => StepResult.status res = passed
                          \/ StepResult.status res = failed) results
    /\ (forall i res,
           nth_error results i = Some res ->
           StepResult.status res = failed ->
           S i = length results)
    /\ ((RunResult.exitCode run = None
         /\ length results = 6%nat
         /\ Forall (fun res => StepResult.status res = passed) results
         /\ ledgers (RunResult.files run) =
              [buildLedger now (RunResult.ctx run) (buildWorkflow options)
                 true None])
        \/ (RunResult.exitCode run = Some 2%Z
            /\ exists pre res message,
                 results = pre ++ [res]
                 /\ (length pre < 6)%nat
                 /\ StepResult.status res = failed
                 /\ StepResult.error res = Some message
                 /\ ledgers (RunResult.files run) =
                      [buildLedger now (RunResult.ctx run)
                         (buildWorkflow options) false (Some message)])).
Proof.
  intros now elapsed options Hmode run results.
  destruct (@runSteps_spec now elapsed options (buildWorkflow options)
              (WorkflowPlan.steps (buildWorkflow options)) 0
              (initial_context options)
              (buildWorkflow_keeps_stepResults options))
    as (rs & Hres & Hrec & Hend & Hlast).
  change (runSteps now elapsed options (buildWorkflow options) 0
            (WorkflowPlan.steps (buildWorkflow options))
            (initial_context options)) with run in *.
  cbn [initial_context WorkflowContext.stepResults app] in Hres.
  fold results in Hres. subst rs.
  assert (Hsteps : map WorkflowStep.name
                     (WorkflowPlan.steps (buildWorkflow options)) =
                   ALL_REQUIRED_STEPS) by reflexivity.
  assert (Hsix : length (WorkflowPlan.steps (buildWorkflow options)) = 6%nat)
    by reflexivity.
  assert (Henf : forall step,
    In step (WorkflowPlan.steps (buildWorkflow options)) ->
    enforced options step = true).
  { unfold enforced, buildWorkflow. rewrite Hmode.
    cbn [WorkflowPlan.steps InvocationMode_eqb andb In].
    intros step Hs.
    repeat (destruct Hs as [<- | Hs]; [reflexivity|]). destruct Hs. }
  assert (Hskip : WorkflowPlan.skippedSteps (buildWorkflow options) = [])
    by reflexivity.
  rewrite Hskip in Hrec.
  destruct (recorded_no_skip Hrec) as [Hnames Hstatus].
  assert (Hlast' : forall i res,
            nth_error results i = Some res ->
            StepResult.status res = failed ->
            S i = length results /\ RunResult.exitCode run = Some 2%Z).
  { intros i res Hi Hf.
    assert (Hlt : (i < length results)%nat)
      by (apply nth_error_Some; congruence).
    assert (Hle : (length results <= 6)%nat).
    { apply Forall2_length in Hrec. rewrite length_firstn, Hsix in Hrec.
      lia. }
    destruct (nth_error (WorkflowPlan.steps (buildWorkflow options)) i)
      as [step|] eqn:Es.
    - apply (Hlast i step res Es Hi Hf). apply Henf.
      now apply nth_error_In in Es.
    - apply nth_error_None in Es. rewrite Hsix in Es. lia. }
  split; [now rewrite Hnames, <- firstn_map, Hsteps|].
  split; [exact Hstatus|]. split; [intros i res Hi Hf;
                                   now destruct (Hlast' i res Hi Hf)|].
  destruct Hend
    as [(He & Hl & Hf)
       | (He & pre & st & res & m & Hp & Hn & _ & Hst & Herr & Hf)].
  - left. split; [exact He|]. split; [now rewrite Hl|]. split.
    + apply Forall_forall. intros res Hin.
      rewrite Forall_forall in Hstatus.
      destruct (Hstatus res Hin) as [Hpass | Hfail]; [exact Hpass|].
      apply In_nth_error in Hin. destruct Hin as [i Hi].
      destruct (Hlast' i res Hi Hfail) as [_ He']. congruence.
    + now rewrite Hf, emitOutputs_ledgers.
  - right. split; [exact He|]. exists pre, res, m.
    split; [exact Hp|]. split.
    + assert (Hlt : (length pre < length
                       (WorkflowPlan.steps (buildWorkflow options)))%nat)
        by (apply nth_error_Some; congruence).
      now rewrite Hsix in Hlt.
    + repeat split; auto. now rewrite Hf, emitOutputs_ledgers.
Qed.

Lemma command_run_ledger_lists :
  forall now elapsed options passed failureReason,
    AnalyzeOptions.mode options = command ->
    let run := runWorkflow now elapsed options None in
    let ledger := buildLedger now (RunResult.ctx run) (buildWorkflow options)
                    passed failureReason in
    AuditLedger.executedSteps ledger =
      firstn (length (WorkflowContext.stepResults (RunResult.ctx run)))
             ALL_REQUIRED_STEPS
    /\ AuditLedger.skippedSteps ledger = []
    /\ AuditLedger.deterministic ledger = true
    /\ AuditLedger.requiredSteps ledger = ALL_REQUIRED_STEPS.
Proof.
  intros now elapsed options p r Hmode run ledger.
  destruct (command_run_results now elapsed options Hmode)
    as (Hnames & Hstatus & _).
  change (runWorkflow now elapsed options None) with run in Hnames, Hstatus.
  assert (Hnoskip : forall res,
            In res (WorkflowContext.stepResults (RunResult.ctx run)) ->
            StepResult.status res = skipped ->
            In (StepResult.name res)
               (WorkflowPlan.skippedSteps (buildWorkflow options))).
  { intros res Hin Hs. rewrite Forall_forall in Hstatus.
    destruct (Hstatus res Hin); congruence. }
  destruct (buildLedger_lists now (RunResult.ctx run) (buildWorkflow options)
              p r Hnoskip) as [He Hs].
  fold ledger in He, Hs.
  split; [now rewrite He, executed_names_all, Hnames|].
  split; [exact Hs|].
  assert (Hopt : WorkflowContext.options (RunResult.ctx run) = options).
  { unfold run, runWorkflow.
    rewrite runSteps_options by apply buildWorkflow_keeps_options.
    reflexivity. }
  subst ledger. unfold buildLedger.
  destruct (fold_left ledger_step _ _) as [[d e] sk].
  cbn [AuditLedger.deterministic AuditLedger.requiredSteps].
  rewrite Hopt, Hmode. split; reflexivity.
Qed.

(** X14. In command mode with the plan of the planner, a run that is not
    cut short has passed every one of the six steps, and its ledger shows
    full coverage: executedSteps equals requiredSteps, skippedSteps is
    empty, deterministic and passed are true. *)
Theorem command_run_full_coverage :
  forall now elapsed options,
    AnalyzeOptions.mode options = command ->
    let run := runWorkflow now elapsed options None in
    RunResult.exitCode run = None ->
    Forall (fun res => StepResult.status res = passed)
           (WorkflowContext.stepResults (RunResult.ctx run))
    /\ exists ledger,
         ledgers (RunResult.files run) = [ledger]
         /\ AuditLedger.executedSteps ledger =
              AuditLedger.requiredSteps ledger
         /\ AuditLedger.skippedSteps ledger = []
         /\ AuditLedger.deterministic ledger = true
         /\ AuditLedger.passed ledger = true.
Proof.
  intros now elapsed options Hmode run Hexit. subst run.
  destruct (command_run_results now elapsed options Hmode)
    as (_ & _ & _ & [(_ & Hl & Hpassed & Hf) | (He & _)]); [|congruence].
  split; [exact Hpassed|].
  destruct (command_run_ledger_lists now elapsed options true None Hmode)
    as (He & Hs & Hd & Hr).
  eexists. split; [exact Hf|].
  rewrite He, Hs, Hd, Hr, Hl. repeat split.
  now destruct (buildLedger_verdict now
                  (RunResult.ctx (runWorkflow now elapsed options None))
                  (buildWorkflow options) true None) as (_ & Hp & _).
Qed.

(** X15. In command mode with the plan of the planner, a run that is cut
    short stops at the first failure: every result before the last is
    passed, the last is failed, and the ledger lists as executed the steps
    of the universe up to and including the failed one, lists no skipped
    step, and carries the error of the failed step as failure reason. *)
Theorem command_run_halts_at_first_failure :
  forall now elapsed options,
    AnalyzeOptions.mode options = command ->
    let run := runWorkflow now elapsed options None in
    RunResult.exitCode run = Some 2%Z ->
    exists pre res ledger,
      WorkflowContext.stepResults (RunResult.ctx run) = pre ++ [res]
      /\ (length pre < 6)%nat
      /\ Forall (fun r => StepResult.status r = passed) pre
      /\ StepResult.status res = failed
      /\ ledgers (RunResult.files run) = [ledger]
      /\ AuditLedger.executedSteps ledger =
           firstn (S (length pre)) ALL_REQUIRED_STEPS
      /\ AuditLedger.skippedSteps ledger = []
      /\ AuditLedger.passed ledger = false
      /\ AuditLedger.failureReason ledger = StepResult.error res
      /\ AuditLedger.failureReason ledger <> None.
Proof.
  intros now elapsed options Hmode run Hexit. subst run.
  destruct (command_run_results now elapsed options Hmode)
    as (_ & Hstatus & Hlast
        & [(He & _) | (_ & pre & res & m & Hp & Hlt & Hst & Herr & Hf)]);
    [congruence|].
  destruct (command_run_ledger_lists now elapsed options false (Some m)
              Hmode) as (He & Hs & _).
  destruct (buildLedger_verdict now
              (RunResult.ctx (runWorkflow now elapsed options None))
              (buildWorkflow options) false (Some m)) as (_ & Hpf & Hr).
  exists pre, res,
    (buildLedger now (RunResult.ctx (runWorkflow now elapsed options None))
       (buildWorkflow options) false (Some m)).
  split; [exact Hp|]. split; [exact Hlt|]. split.
  - apply Forall_forall. intros r Hin.
    rewrite Hp in Hstatus, Hlast. rewrite Forall_forall in Hstatus.
    destruct (Hstatus r (in_or_app _ _ _ (or_introl Hin)))
      as [Hpass | Hfail]; [exact Hpass|].
    apply In_nth_error in Hin. destruct Hin as [i Hi].
    assert (Hlti : (i < length pre)%nat)
      by (apply nth_error_Some; congruence).
    assert (Hi' : nth_error (pre ++ [res]) i = Some r)
      by (rewrite nth_error_app1; assumption).
    specialize (Hlast i r Hi' Hfail). rewrite length_app in Hlast.
    cbn [length] in Hlast. lia.
  - split; [exact Hst|]. split; [exact Hf|].
    rewrite He, Hs, Hp, length_app, Hpf, Hr, Herr. cbn [length].
    replace (length pre + 1)%nat with (S (length pre)) by lia.
    repeat split. discriminate.
Qed.


(* ================================================================== *)
(** ** The intent router *)
(* ================================================================== *)

(** X16. Whatever [Math.random] returns, the heuristic router skips only
    validate, locate_sections and generate, never fetch, extract or
    emit_ledger; it names no step twice; validate is skipped exactly when
    the first draw is below 0.5; and locate_sections is skipped only for a
    vague intent. *)
Theorem computeProbabilisticSkips_range :
  forall random signals,
    let skips := computeProbabilisticSkips random signals in
    NoDup skips
    /\ (forall n, In n skips ->
          n = validate \/ n = locate_sections \/ n = generate)
    /\ (In validate skips <-> (random 0%nat < 5 # 10)%Q)
    /\ (In locate_sections skips -> IntentSignals.isVague signals = true).
Proof.
  intros random signals skips. subst skips.
  unfold computeProbabilisticSkips.
  rewrite <- Qltb_lt.
  destruct (Qltb (random 0%nat) (5 # 10));
    destruct (IntentSignals.isVague signals);
    destruct (Qltb (random 1%nat) (4 # 10));
    try destruct (Qltb (random 2%nat) (2 # 10));
    try destruct (Qltb (random 1%nat) (2 # 10));
    cbn [app In];
    (split; [repeat constructor; cbn [In]; intuition discriminate|]);
    (split; [intuition auto|]);
    (split; [intuition (auto; discriminate) | intuition discriminate]).
Qed.

(** X17. [resolveRequiredSections] never returns an empty list and never
    repeats a key; its keys are among risk-factors, mdna and financials;
    every section the signals ask for is in the list; and a vague intent
    gets all three. *)
Theorem resolveRequiredSections_range :
  forall signals,
    let sections := resolveRequiredSections signals in
    sections <> []
    /\ NoDup sections
    /\ incl sections [js "risk-factors"; js "mdna"; js "financials"]
    /\ (IntentSignals.wantsRiskFactors signals = true ->
        In (js "risk-factors") sections)
    /\ (IntentSignals.wantsMdna signals = true -> In (js "mdna") sections)
    /\ (IntentSignals.wantsFinancials signals = true ->
        In (js "financials") sections)
    /\ (IntentSignals.isVague signals = true ->
        sections = [js "risk-factors"; js "mdna"; js "financials"]).
Proof.
  clear bodyDivTexts extractText toLowerCase.
  intros signals sections. subst sections. unfold resolveRequiredSections.
  assert (Hnd : forall a b c : bool,
    NoDup ((if a then [js "risk-factors"] else [])
           ++ (if b then [js "mdna"] else [])
           ++ (if c then [js "financials"] else []))).
  { intros [] [] []; cbn [app]; repeat constructor; cbn [In];
      intuition discriminate. }
  assert (Hall : NoDup [js "risk-factors"; js "mdna"; js "financials"]).
  { exact (Hnd true true true). }
  destruct (IntentSignals.isVague signals).
  - split; [discriminate|]. split; [exact Hall|].
    split; [apply incl_refl|]. cbn [In]. tauto.
  - specialize (Hnd (IntentSignals.wantsRiskFactors signals)
                    (IntentSignals.wantsMdna signals)
                    (IntentSignals.wantsFinancials signals)).
    destruct (IntentSignals.wantsRiskFactors signals);
      destruct (IntentSignals.wantsMdna signals);
      destruct (IntentSignals.wantsFinancials signals);
      cbn [app length Nat.ltb Nat.leb] in *;
      (split; [discriminate|]);
      (split; [assumption|]);
      (split; [intros x Hx; cbn [In] in *; tauto|]);
      cbn [In]; intuition discriminate.
Qed.

Lemma starts_with_app :
  forall a b s, starts_with (a ++ b) s = true -> starts_with a s = true.
Proof.
  induction a as [|c a IH]; intros b s H; [reflexivity|].
  destruct s as [|d s]; cbn [app starts_with] in *; [discriminate|].
  apply andb_true_iff in H. destruct H as [H1 H2].
  rewrite H1. cbn [andb]. now apply IH in H2.
Qed.

Lemma str_includes_app :
  forall a b s, str_includes (a ++ b) s = true -> str_includes a s = true.
Proof.
  intros a b; induction s as [|d s IH]; intros H; cbn [str_includes] in *.
  - apply orb_true_iff in H. destruct H as [H | H]; [|discriminate].
    apply starts_with_app in H. now rewrite H.
  - apply orb_true_iff in H. destruct H as [H | H].
    + apply starts_with_app in H. now rewrite H.
    + rewrite (IH H). apply orb_true_r.
Qed.

(** X18. The signals of a text are consistent: a vague intent never asks
    for the risk factors, a text whose lower case mentions risk is never
    vague, and in both cases the required sections that the router derives
    from the signals contain risk-factors. *)
Theorem extractIntentSignals_vague :
  forall text,
    let signals := extractIntentSignals text in
    (IntentSignals.isVague signals = true ->
     IntentSignals.wantsRiskFactors signals = false)
    /\ (str_includes (js "risk") (toLowerCase text) = true ->
        IntentSignals.isVague signals = false
        /\ IntentSignals.wantsRiskFactors signals = true)
    /\ ((IntentSignals.isVague signals = true
         \/ str_includes (js "risk") (toLowerCase text) = true) ->
        In (js "risk-factors") (resolveRequiredSections signals)).
Proof.
  intros text signals.
  assert (Hitem : str_includes (js "item 1a") (toLowerCase text) = true ->
                  str_includes (js "item") (toLowerCase text) = true).
  { apply (str_includes_app (js "item") (js " 1a")). }
  assert (H1 : IntentSignals.isVague signals = true ->
               IntentSignals.wantsRiskFactors signals = false).
  { subst signals. unfold extractIntentSignals.
    cbn [IntentSignals.isVague IntentSignals.wantsRiskFactors].
    intros H. repeat (apply andb_true_iff in H; destruct H as [H ?]).
    apply negb_true_iff in H. rewrite H. cbn [orb].
    destruct (str_includes (js "item 1a") (toLowerCase text)) eqn:E;
      [|reflexivity].
    rewrite (Hitem eq_refl) in *. discriminate. }
  assert (H2 : str_includes (js "risk") (toLowerCase text) = true ->
               IntentSignals.isVague signals = false
               /\ IntentSignals.wantsRiskFactors signals = true).
  { subst signals. unfold extractIntentSignals.
    cbn [IntentSignals.isVague IntentSignals.wantsRiskFactors].
    intros ->. split; reflexivity. }
  split; [exact H1|]. split; [exact H2|].
  intros [Hv | Hr].
  - unfold resolveRequiredSections. rewrite Hv. now left.
  - destruct (H2 Hr) as [Hv Hw]. unfold resolveRequiredSections.
    rewrite Hv, Hw. cbn [app]. destruct (0 <? _)%nat; now left.
Qed.


Lemma resolveRequiredSections_nonempty :
  forall signals, resolveRequiredSections signals <> [].
Proof.
  intros signals. unfold resolveRequiredSections.
  destruct (IntentSignals.isVague signals); [discriminate|].
  destruct (IntentSignals.wantsRiskFactors signals);
    destruct (IntentSignals.wantsMdna signals);
    destruct (IntentSignals.wantsFinancials signals); discriminate.
Qed.

(** X19. [routeIntent] fails only for a missing ticker or a missing year:
    with the ticker message whenever the ticker is missing, and with the
    year message, which is another message, only when there is a ticker
    and the year is missing.  When it succeeds,
    an override wins over what the text says, the ticker is not empty and
    the year is not zero, and the plan is the lenient plan of the planner
    with the router's skip list: the six steps in order, validate and
    generate not required, threshold 0.5. *)
Theorem routeIntent_result :
  forall random text overrides,
    match routeIntent random text overrides with
    | inl r =>
        IntentResult.ticker r <> []
        /\ IntentResult.year r <> 0%Z
        /\ Some (IntentResult.ticker r) =
             nullish (IntentOverrides.ticker overrides) (extractTicker text)
        /\ Some (IntentResult.year r) =
             nullish (IntentOverrides.year overrides) (extractYear text)
        /\ IntentResult.requiredSections r <> []
        /\ map WorkflowStep.name (WorkflowPlan.steps (IntentResult.plan r)) =
             [fetch; extract; locate_sections; validate; generate;
              emit_ledger]
        /\ map WorkflowStep.required
               (WorkflowPlan.steps (IntentResult.plan r)) =
             [true; true; true; false; false; true]
        /\ WorkflowPlan.confidenceThreshold (IntentResult.plan r) = 5 # 10
        /\ WorkflowPlan.skippedSteps (IntentResult.plan r) =
             computeProbabilisticSkips random (extractIntentSignals text)
    | inr message =>
        (message = no_ticker_message
         /\ (nullish (IntentOverrides.ticker overrides) (extractTicker text)
             = None
             \/ nullish (IntentOverrides.ticker overrides)
                  (extractTicker text) = Some []))
        \/ (message = no_year_message
            /\ message <> no_ticker_message
            /\ (exists ticker,
                   nullish (IntentOverrides.ticker overrides)
                     (extractTicker text) = Some ticker
                   /\ ticker <> [])
            /\ (nullish (IntentOverrides.year overrides) (extractYear text)
                = None
                \/ nullish (IntentOverrides.year overrides)
                     (extractYear text) = Some 0%Z))
    end.
Proof.
  intros random text overrides. unfold routeIntent.
  assert (Hdiff : no_year_message <> no_ticker_message)
    by (intros C; apply (f_equal (fun m => nth 21 m 0%N)) in C;
        vm_compute in C; discriminate C).
  destruct (nullish (IntentOverrides.ticker overrides) (extractTicker text))
    as [[|c t]|]; [left; auto | | left; auto].
  assert (Hticker : exists ticker : jsstring,
            Some (c :: t) = Some ticker /\ ticker <> [])
    by (exists (c :: t); split; [reflexivity | discriminate]).
  destruct (nullish (IntentOverrides.year overrides) (extractYear text))
    as [y|]; [|right; auto].
  destruct (y =? 0)%Z eqn:Ey.
  - apply Z.eqb_eq in Ey. subst y. right. auto.
  - apply Z.eqb_neq in Ey.
    cbn [IntentResult.ticker IntentResult.year IntentResult.requiredSections
         IntentResult.plan].
    split; [discriminate|]. split; [exact Ey|].
    split; [reflexivity|]. split; [reflexivity|].
    split; [apply resolveRequiredSections_nonempty|].
    repeat split; reflexivity.
Qed.



Lemma ALL_STEPS_NoDup : NoDup ALL_STEPS.
Proof.
  unfold ALL_STEPS. repeat constructor; cbn [In]; intuition discriminate.
Qed.

(** X20. The model-driven router needs an API key: without one it fails
    before anything else.  When it succeeds, its skip list is the universe
    of steps filtered down to the steps that the model did not choose, so
    in the order of the universe: it names no step twice, a step is skipped
    exactly when the model did not name it, and names of the model that are
    no steps are ignored; the plan has the six steps and the required sections are not
    empty. *)
Theorem routeIntentWithLlm_result :
  forall apiKey complete parse text overrides model,
    ((apiKey = None \/ apiKey = Some []) ->
     routeIntentWithLlm apiKey complete parse text overrides model =
       inr no_api_key_message)
    /\ forall r,
         routeIntentWithLlm apiKey complete parse text overrides model =
           inl r ->
         exists raw parsed,
           complete (match model with
                     | Some m => m
                     | None => DEFAULT_MODEL
                     end) text = inl (Some raw)
           /\ parse raw = Some parsed
           /\ NoDup (WorkflowPlan.skippedSteps (LlmRouteResult.plan r))
           /\ WorkflowPlan.skippedSteps (LlmRouteResult.plan r) =
                filter (fun n =>
                          negb (includes
                                  (match LlmResponse.steps parsed with
                                   | Some l => l
                                   | None => []
                                   end)
                                  (StepName_str n)))
                       ALL_STEPS
           /\ (forall n,
                  In n (WorkflowPlan.skippedSteps (LlmRouteResult.plan r))
                  <-> ~ In (StepName_str n)
                           (match LlmResponse.steps parsed with
                            | Some l => l
                            | None => []
                            end))
           /\ map WorkflowStep.name
                  (WorkflowPlan.steps (LlmRouteResult.plan r)) = ALL_STEPS
           /\ LlmRouteResult.requiredSections r <> []
           /\ LlmRouteResult.ticker r <> []
           /\ LlmRouteResult.year r <> 0%Z.
Proof.
  intros apiKey complete parse text overrides model. split.
  - intros [-> | ->]; reflexivity.
  - intros r H. unfold routeIntentWithLlm in H.
    destruct apiKey as [[|k0 k]|]; try discriminate.
    destruct (complete _ text) as [[[|c raw]|]|m] eqn:Ec; try discriminate.
    destruct (parse (c :: raw)) as [parsed|] eqn:Ep; [|discriminate].
    destruct (nullish (IntentOverrides.ticker overrides)
                (LlmResponse.ticker parsed)) as [[|t0 t]|]; try discriminate.
    destruct (nullish (IntentOverrides.year overrides)
                (LlmResponse.year parsed)) as [y|]; [|discriminate].
    destruct (y =? 0)%Z eqn:Ey; [discriminate|].
    apply Z.eqb_neq in Ey.
    set (skipped := filter _ ALL_STEPS) in H.
    assert (Hnd : NoDup skipped)
      by (subst skipped; apply NoDup_filter, ALL_STEPS_NoDup).
    assert (Hin : forall n,
              In n skipped <->
              ~ In (StepName_str n)
                   (match LlmResponse.steps parsed with
                    | Some l => l
                    | None => []
                    end)).
    { intros n. subst skipped. rewrite filter_In, negb_true_iff. split.
      - intros [_ Hn] C. apply includes_In in C. congruence.
      - intros Hn. split; [destruct n; cbn; tauto|].
        destruct (includes _ (StepName_str n)) eqn:E; [|reflexivity].
        apply includes_In in E. contradiction. }
    assert (Heq : skipped =
                  filter (fun n =>
                            negb (includes
                                    (match LlmResponse.steps parsed with
                                     | Some l => l
                                     | None => []
                                     end)
                                    (StepName_str n)))
                         ALL_STEPS) by reflexivity.
    clearbody skipped. injection H as <-.
    exists (c :: raw), parsed.
    cbn [LlmRouteResult.plan LlmRouteResult.requiredSections
         LlmRouteResult.ticker LlmRouteResult.year set_skippedSteps
         WorkflowPlan.skippedSteps WorkflowPlan.steps].
    split; [first [exact Ec | reflexivity]|].
    split; [first [exact Ep | reflexivity]|].
    split; [exact Hnd|]. split; [exact Heq|]. split; [exact Hin|].
    split; [reflexivity|].
    split; [destruct (LlmResponse.sections parsed) as [[|s0 ss]|];
            discriminate|].
    split; [discriminate | exact Ey].
Qed.




(* ------------------------------------------------------------------ *)
(** *** Cache keys (tools/cache.ts) *)

Lemma sanitize_char_ok :
  forall c, Cache.is_key_char (if Cache.is_key_char c then c else 95%N) = true.
Proof.
  intros c. destruct (Cache.is_key_char c) eqn:E; [exact E | reflexivity].
Qed.

(** X22. [sanitize] turns any cache key into a safe file-name part: it keeps
    the length, the result consists of ASCII letters, digits, [_] and [-]
    only (so it holds no slash, backslash or dot), sanitising twice is the
    same as sanitising once, and exactly the keys made of these code units
    are left as they are. *)
Theorem sanitize_safe :
  forall key : jsstring,
    length (Cache.sanitize key) = length key
    /\ Forall (fun c => Cache.is_key_char c = true) (Cache.sanitize key)
    /\ ~ In 47%N (Cache.sanitize key)
    /\ ~ In 92%N (Cache.sanitize key)
    /\ ~ In 46%N (Cache.sanitize key)
    /\ Cache.sanitize (Cache.sanitize key) = Cache.sanitize key
    /\ (Cache.sanitize key = key <->
        Forall (fun c => Cache.is_key_char c = true) key).
Proof.
  intros key.
  assert (Hall : Forall (fun c => Cache.is_key_char c = true)
                   (Cache.sanitize key)).
  { unfold Cache.sanitize. apply Forall_forall. intros c Hc.
    apply in_map_iff in Hc. destruct Hc as (d & <- & _).
    apply sanitize_char_ok. }
  assert (Hid : forall k, Forall (fun c => Cache.is_key_char c = true) k ->
                          Cache.sanitize k = k).
  { intros k Hk. unfold Cache.sanitize.
    induction Hk as [|c k Hc Hk IH]; cbn [map]; [reflexivity|].
    now rewrite Hc, IH. }
  assert (Hno : forall c, Cache.is_key_char c = false ->
                          ~ In c (Cache.sanitize key)).
  { intros c Hc Hin. rewrite Forall_forall in Hall.
    rewrite (Hall c Hin) in Hc. discriminate. }
  split; [apply length_map|].
  split; [exact Hall|].
  split; [now apply Hno|].
  split; [now apply Hno|].
  split; [now apply Hno|].
  split; [now apply Hid|].
  split; [intros E; now rewrite <- E | apply Hid].
Qed.


(* ------------------------------------------------------------------ *)
(** *** Text extraction (tools/extractor.ts) *)

Lemma collapse_spaces_In :
  forall s c, In c (collapse_spaces s) ->
    c = 32%N \/ (is_space c = false /\ In c s).
Proof.
  induction s as [|a s IH]; intros c Hc; [destruct Hc|].
  cbn [collapse_spaces] in Hc.
  destruct (is_space a) eqn:Ea.
  - destruct s as [|d s'].
    + destruct Hc as [<- | []]. now left.
    + destruct (is_space d).
      * destruct (IH c Hc) as [E | [E1 E2]]; [now left|].
        right. split; [exact E1 | now right].
      * destruct Hc as [<- | Hc]; [now left|].
        destruct (IH c Hc) as [E | [E1 E2]]; [now left|].
        right. split; [exact E1 | now right].
  - destruct Hc as [<- | Hc].
    + right. split; [exact Ea | now left].
    + destruct (IH c Hc) as [E | [E1 E2]]; [now left|].
      right. split; [exact E1 | now right].
Qed.

Lemma trimStart_In : forall s c, In c (trimStart s) -> In c s.
Proof.
  induction s as [|a s IH]; intros c Hc; [destruct Hc|].
  cbn [trimStart] in Hc. destruct (is_space a); [|exact Hc].
  right. now apply IH.
Qed.

Lemma trim_In : forall s c, In c (trim s) -> In c s.
Proof.
  intros s c Hc. unfold trim, trimEnd in Hc.
  apply in_rev in Hc. apply trimStart_In in Hc. apply in_rev in Hc.
  now apply trimStart_In.
Qed.

Lemma block_text_one_line : forall t, ~ In 10%N (block_text t).
Proof.
  intros t Hin. unfold block_text in Hin. apply trim_In in Hin.
  apply collapse_spaces_In in Hin.
  destruct Hin as [E | [E _]]; discriminate.
Qed.

Lemma split_on_absent :
  forall sep s, ~ In sep s -> split_on sep s = [s].
Proof.
  intros sep s; induction s as [|c s IH]; intros Hs; [reflexivity|].
  cbn [split_on]. destruct (c =? sep)%N eqn:E.
  - apply N.eqb_eq in E. subst c. exfalso. apply Hs. now left.
  - rewrite IH; [reflexivity|]. intros H. apply Hs. now right.
Qed.

Lemma split_on_app_sep :
  forall sep p rest, ~ In sep p ->
    split_on sep (p ++ sep :: rest) = p :: split_on sep rest.
Proof.
  intros sep p rest; induction p as [|c p IH]; intros Hp.
  - cbn [app split_on]. now rewrite N.eqb_refl.
  - cbn [app split_on]. destruct (c =? sep)%N eqn:E.
    + apply N.eqb_eq in E. subst c. exfalso. apply Hp. now left.
    + rewrite IH; [reflexivity|]. intros H. apply Hp. now right.
Qed.

(** [split] undoes [join] when no part holds the separator. *)
Lemma split_on_join :
  forall sep parts,
    parts <> [] -> Forall (fun p => ~ In sep p) parts ->
    split_on sep (join [sep] parts) = parts.
Proof.
  intros sep parts Hne Hall. induction Hall as [|p ps Hp Hps IH];
    [now destruct Hne|].
  destruct ps as [|q ps].
  - cbn [join]. now apply split_on_absent.
  - change (join [sep] (p :: q :: ps)) with (p ++ sep :: join [sep] (q :: ps)).
    rewrite split_on_app_sep by exact Hp. f_equal. apply IH. discriminate.
Qed.

(** The blocks collected by the [each] loop of [extractFromHtml]: the
    distinct qualifying texts, in the order of their first appearance; the
    set [seen] holds the same strings. *)
Lemma add_block_fold :
  forall (elements : list (list jsstring)),
    let texts :=
      filter (fun t => 2 <? length t)%nat
        (map (fun nodes => block_text (join [32%N] nodes)) elements) in
    let acc := fold_left Extractor.add_block elements ([], []) in
    fst acc = rev (nodup jsstring_eq_dec (rev texts))
    /\ (forall t, In t (snd acc) <-> In t (fst acc)).
Proof.
  clear bodyDivTexts extractText toLowerCase.
  intros elements. induction elements as [|nodes elements IH] using rev_ind.
  - cbn. split; [reflexivity | tauto].
  - cbn zeta in *. rewrite fold_left_app. cbn [fold_left].
    destruct (fold_left Extractor.add_block elements ([], []))
      as [blocks seen] eqn:Eacc.
    cbn [fst snd] in IH. destruct IH as [IHb IHs].
    rewrite map_app, filter_app. cbn [map filter].
    unfold Extractor.add_block.
    set (text := block_text (join [32%N] nodes)).
    destruct (2 <? length text)%nat eqn:Elen; cbn [andb].
    + rewrite rev_app_distr. cbn [rev app nodup].
      destruct (includes seen text) eqn:Einc; cbn [negb fst snd].
      * apply includes_In in Einc. apply IHs in Einc.
        rewrite IHb in Einc. apply in_rev in Einc.
        apply nodup_In in Einc.
        destruct (in_dec jsstring_eq_dec text _) as [_ | Hn];
          [|now destruct Hn].
        split; [exact IHb | exact IHs].
      * assert (Hn : ~ In text (rev (filter (fun t => 2 <? length t)%nat
                        (map (fun nodes => block_text (join [32%N] nodes))
                           elements)))).
        { intros Hin. apply (nodup_In jsstring_eq_dec) in Hin.
          apply in_rev in Hin. rewrite <- IHb in Hin. apply IHs in Hin.
          apply includes_In in Hin. congruence. }
        destruct (in_dec jsstring_eq_dec text _) as [Hy | _];
          [now destruct Hn|].
        cbn [rev]. rewrite IHb. split; [reflexivity|].
        intros t. rewrite in_app_iff. cbn [In].
        rewrite (IHs t), IHb. tauto.
    + rewrite app_nil_r. cbn [fst snd]. split; [exact IHb | exact IHs].
Qed.

(** X23. When some block element of the document has a text of more than
    two code units, the text extracted from an HTML document has one line
    per distinct block text: its lines are the qualifying block texts in
    document order with every repetition after the first dropped, so no line
    occurs twice and every qualifying text is a line. *)
Theorem extractFromHtml_lines :
  forall (content_blocks : jsstring -> list (list jsstring))
         (body_text root_text : jsstring -> jsstring) (html : jsstring),
    let texts :=
      filter (fun t => 2 <? length t)%nat
        (map (fun nodes => block_text (join [32%N] nodes))
           (content_blocks html)) in
    let lines :=
      split_on 10
        (Extractor.extractFromHtml content_blocks body_text root_text html) in
    texts <> [] ->
    lines = rev (nodup jsstring_eq_dec (rev texts))
    /\ NoDup lines
    /\ (forall t, In t lines <-> In t texts).
Proof.
  clear bodyDivTexts extractText toLowerCase.
  intros content_blocks body_text root_text html texts lines Hne.
  assert (Hlines : lines = rev (nodup jsstring_eq_dec (rev texts))).
  { subst lines. unfold Extractor.extractFromHtml.
    destruct (add_block_fold (content_blocks html)) as [Hb _].
    fold texts in Hb. rewrite Hb.
    destruct (rev (nodup jsstring_eq_dec (rev texts))) as [|b bs] eqn:Eb.
    - exfalso. apply Hne.
      assert (Hn : nodup jsstring_eq_dec (rev texts) = []).
      { rewrite <- (rev_involutive (nodup _ _)), Eb. reflexivity. }
      destruct texts as [|t ts]; [reflexivity|].
      assert (Hin : In t (nodup jsstring_eq_dec (rev (t :: ts)))).
      { apply nodup_In. apply in_rev. rewrite rev_involutive. now left. }
      rewrite Hn in Hin. destruct Hin.
    - apply split_on_join; [discriminate|].
      apply Forall_forall. intros p Hp. rewrite <- Eb in Hp.
      apply in_rev in Hp. apply nodup_In in Hp. apply in_rev in Hp.
      subst texts. apply filter_In in Hp. destruct Hp as [Hp _].
      apply in_map_iff in Hp. destruct Hp as (nodes & <- & _).
      apply block_text_one_line. }
  split; [exact Hlines|]. rewrite Hlines. split.
  - apply NoDup_rev. apply NoDup_nodup.
  - intros t. rewrite <- in_rev, nodup_In, <- in_rev. tauto.
Qed.


Lemma collapse_spaces_single : forall s, single_spaced (collapse_spaces s) = true.
Proof.
  induction s as [|a s IH]; [reflexivity|].
  cbn [collapse_spaces]. destruct (is_space a) eqn:Ea.
  - destruct s as [|d s']; [reflexivity|].
    destruct (is_space d) eqn:Ed; [exact IH|].
    cbn [collapse_spaces] in *. rewrite Ed in *.
    cbn [single_spaced]. cbn [single_spaced] in IH. rewrite Ed in *.
    exact IH.
  - cbn [single_spaced]. rewrite Ea. exact IH.
Qed.

Lemma collapse_spaces_fixed :
  forall s, single_spaced s = true -> collapse_spaces s = s.
Proof.
  induction s as [|a s IH]; intros H; [reflexivity|].
  cbn [single_spaced] in H. apply andb_prop in H. destruct H as [Ha Hs].
  cbn [collapse_spaces]. destruct (is_space a) eqn:Ea.
  - apply andb_prop in Ha. destruct Ha as [E32 Hd].
    apply N.eqb_eq in E32. subst a.
    destruct s as [|d s']; [reflexivity|].
    apply negb_true_iff in Hd. rewrite Hd. now rewrite IH.
  - now rewrite IH.
Qed.

Lemma trimStart_suffix : forall s, exists a, s = a ++ trimStart s.
Proof.
  induction s as [|c s [a IH]]; [now exists []|].
  cbn [trimStart]. destruct (is_space c).
  - exists (c :: a). cbn [app]. now rewrite <- IH.
  - now exists [].
Qed.

Lemma trimEnd_prefix : forall s, exists b, s = trimEnd s ++ b.
Proof.
  intros s. unfold trimEnd. destruct (trimStart_suffix (rev s)) as [a Ha].
  exists (rev a). rewrite <- rev_app_distr, <- Ha. now rewrite rev_involutive.
Qed.

Lemma single_spaced_suffix :
  forall a s, single_spaced (a ++ s) = true -> single_spaced s = true.
Proof.
  induction a as [|c a IH]; intros s H; [exact H|].
  cbn [app single_spaced] in H. apply andb_prop in H. now apply IH.
Qed.

Lemma single_spaced_prefix :
  forall s b, single_spaced (s ++ b) = true -> single_spaced s = true.
Proof.
  induction s as [|c s IH]; intros b H; [reflexivity|].
  cbn [app single_spaced] in H. apply andb_prop in H. destruct H as [Hc Hs].
  cbn [single_spaced]. rewrite (IH b Hs), andb_true_r.
  destruct (is_space c); [|reflexivity].
  apply andb_prop in Hc. destruct Hc as [E Hd]. rewrite E. cbn [andb].
  destruct s as [|d s']; [reflexivity | exact Hd].
Qed.

Lemma trimStart_idem : forall s, trimStart (trimStart s) = trimStart s.
Proof.
  induction s as [|c s IH]; [reflexivity|].
  cbn [trimStart]. destruct (is_space c) eqn:E; [exact IH|].
  cbn [trimStart]. now rewrite E.
Qed.

Lemma trimStart_fixed_head :
  forall c s, trimStart (c :: s) = c :: s -> is_space c = false.
Proof.
  intros c s H. cbn [trimStart] in H. destruct (is_space c); [|reflexivity].
  pose proof (trimStart_length s) as Hl. rewrite H in Hl. cbn [length] in Hl.
  lia.
Qed.

Lemma trim_fixed_by_trim : forall s, trim (trim s) = trim s.
Proof.
  intros s. unfold trim.
  set (w := trimStart s).
  assert (Hw : trimStart w = w) by apply trimStart_idem.
  assert (Hs : trimStart (trimEnd w) = trimEnd w).
  { destruct (trimEnd_prefix w) as [b Hb].
    destruct (trimEnd w) as [|c r]; [reflexivity|].
    rewrite Hb in Hw. cbn [app] in Hw.
    apply trimStart_fixed_head in Hw. cbn [trimStart]. now rewrite Hw. }
  rewrite Hs. unfold trimEnd. rewrite rev_involutive, trimStart_idem.
  reflexivity.
Qed.

(** [replace(/\s+/g, ' ').trim()] changes nothing when applied again. *)
Lemma block_text_idem : forall t, block_text (block_text t) = block_text t.
Proof.
  intros t. unfold block_text.
  assert (H : single_spaced (trim (collapse_spaces t)) = true).
  { unfold trim.
    destruct (trimStart_suffix (collapse_spaces t)) as [a Ha].
    destruct (trimEnd_prefix (trimStart (collapse_spaces t))) as [b Hb].
    apply (@single_spaced_prefix _ b). rewrite <- Hb.
    apply (@single_spaced_suffix a). rewrite <- Ha.
    apply collapse_spaces_single. }
  rewrite (collapse_spaces_fixed _ H). apply trim_fixed_by_trim.
Qed.

(** X24. Every line of the text extracted from an HTML document is
    normalised, whichever way the text was obtained (from the block
    elements, from the body or from the whole document): its white space
    consists of single spaces only and it neither starts nor ends with
    white space, so normalising it again gives the same line. *)
Theorem extractFromHtml_normalised :
  forall (content_blocks : jsstring -> list (list jsstring))
         (body_text root_text : jsstring -> jsstring) (html : jsstring),
    Forall (fun line => block_text line = line
                        /\ single_spaced line = true
                        /\ trim line = line)
      (split_on 10
         (Extractor.extractFromHtml content_blocks body_text root_text html)).
Proof.
  intros content_blocks body_text root_text html.
  assert (Hnorm : forall t, block_text (block_text t) = block_text t
                    /\ single_spaced (block_text t) = true
                    /\ trim (block_text t) = block_text t).
  { intros t. pose proof (block_text_idem t) as Hi.
    split; [exact Hi|]. unfold block_text in *.
    assert (H : single_spaced (trim (collapse_spaces t)) = true).
    { unfold trim.
      destruct (trimStart_suffix (collapse_spaces t)) as [a Ha].
      destruct (trimEnd_prefix (trimStart (collapse_spaces t))) as [b Hb].
      apply (@single_spaced_prefix _ b). rewrite <- Hb.
      apply (@single_spaced_suffix a). rewrite <- Ha.
      apply collapse_spaces_single. }
    split; [exact H | apply trim_fixed_by_trim]. }
  unfold Extractor.extractFromHtml.
  destruct (add_block_fold (content_blocks html)) as [Hb _].
  cbn zeta in Hb.
  destruct (fst (fold_left Extractor.add_block (content_blocks html) ([], [])))
    as [|b bs] eqn:Eb.
  - set (body := block_text (body_text html)).
    destruct (0 <? length body)%nat.
    + subst body. rewrite split_on_absent by apply block_text_one_line.
      constructor; [apply Hnorm | constructor].
    + rewrite split_on_absent by apply block_text_one_line.
      constructor; [apply Hnorm | constructor].
  - assert (Hall : forall p, In p (b :: bs) -> exists t, p = block_text t).
    { intros p Hp. rewrite Hb in Hp. apply in_rev in Hp.
      apply nodup_In in Hp. apply in_rev in Hp. apply filter_In in Hp.
      destruct Hp as [Hp _]. apply in_map_iff in Hp.
      destruct Hp as (nodes & <- & _). now eexists. }
    rewrite split_on_join.
    + apply Forall_forall. intros p Hp. destruct (Hall p Hp) as [t ->].
      apply Hnorm.
    + discriminate.
    + apply Forall_forall. intros p Hp. destruct (Hall p Hp) as [t ->].
      apply block_text_one_line.
Qed.


(* ------------------------------------------------------------------ *)
(** *** Ticker and year extraction (intent-router/patterns.ts) *)

(** A match of the year pattern: four digits 20[1-3]d between two word
    boundaries. *)
Lemma yearPattern_match :
  forall s k e,
    match_at yearPattern s k = Some e ->
    e = (k + 4)%nat
    /\ xorb (word_before s k) (word_at s k) = true
    /\ exists d1 d2,
         nth_error s k = Some 50%N /\ nth_error s (k + 1) = Some 48%N
         /\ nth_error s (k + 2) = Some d1 /\ nth_error s (k + 3) = Some d2
         /\ (49 <= d1 <= 51)%N /\ (48 <= d2 <= 57)%N.
Proof.
  intros s k e H. unfold match_at, yearPattern, chr_eq in H.
  cbn [ends] in H.
  destruct (xorb (word_before s k) (word_at s k)) eqn:Eb;
    [|discriminate]. cbn [flat_map] in H. rewrite app_nil_r in H.
  destruct (nth_error s k) as [c0|] eqn:E0; [|discriminate].
  destruct (50 =? c0)%N eqn:Ec0; [|discriminate].
  cbn [flat_map] in H. rewrite app_nil_r in H.
  destruct (nth_error s (S k)) as [c1|] eqn:E1; [|discriminate].
  destruct (48 =? c1)%N eqn:Ec1; [|discriminate].
  cbn [flat_map] in H. rewrite app_nil_r in H.
  destruct (nth_error s (S (S k))) as [c2|] eqn:E2; [|discriminate].
  destruct ((49 <=? c2) && (c2 <=? 51))%N eqn:Ec2; [|discriminate].
  cbn [flat_map] in H. rewrite app_nil_r in H.
  destruct (nth_error s (S (S (S k)))) as [c3|] eqn:E3; [|discriminate].
  destruct (is_digit c3) eqn:Ec3; [|discriminate].
  cbn [flat_map] in H. rewrite app_nil_r in H.
  destruct (xorb (word_before s (S (S (S (S k)))))
              (word_at s (S (S (S (S k)))))); [|discriminate].
  cbn [hd_error] in H. injection H as <-.
  apply N.eqb_eq in Ec0, Ec1. subst c0 c1.
  apply andb_prop in Ec2. destruct Ec2 as [L2 U2].
  unfold is_digit in Ec3. apply andb_prop in Ec3. destruct Ec3 as [L3 U3].
  apply N.leb_le in L2, U2, L3, U3.
  split; [lia|]. split; [reflexivity|].
  exists c2, c3.
  replace (k + 1)%nat with (S k) by lia.
  replace (k + 2)%nat with (S (S k)) by lia.
  replace (k + 3)%nat with (S (S (S k))) by lia.
  repeat (split; [reflexivity || assumption || lia|]). lia.
Qed.

Lemma yearPattern_inside :
  forall s k, match_at yearPattern s k <> None -> (k + 4 <= length s)%nat.
Proof.
  intros s k H. destruct (match_at yearPattern s k) as [e|] eqn:E;
    [|now destruct H].
  apply yearPattern_match in E.
  destruct E as (_ & _ & d1 & d2 & _ & _ & _ & E3 & _).
  assert (k + 3 < length s)%nat by (apply nth_error_Some; congruence). lia.
Qed.

Lemma digit_is_word : forall c, (48 <= c <= 57)%N -> is_word c = true.
Proof.
  intros c H. unfold is_word, is_digit.
  replace (48 <=? c)%N with true by (symmetry; apply N.leb_le; lia).
  replace (c <=? 57)%N with true by (symmetry; apply N.leb_le; lia).
  cbn. now rewrite orb_true_r.
Qed.

(** Two matches of the year pattern do not overlap. *)
Lemma yearPattern_no_overlap :
  forall s k j,
    match_at yearPattern s k <> None -> (k < j < k + 4)%nat ->
    match_at yearPattern s j = None.
Proof.
  intros s k j Hk Hj.
  destruct (match_at yearPattern s k) as [e|] eqn:E; [|now destruct Hk].
  apply yearPattern_match in E.
  destruct E as (_ & _ & d1 & d2 & E0 & E1 & E2 & E3 & R1 & R2).
  destruct (match_at yearPattern s j) as [e'|] eqn:E'; [|reflexivity].
  apply yearPattern_match in E'. destruct E' as (_ & Hb & _).
  exfalso.
  assert (Hw : forall i, (k <= i < k + 4)%nat -> word_at s i = true).
  { intros i Hi. unfold word_at.
    assert (Hc : i = k \/ i = (k + 1)%nat \/ i = (k + 2)%nat
                 \/ i = (k + 3)%nat) by lia.
    destruct Hc as [-> | [-> | [-> | ->]]];
      [rewrite E0 | rewrite E1 | rewrite E2 | rewrite E3];
      apply digit_is_word; lia. }
  destruct j as [|j']; [lia|]. cbn [word_before] in Hb.
  rewrite (Hw j'), (Hw (S j')) in Hb by lia. discriminate.
Qed.

(** The loop over the matches of the year pattern reports matches only. *)
Lemma exec_all_sound :
  forall r s fuel i k e,
    In (k, e) (exec_all r s fuel i) -> match_at r s k = Some e.
Proof.
  intros r s fuel; induction fuel as [|f IH]; intros i k e H;
    cbn [exec_all] in H; [destruct H|].
  destruct (exec_from r s (length s - i) i) as [k0|]; [|destruct H].
  destruct (match_at r s k0) as [e0|] eqn:E; [|destruct H].
  destruct H as [H | H]; [injection H as <- <-; exact E|].
  now apply IH in H.
Qed.

(** The loop over the matches of the year pattern visits every position
    where the pattern matches; the fuel is not exhausted before the end of
    the text. *)
Lemma exec_all_year_complete :
  forall s fuel i,
    (length s - i <= fuel)%nat ->
    forall k, (i <= k)%nat ->
      match_at yearPattern s k <> None ->
      In (k, (k + 4)%nat) (exec_all yearPattern s fuel i).
Proof.
  intros s fuel; induction fuel as [|f IH]; intros i Hf k Hk H.
  - apply yearPattern_inside in H. lia.
  - cbn [exec_all].
    pose proof (exec_from_spec yearPattern s (length s - i) i) as Hx.
    destruct (exec_from yearPattern s (length s - i) i) as [k0|].
    + destruct Hx as (Hb & Hm & Hbefore).
      destruct (match_at yearPattern s k0) as [e|] eqn:E; [|now destruct Hm].
      pose proof (yearPattern_match _ _ E) as (-> & _).
      assert (Hin : (k0 + 4 <= length s)%nat).
      { apply yearPattern_inside. congruence. }
      cbn [In].
      destruct (Nat.lt_ge_cases k k0) as [Hlt | Hge].
      { rewrite Hbefore in H by lia. now destruct H. }
      destruct (Nat.eq_dec k k0) as [-> | Hne]; [now left|].
      destruct (Nat.lt_ge_cases k (k0 + 4)) as [Hlt | Hge'].
      { rewrite (@yearPattern_no_overlap s k0 k) in H;
          [now destruct H | congruence | lia]. }
      right. apply IH; [lia | lia | exact H].
    + exfalso. pose proof (@yearPattern_inside s k H) as Hin.
      rewrite Hx in H by lia. now destruct H.
Qed.

Lemma insert_desc_head :
  forall x l,
    match l with
    | [] => insert_desc x l = [x]
    | h :: _ => exists ys, insert_desc x l = Z.max x h :: ys
    end.
Proof.
  intros x l. destruct l as [|h t]; cbn [insert_desc]; [reflexivity|].
  destruct (x <? h)%Z eqn:E.
  - apply Z.ltb_lt in E. exists (insert_desc x t). f_equal. lia.
  - apply Z.ltb_ge in E. exists (h :: t). f_equal. lia.
Qed.

(** The head of the sorted array is the largest element. *)
Lemma sort_desc_head :
  forall l,
    match sort_desc l with
    | [] => l = []
    | y :: _ => In y l /\ forall x, In x l -> (x <= y)%Z
    end.
Proof.
  induction l as [|a l IH]; [reflexivity|].
  unfold sort_desc in *. cbn [fold_right].
  pose proof (insert_desc_head a (fold_right insert_desc [] l)) as Hh.
  destruct (fold_right insert_desc [] l) as [|h t] eqn:E.
  - subst l. rewrite Hh. split; [now left|]. intros x [<- | []]. lia.
  - destruct Hh as [ys ->]. destruct IH as [Hin Hmax]. split.
    + destruct (Z.max_spec a h) as [[_ ->] | [_ ->]];
        [right; exact Hin | now left].
    + intros x [<- | Hx]; [lia|]. specialize (Hmax x Hx). lia.
Qed.

(** The value of a match of the year pattern. *)
Lemma year_value :
  forall s k,
    match_at yearPattern s k <> None ->
    (2010 <= parseInt_digits (slice k (k + 4) s) <= 2039)%Z.
Proof.
  intros s k H.
  destruct (match_at yearPattern s k) as [e|] eqn:E; [|now destruct H].
  apply yearPattern_match in E.
  destruct E as (_ & _ & d1 & d2 & E0 & E1 & E2 & E3 & R1 & R2).
  assert (Hs : slice k (k + 4) s = [50; 48; d1; d2]%N).
  { unfold slice. replace (k + 4 - k)%nat with 4%nat by lia.
    assert (Hn : forall j, nth_error (skipn k s) j = nth_error s (k + j)).
    { intros j. apply nth_error_skipn. }
    pose proof (Hn 0%nat) as H0. pose proof (Hn 1%nat) as H1.
    pose proof (Hn 2%nat) as H2. pose proof (Hn 3%nat) as H3.
    rewrite Nat.add_0_r in H0. rewrite E0 in H0. rewrite E1 in H1.
    rewrite E2 in H2. rewrite E3 in H3.
    destruct (skipn k s) as [|a0 [|a1 [|a2 [|a3 r]]]]; try discriminate.
    cbn in H0, H1, H2, H3. cbn [firstn]. congruence. }
  rewrite Hs. unfold parseInt_digits. cbn [fold_left]. lia.
Qed.

(** X25. [extractYear] returns null exactly when the year pattern (20
    followed by a digit from 1 to 3 and one more digit, between two word
    boundaries) matches nowhere in the text; otherwise it returns the
    largest of the years written at the positions where the pattern
    matches, and that year lies between 2010 and 2039. *)
Theorem extractYear_largest :
  forall text : jsstring,
    match extractYear text with
    | None => forall k, match_at yearPattern text k = None
    | Some y =>
        (2010 <= y <= 2039)%Z
        /\ (exists k, match_at yearPattern text k = Some (k + 4)%nat
                      /\ y = parseInt_digits (slice k (k + 4) text))
        /\ (forall k, match_at yearPattern text k <> None ->
                      (parseInt_digits (slice k (k + 4) text) <= y)%Z)
    end.
Proof.
  intros text. unfold extractYear.
  set (spans := exec_all yearPattern text (length text) 0).
  assert (Hsound : forall k e, In (k, e) spans ->
            match_at yearPattern text k = Some e /\ e = (k + 4)%nat).
  { intros k e H. apply exec_all_sound in H. split; [exact H|].
    now apply yearPattern_match in H. }
  assert (Hcomplete : forall k, match_at yearPattern text k <> None ->
            In (k, (k + 4)%nat) spans).
  { intros k H. apply exec_all_year_complete; [lia | lia | exact H]. }
  pose proof (sort_desc_head
    (map (fun span => parseInt_digits (slice (fst span) (snd span) text))
       spans)) as Hs.
  destruct (sort_desc _) as [|y ys].
  - intros k. destruct (match_at yearPattern text k) eqn:E; [|reflexivity].
    exfalso. assert (Hin : In (k, (k + 4)%nat) spans)
      by (apply Hcomplete; congruence).
    apply (in_map (fun span =>
             parseInt_digits (slice (fst span) (snd span) text))) in Hin.
    rewrite Hs in Hin. destruct Hin.
  - destruct Hs as [Hin Hmax]. apply in_map_iff in Hin.
    destruct Hin as ([k e] & Hy & Hin). cbn [fst snd] in Hy.
    destruct (Hsound k e Hin) as [Hm ->]. split; [|split].
    + rewrite <- Hy. apply year_value. congruence.
    + exists k. split; [exact Hm | now symmetry].
    + intros k' Hk'. apply Hmax.
      apply (in_map (fun span =>
               parseInt_digits (slice (fst span) (snd span) text))
               spans (k', (k' + 4)%nat)).
      now apply Hcomplete.
Qed.


Lemma upto_ends :
  forall (p : N -> bool) s n i e,
    In e (ends (upto (Chr p) n) s i) ->
    (i <= e <= i + n)%nat
    /\ forall j, (i <= j < e)%nat ->
         exists c, nth_error s j = Some c /\ p c = true.
Proof.
  intros p s n; induction n as [|n IH]; intros i e H; cbn [upto ends] in H.
  - destruct H as [<- | []]. split; [lia | intros j Hj; lia].
  - apply in_app_iff in H. destruct H as [H | [<- | []]];
      [|split; [lia | intros j Hj; lia]].
    apply in_flat_map in H. destruct H as (m & Hm & He).
    destruct (nth_error s i) as [c|] eqn:Ec; [|destruct Hm].
    destruct (p c) eqn:Epc; [|destruct Hm]. destruct Hm as [<- | []].
    apply IH in He. destruct He as [Hb Hall]. split; [lia|].
    intros j Hj. destruct (Nat.eq_dec j i) as [-> | Hne].
    + now exists c.
    + apply Hall. lia.
Qed.

Lemma upper_is_word : forall c, is_upper c = true -> is_word c = true.
Proof.
  intros c H. unfold is_upper in H. unfold is_word, is_ascii_letter.
  now rewrite H.
Qed.

(** A match of the generic ticker pattern: one to five capital letters,
    with no word character before the first and none after the last. *)
Lemma GENERIC_TICKER_match :
  forall s i e,
    match_at GENERIC_TICKER s i = Some e ->
    (i < e <= i + 5)%nat /\ (e <= length s)%nat
    /\ (forall j, (i <= j < e)%nat ->
          exists c, nth_error s j = Some c /\ is_upper c = true)
    /\ word_before s i = false
    /\ word_at s e = false.
Proof.
  intros s i e H. unfold match_at in H.
  assert (Hin : In e (ends GENERIC_TICKER s i)).
  { destruct (ends GENERIC_TICKER s i); [discriminate|].
    injection H as <-. now left. }
  clear H. unfold GENERIC_TICKER in Hin.
  change (ends (Seq WordB ?r) s i) with (flat_map (ends r s) (ends WordB s i))
    in Hin.
  apply in_flat_map in Hin. destruct Hin as (i0 & Hi0 & Hin).
  cbn [ends] in Hi0.
  destruct (xorb (word_before s i) (word_at s i)) eqn:Hb0; [|destruct Hi0].
  destruct Hi0 as [<- | []].
  change (In e (flat_map (ends WordB s)
            (flat_map (ends (upto (Chr is_upper) 4) s)
               (ends (Chr is_upper) s i)))) in Hin.
  apply in_flat_map in Hin. destruct Hin as (m & Hm & He).
  apply in_flat_map in Hm. destruct Hm as (m0 & Hm0 & Hm).
  cbn [ends] in Hm0, He.
  destruct (nth_error s i) as [c|] eqn:Ec; [|destruct Hm0].
  destruct (is_upper c) eqn:Eu; [|destruct Hm0]. destruct Hm0 as [<- | []].
  destruct (xorb (word_before s m) (word_at s m)) eqn:Hb1; [|destruct He].
  destruct He as [<- | []].
  apply upto_ends in Hm. destruct Hm as [Hb Hall].
  assert (Hchars : forall j, (i <= j < m)%nat ->
            exists c, nth_error s j = Some c /\ is_upper c = true).
  { intros j Hj. destruct (Nat.eq_dec j i) as [-> | Hne].
    - now exists c.
    - apply Hall. lia. }
  assert (Hword : forall j, (i <= j < m)%nat -> word_at s j = true).
  { intros j Hj. destruct (Hchars j Hj) as (c' & Hc' & Hu).
    unfold word_at. rewrite Hc'. now apply upper_is_word. }
  split; [lia|]. split; [|split; [exact Hchars|]].
  - destruct (Hchars (m - 1)%nat) as (c' & Hc' & _); [lia|].
    assert (m - 1 < length s)%nat by (apply nth_error_Some; congruence). lia.
  - split.
    + rewrite (Hword i) in Hb0 by lia.
      destruct (word_before s i); [discriminate Hb0 | reflexivity].
    + destruct m as [|m']; [lia|]. cbn [word_before] in Hb1.
      rewrite (Hword m') in Hb1 by lia.
      destruct (word_at s (S m')); [discriminate Hb1 | reflexivity].
Qed.

Lemma slice_nth_error :
  forall (s : jsstring) i e j,
    (j < e - i)%nat -> nth_error (slice i e s) j = nth_error s (i + j).
Proof.
  intros s i e j Hj. unfold slice.
  rewrite nth_error_firstn.
  replace (j <? e - i)%nat with true by (symmetry; apply Nat.ltb_lt; lia).
  apply nth_error_skipn.
Qed.

Lemma slice_length :
  forall (s : jsstring) i e,
    (i <= e <= length s)%nat -> length (slice i e s) = (e - i)%nat.
Proof.
  intros s i e H. unfold slice. rewrite length_firstn, length_skipn. lia.
Qed.

(** X26. A ticker returned by [extractTicker] is either one of the seven
    tickers of the table of known company names, or, when no pattern of
    that table matches the text, the leftmost run of capital letters
    standing between word boundaries, the whole of it: a piece of the text
    of two to five code units, all of them in [A-Z], with no word character
    right before it and none right after it, that is not one of the stop
    words. *)
Theorem extractTicker_shape :
  forall (text ticker : jsstring),
    extractTicker text = Some ticker ->
    In ticker (map js ["AAPL"; "GOOGL"; "MSFT"; "AMZN"; "TSLA"; "META";
                       "NVDA"]%string)
    \/ ((forall pt, In pt TICKER_PATTERNS -> test (fst pt) text = false)
        /\ (2 <= length ticker <= 5)%nat
        /\ Forall (fun c => (65 <= c <= 90)%N) ticker
        /\ ~ In ticker stopWords
        /\ exists i,
             exec GENERIC_TICKER text = Some i
             /\ (forall k, (k < i)%nat ->
                           match_at GENERIC_TICKER text k = None)
             /\ match_at GENERIC_TICKER text i = Some (i + length ticker)%nat
             /\ slice i (i + length ticker) text = ticker
             /\ word_before text i = false
             /\ word_at text (i + length ticker) = false).
Proof.
  clear bodyDivTexts extractText toLowerCase.
  intros text ticker H. unfold extractTicker in H.
  destruct (find (fun pt => test (fst pt) text) TICKER_PATTERNS)
    as [[r t]|] eqn:Ef.
  - left. injection H as <-. apply find_some in Ef. destruct Ef as [Hin _].
    apply (in_map snd) in Hin. cbn [snd] in Hin.
    unfold TICKER_PATTERNS in Hin. cbn [map snd] in Hin. cbn [map].
    cbn [In] in *. tauto.
  - right. split.
    { intros pt Hpt. apply (find_none _ _ Ef pt Hpt). }
    unfold exec_span in H.
    destruct (exec GENERIC_TICKER text) as [i|] eqn:Ex; [|discriminate].
    destruct (match_at GENERIC_TICKER text i) as [e|] eqn:Em; [|discriminate].
    set (candidate := slice i e text) in *.
    destruct (negb (includes stopWords candidate)) eqn:Estop; [|discriminate].
    cbn [andb] in H.
    destruct (2 <=? length candidate)%nat eqn:Elen; [|discriminate].
    injection H as <-.
    pose proof (GENERIC_TICKER_match _ _ Em)
      as (Hb & Hl & Hchars & Hbefore & Hafter).
    assert (Hlen : length candidate = (e - i)%nat)
      by (apply slice_length; lia).
    assert (Hend : (i + length candidate)%nat = e) by lia.
    apply Nat.leb_le in Elen.
    split; [lia|]. split; [|split].
    + apply Forall_forall. intros c Hc. apply In_nth_error in Hc.
      destruct Hc as [j Hj].
      assert (Hjl : (j < length candidate)%nat)
        by (apply nth_error_Some; congruence).
      unfold candidate in Hj. rewrite slice_nth_error in Hj by lia.
      destruct (Hchars (i + j)%nat) as (c' & Hc' & Hu); [lia|].
      rewrite Hc' in Hj. injection Hj as <-. unfold is_upper in Hu.
      apply andb_prop in Hu. destruct Hu as [L U].
      apply N.leb_le in L, U. lia.
    + intros Hin. apply includes_In in Hin. rewrite Hin in Estop.
      discriminate.
    + exists i. split; [reflexivity|]. rewrite Hend.
      pose proof (exec_from_spec GENERIC_TICKER text (length text) 0) as Hx.
      unfold exec in Ex. rewrite Ex in Hx. destruct Hx as (_ & _ & Hleft).
      split; [intros k Hk; apply Hleft; lia|].
      split; [exact Em|]. split; [reflexivity|].
      split; [exact Hbefore | exact Hafter].
Qed.


(* ------------------------------------------------------------------ *)
(** *** Validation followed by analysis *)

Lemma matchesSectionKey_name :
  forall n k, matchesSectionKey n k = true -> sectionKeyToName k = Str n.
Proof.
  clear bodyDivTexts extractText.
  intros n k H. unfold matchesSectionKey in H.
  destruct (find (fun p => str_eqb (SectionPattern.key p) n)
              SECTION_PATTERNS) as [p|] eqn:E; [|discriminate].
  apply find_some in E. destruct E as [Hp Hk].
  apply str_eqb_eq in Hk. apply includes_In in H.
  unfold sectionKeyToName.
  unfold SECTION_PATTERNS in Hp. cbn [In] in Hp.
  destruct Hp as [<- | [<- | [<- | []]]];
    cbn [SectionPattern.key SectionPattern.requireKeys In] in H, Hk;
    subst n.
  - destruct H as [<- | [<- | []]]; reflexivity.
  - destruct H as [<- | [<- | [<- | []]]]; reflexivity.
  - destruct H as [<- | [<- | [<- | []]]]; reflexivity.
Qed.

(** X27. The analyses of [generateAnalysis] are named after the requested
    keys, found or not: the names of the analyses are the values that
    [sectionKeyToName] gives for the keys, in the order of the request.
    Such a value is a string, except for the placeholder of a key whose
    lower case names a member that the alias object inherits from
    [Object.prototype] (as [constructor] and [__proto__] do): the name of
    that placeholder is the inherited member, not a string. *)
Theorem generateAnalysis_names :
  forall sections requiredKeys,
    map SectionAnalysis.name
      (AnalysisResult.sections (generateAnalysis sections requiredKeys))
    = map sectionKeyToName requiredKeys
    /\ Forall2 (fun k a =>
                  match SectionAnalysis.name a with
                  | Str _ => True
                  | Inherited member =>
                      member = toLowerCase k
                      /\ In member Object_prototype_members
                      /\ (forall kv, In kv section_alias_table ->
                                     fst kv <> member)
                      /\ SectionAnalysis.found a = false
                  end)
               requiredKeys
               (AnalysisResult.sections
                  (generateAnalysis sections requiredKeys)).
Proof.
  clear bodyDivTexts extractText.
  intros sections requiredKeys. unfold generateAnalysis.
  cbn [AnalysisResult.sections]. split.
  - rewrite map_map. apply map_ext.
    intros k. unfold analyze_required_key.
    destruct (find (fun s => matchesSectionKey (SectionMatch.name s) k)
                sections) as [section|] eqn:E; [|reflexivity].
    destruct (negb (SectionMatch.found section)); [reflexivity|].
    cbn [SectionAnalysis.name]. apply find_some in E. destruct E as [_ E].
    symmetry. now apply matchesSectionKey_name.
  - assert (Hplace : forall k,
      match sectionKeyToName k with
      | Str _ => True
      | Inherited member =>
          member = toLowerCase k
          /\ In member Object_prototype_members
          /\ (forall kv, In kv section_alias_table -> fst kv <> member)
          /\ false = false
      end).
    { intros k. unfold sectionKeyToName.
      destruct (find (fun kv => str_eqb (fst kv) (toLowerCase k))
                  section_alias_table) as [kv|] eqn:Ef; [exact I|].
      destruct (includes Object_prototype_members (toLowerCase k)) eqn:Ei;
        [|exact I].
      split; [reflexivity|]. split; [now apply includes_In|].
      split; [|reflexivity].
      intros kv Hkv C. pose proof (find_none _ _ Ef kv Hkv) as Hn.
      cbn beta in Hn. rewrite C in Hn.
      assert (Ht : str_eqb (toLowerCase k) (toLowerCase k) = true)
        by now apply str_eqb_eq.
      rewrite Ht in Hn. discriminate Hn. }
    induction requiredKeys as [|k ks IH]; cbn [map]; constructor;
      [|exact IH].
    unfold analyze_required_key.
    destruct (find (fun s => matchesSectionKey (SectionMatch.name s) k)
                sections) as [section|];
      [|cbn [SectionAnalysis.name SectionAnalysis.found]; apply Hplace].
    destruct (negb (SectionMatch.found section));
      cbn [SectionAnalysis.name SectionAnalysis.found];
      [apply Hplace | exact I].
Qed.

(** A validation with hard failure that returns has no failure to report,
    and the analysis of the same sections finds every key. *)
Lemma validation_guards_analysis :
  forall sections requiredKeys confidenceThreshold warnings,
    validateSections sections requiredKeys confidenceThreshold true
      = Returned warnings ->
    warnings = []
    /\ Forall (fun a =>
                 SectionAnalysis.found a = true
                 /\ (confidenceThreshold <= SectionAnalysis.confidence a)%Q)
              (AnalysisResult.sections
                 (generateAnalysis sections requiredKeys)).
Proof.
  clear bodyDivTexts extractText.
  intros sections requiredKeys thr warnings H.
  unfold validateSections in H.
  destruct (0 <? length (map failure_message
                           (validation_failures sections requiredKeys thr)))%nat
    eqn:El; [discriminate|].
  injection H as <-. split; [reflexivity|].
  apply Nat.ltb_ge in El. rewrite length_map in El.
  assert (Hnil : validation_failures sections requiredKeys thr = [])
    by (destruct (validation_failures sections requiredKeys thr);
        [reflexivity | cbn in El; lia]).
  unfold generateAnalysis. cbn [AnalysisResult.sections].
  apply Forall_forall. intros a Ha. apply in_map_iff in Ha.
  destruct Ha as (k & <- & Hk).
  assert (Hck : check_required_key sections thr k = []).
  { unfold validation_failures in Hnil.
    destruct (check_required_key sections thr k) as [|f fs] eqn:Ec;
      [reflexivity|].
    assert (Hin : In f (flat_map (check_required_key sections thr)
                          requiredKeys)).
    { apply in_flat_map. exists k. split; [exact Hk|]. rewrite Ec. now left. }
    rewrite Hnil in Hin. destruct Hin. }
  unfold check_required_key in Hck. unfold analyze_required_key.
  destruct (find (fun s => matchesSectionKey (SectionMatch.name s) k)
              sections) as [section|]; [|discriminate].
  destruct (negb (SectionMatch.found section)); [discriminate|].
  cbn [SectionAnalysis.found SectionAnalysis.confidence].
  split; [reflexivity|].
  destruct (Qltb (SectionMatch.confidence section) thr) eqn:Eq;
    [discriminate|].
  now apply Qltb_false_le.
Qed.

(** X28. Validation with hard failure guards the analysis: when
    [validateSections] returns for a list of required keys, it has written
    no warning, and [generateAnalysis] on the same sections and keys finds
    every key, each with a confidence that is not below the threshold. *)
Theorem validated_keys_are_analysed :
  forall sections requiredKeys confidenceThreshold warnings,
    validateSections sections requiredKeys confidenceThreshold true
      = Returned warnings ->
    warnings = []
    /\ Forall (fun a =>
                 SectionAnalysis.found a = true
                 /\ (confidenceThreshold <= SectionAnalysis.confidence a)%Q)
              (AnalysisResult.sections
                 (generateAnalysis sections requiredKeys)).
Proof.
  intros sections requiredKeys confidenceThreshold warnings H.
  exact (@validation_guards_analysis sections requiredKeys
           confidenceThreshold warnings H).
Qed.



(** One round of the loop of the orchestrator on a given step and context. *)
Ltac run_simpl :=
  cbn [runSteps existsb WorkflowPlan.skippedSteps WorkflowPlan.steps
       WorkflowStep.execute WorkflowStep.name WorkflowStep.required andb
       InvocationMode_eqb WorkflowContext.options WorkflowContext.rawContent
       WorkflowContext.contentType WorkflowContext.extractedText
       WorkflowContext.sections WorkflowContext.analyses set_fetched
       set_extractedText set_sections set_analysis push_stepResult
       initial_context RunResult.exitCode RunResult.ctx].

(** X29. The guarantee of command mode: when a run with the plan of the
    planner is not cut short, the filing was fetched, its extracted text has
    at least 1000 code units, the sections of the final context are the
    located sections of that text, the validation at threshold 0.75 reported
    no failure, and the analyses written are those of [generateAnalysis]:
    every required key is found with a confidence of at least 0.75. *)
Theorem command_run_guarantee :
  forall now elapsed options,
    AnalyzeOptions.mode options = command ->
    let run := runWorkflow now elapsed options None in
    RunResult.exitCode run = None ->
    exists raw kind text,
      fetchFiling options = inl (raw, kind)
      /\ extractText raw kind = inl text
      /\ (1000 <= length text)%nat
      /\ WorkflowContext.sections (RunResult.ctx run) =
           locateSections raw text kind
      /\ validateSections (locateSections raw text kind)
           (AnalyzeOptions.require options) (75 # 100) true = Returned []
      /\ WorkflowContext.analyses (RunResult.ctx run) =
           AnalysisResult.sections
             (generateAnalysis (locateSections raw text kind)
                (AnalyzeOptions.require options))
      /\ Forall (fun a =>
                   SectionAnalysis.found a = true
                   /\ (75 # 100 <= SectionAnalysis.confidence a)%Q)
                (WorkflowContext.analyses (RunResult.ctx run)).
Proof.
  intros now elapsed options Hmode run. subst run.
  unfold runWorkflow, buildWorkflow. rewrite Hmode.
  unfold execute_fetch, execute_extract, execute_locate, execute_validate,
    execute_generate, execute_emit_ledger.
  run_simpl. rewrite Hmode. run_simpl.
  destruct (fetchFiling options) as [[raw kind]|message] eqn:Ef;
    run_simpl; [|intros H; discriminate H].
  destruct (extractText raw kind) as [text|message] eqn:Ee;
    run_simpl; [|intros H; discriminate H].
  destruct (length text <? 1000)%nat eqn:El;
    run_simpl; [intros H; discriminate H|].
  apply Nat.ltb_ge in El.
  destruct (validateSections (locateSections raw text kind)
              (AnalyzeOptions.require options) COMMAND_CONFIDENCE_THRESHOLD
              true) as [warnings|message] eqn:Ev;
    run_simpl; [|intros H; discriminate H].
  intros _.
  destruct (@validation_guards_analysis _ _ _ _ Ev) as [-> Hall].
  exists raw, kind, text.
  split; [reflexivity|]. split; [exact Ee|]. split; [exact El|].
  split; [reflexivity|]. split; [exact Ev|]. split; [reflexivity|].
  exact Hall.
Qed.

End Program.

(* ================================================================== *)
(** ** The properties on concrete runs *)
(* ================================================================== *)

(** The located sections of [sample_html]: the third one is missing. *)
Lemma locateSections_three_results_witness :
  nth_error SECTION_PATTERNS 2 =
    Some (SectionPattern.mk (js "financials")
            [js "financials"; js "financial-statements";
             js "financial_statements"] financials_patterns)
  /\ nth_error (locateSections parse_sample sample_html [] html) 2 =
       Some (SectionMatch.mk (js "financials") false 0 (-1) (-1) 0 []).
Proof.
  split; [reflexivity|].
  apply (proj2 (proj2 (locateSections_three_results parse_sample sample_html
                         [] html)) 2%nat
               (SectionPattern.mk (js "financials")
                  [js "financials"; js "financial-statements";
                   js "financial_statements"] financials_patterns)).
  - reflexivity.
  - intros d r Hd Hr.
    assert (Hd' : In d sample_divs) by exact Hd.
    unfold sample_divs in Hd'. cbn [map In] in Hd'.
    cbn [SectionPattern.headingPatterns financials_patterns In] in Hr.
    destruct Hr as [<- | [<- | []]];
      destruct Hd' as [<- | [<- | [<- | [<- | [<- | []]]]]];
      vm_compute; reflexivity.
Defined.

Lemma locateSections_length_invariant_witness :
  In (findSectionByDomSiblings sample_divs
        (SectionPattern.mk (js "risk_factors")
           [js "risk-factors"; js "risk_factors"] risk_patterns))
     (locateSections parse_sample sample_html [] html)
  /\ SectionMatch.lengthChars
       (findSectionByDomSiblings sample_divs
          (SectionPattern.mk (js "risk_factors")
             [js "risk-factors"; js "risk_factors"] risk_patterns)) = 61%nat.
Proof.
  assert (H : In (findSectionByDomSiblings sample_divs
                    (SectionPattern.mk (js "risk_factors")
                       [js "risk-factors"; js "risk_factors"] risk_patterns))
                 (locateSections parse_sample sample_html [] html))
    by (left; reflexivity).
  split; [exact H|].
  rewrite (proj1 (locateSections_length_invariant parse_sample sample_html
                    [] html _ H)).
  vm_compute. reflexivity.
Defined.


(** The heading of the first sample section matches the strict pattern. *)
Lemma locator_confidence_meets_threshold_witness :
  In (findSectionByDomSiblings sample_divs
        (SectionPattern.mk (js "risk_factors")
           [js "risk-factors"; js "risk_factors"] risk_patterns))
     (locateSections parse_sample sample_html [] html)
  /\ SectionMatch.found
       (findSectionByDomSiblings sample_divs
          (SectionPattern.mk (js "risk_factors")
             [js "risk-factors"; js "risk_factors"] risk_patterns)) = true
  /\ (SectionMatch.confidence
        (findSectionByDomSiblings sample_divs
           (SectionPattern.mk (js "risk_factors")
              [js "risk-factors"; js "risk_factors"] risk_patterns))
      = 85 # 100
      \/ SectionMatch.confidence
           (findSectionByDomSiblings sample_divs
              (SectionPattern.mk (js "risk_factors")
                 [js "risk-factors"; js "risk_factors"] risk_patterns))
         = 90 # 100
      \/ SectionMatch.confidence
           (findSectionByDomSiblings sample_divs
              (SectionPattern.mk (js "risk_factors")
                 [js "risk-factors"; js "risk_factors"] risk_patterns))
         = 95 # 100).
Proof.
  assert (H : In (findSectionByDomSiblings sample_divs
                    (SectionPattern.mk (js "risk_factors")
                       [js "risk-factors"; js "risk_factors"] risk_patterns))
                 (locateSections parse_sample sample_html [] html))
    by (left; reflexivity).
  assert (F : SectionMatch.found
                (findSectionByDomSiblings sample_divs
                   (SectionPattern.mk (js "risk_factors")
                      [js "risk-factors"; js "risk_factors"] risk_patterns))
              = true) by (vm_compute; reflexivity).
  split; [exact H|]. split; [exact F|].
  exact (proj1 (locator_confidence_meets_threshold toLowerCase_ascii
                  parse_sample fetch_sample extract_identity sample_html []
                  html) _ H F).
Defined.

(** One analysis per requested key on the sample sections. *)
Lemma generateAnalysis_bounds_witness :
  length (AnalysisResult.sections
            (generateAnalysis toLowerCase_ascii sample_sections
               [js "risk-factors"; js "financials"])) = 2%nat.
Proof.
  exact (proj1 (generateAnalysis_bounds toLowerCase_ascii sample_sections
                  [js "risk-factors"; js "financials"])).
Defined.


(** Two calls on the same arguments at two readings of the clock. *)
Lemma buildLedger_pure_up_to_clock_witness :
  set_timestamp sample_clock_later
    (buildLedger sample_clock (initial_context (sample_options command))
       (WorkflowPlan.mk [] [] (75 # 100)) true None)
  = buildLedger sample_clock_later (initial_context (sample_options command))
      (WorkflowPlan.mk [] [] (75 # 100)) true None.
Proof.
  exact (proj1 (buildLedger_pure_up_to_clock sample_clock sample_clock_later
                  (initial_context (sample_options command))
                  (initial_context (sample_options command))
                  (WorkflowPlan.mk [] [] (75 # 100))
                  (WorkflowPlan.mk [] [] (75 # 100)) true None
                  eq_refl eq_refl eq_refl eq_refl eq_refl)).
Defined.

(** C3 as stated fails: the same arguments at two readings of the clock
    give two different ledgers. *)
Lemma buildLedger_reads_clock :
  buildLedger sample_clock (initial_context (sample_options command))
    (WorkflowPlan.mk [] [] (75 # 100)) true None
  <> buildLedger sample_clock_later
       (initial_context (sample_options command))
       (WorkflowPlan.mk [] [] (75 # 100)) true None.
Proof.
  intros H. apply (f_equal AuditLedger.timestamp) in H.
  vm_compute in H. discriminate H.
Qed.

(** A command-mode run whose fetch throws: the run is cut short with exit
    code 2, and the one ledger written has passed=false and the message of
    the fetch as failure reason. *)
Lemma runWorkflow_enforcement_witness :
  Forall keeps_stepResults
    (WorkflowPlan.steps
       (buildWorkflow toLowerCase_ascii parse_sample fetch_unreachable
          extract_identity (sample_options command)))
  /\ RunResult.exitCode
       (runWorkflow toLowerCase_ascii parse_sample fetch_unreachable
          extract_identity sample_clock sample_elapsed
          (sample_options command) None) = Some 2%Z
  /\ exists ledger,
       ledgers
         (RunResult.files
            (runWorkflow toLowerCase_ascii parse_sample fetch_unreachable
               extract_identity sample_clock sample_elapsed
               (sample_options command) None)) = [ledger]
       /\ AuditLedger.passed ledger = false
       /\ AuditLedger.failureReason ledger = Some (js "fetch failed").
Proof.
  assert (E : RunResult.exitCode
                (runWorkflow toLowerCase_ascii parse_sample fetch_unreachable
                   extract_identity sample_clock sample_elapsed
                   (sample_options command) None) = Some 2%Z)
    by (vm_compute; reflexivity).
  assert (R : WorkflowContext.stepResults
                (RunResult.ctx
                   (runWorkflow toLowerCase_ascii parse_sample
                      fetch_unreachable extract_identity sample_clock
                      sample_elapsed (sample_options command) None)) =
              [StepResult.mk fetch failed 5 (Some (js "fetch failed"))])
    by (vm_compute; reflexivity).
  split; [apply buildWorkflow_keeps_stepResults|]. split; [exact E|].
  destruct (runWorkflow_enforcement toLowerCase_ascii parse_sample
              fetch_unreachable extract_identity sample_clock sample_elapsed
              (sample_options command) None
              (buildWorkflow_keeps_stepResults toLowerCase_ascii parse_sample
                 fetch_unreachable extract_identity (sample_options command)))
    as [(ledger & Hl & Hend) _].
  exists ledger. split; [exact Hl|].
  destruct Hend
    as [(He & _)
       | (_ & pre & step & res & message & Hres & _ & _ & _ & _ & Herr & _
          & Hp & Hr)].
  - rewrite E in He. discriminate He.
  - split; [exact Hp|]. rewrite Hr, <- Herr.
    rewrite R in Hres. destruct pre as [|r0 pre].
    + injection Hres as <-. reflexivity.
    + destruct pre; discriminate Hres.
Defined.

(** C1 as stated fails: in command mode a failing fetch ends the run, and
    the ledger of that run lists fetch alone. *)
Lemma halted_run_ledger_misses_steps :
  exists ledger,
    ledgers
      (RunResult.files
         (runWorkflow toLowerCase_ascii parse_sample fetch_unreachable
            extract_identity sample_clock sample_elapsed
            (sample_options command) None)) = [ledger]
    /\ AuditLedger.executedSteps ledger = [fetch]
    /\ AuditLedger.skippedSteps ledger = []
    /\ ~ covers_universe_once ledger.
Proof.
  eexists. split; [vm_compute; reflexivity|].
  split; [reflexivity|]. split; [reflexivity|].
  intros H. specialize (H extract (or_intror (or_introl eq_refl))).
  vm_compute in H. discriminate H.
Qed.

(** An intent-mode run with two steps skipped by the router: the fetch
    fails, the run goes on to the end and its ledger covers the universe. *)
Lemma completed_run_covers_universe_witness :
  RunResult.exitCode
    (runWorkflow toLowerCase_ascii parse_sample fetch_unreachable
       extract_identity sample_clock sample_elapsed (sample_options intent)
       (Some (WorkflowPlan.mk
                (WorkflowPlan.steps
                   (buildWorkflow toLowerCase_ascii parse_sample
                      fetch_unreachable extract_identity
                      (sample_options intent)))
                [validate; generate] (5 # 10)))) = None
  /\ exists ledger,
       ledgers
         (RunResult.files
            (runWorkflow toLowerCase_ascii parse_sample fetch_unreachable
               extract_identity sample_clock sample_elapsed
               (sample_options intent)
               (Some (WorkflowPlan.mk
                        (WorkflowPlan.steps
                           (buildWorkflow toLowerCase_ascii parse_sample
                              fetch_unreachable extract_identity
                              (sample_options intent)))
                        [validate; generate] (5 # 10))))) = [ledger]
       /\ covers_universe_once ledger.
Proof.
  assert (E : RunResult.exitCode
    (runWorkflow toLowerCase_ascii parse_sample fetch_unreachable
       extract_identity sample_clock sample_elapsed (sample_options intent)
       (Some (WorkflowPlan.mk
                (WorkflowPlan.steps
                   (buildWorkflow toLowerCase_ascii parse_sample
                      fetch_unreachable extract_identity
                      (sample_options intent)))
                [validate; generate] (5 # 10)))) = None)
    by (vm_compute; reflexivity).
  split; [exact E|].
  apply (completed_run_covers_universe toLowerCase_ascii parse_sample
           fetch_unreachable extract_identity sample_clock sample_elapsed
           (sample_options intent)
           (Some (WorkflowPlan.mk
                    (WorkflowPlan.steps
                       (buildWorkflow toLowerCase_ascii parse_sample
                          fetch_unreachable extract_identity
                          (sample_options intent)))
                    [validate; generate] (5 # 10)))).
  - reflexivity.
  - apply buildWorkflow_keeps_stepResults.
  - repeat constructor; cbn; intuition discriminate.
  - exact E.
Defined.

(* ------------------------------------------------------------------ *)
(** *** Further properties on concrete inputs *)

(** The analysis of the risk-factors section of the summarizer test: five
    summary sentences, of which the first three are the evidence. *)
Lemma analysis_evidence_from_summary_witness :
  exists a,
    In a (AnalysisResult.sections
            (generateAnalysis toLowerCase_ascii [sample_risk_section]
               [js "risk-factors"]))
    /\ length (SectionAnalysis.summary a) = 5%nat
    /\ SectionAnalysis.evidence a =
         map (fun t => truncate t 200)
             (firstn 3 (SectionAnalysis.summary a)).
Proof.
  assert (H : exists a,
            In a (AnalysisResult.sections
                    (generateAnalysis toLowerCase_ascii [sample_risk_section]
                       [js "risk-factors"]))
            /\ length (SectionAnalysis.summary a) = 5%nat).
  { vm_compute. eexists. split; [left; reflexivity | reflexivity]. }
  destruct H as (a & Hin & H5). exists a.
  split; [exact Hin|]. split; [exact H5|].
  exact (proj1 (analysis_evidence_from_summary toLowerCase_ascii
                  [sample_risk_section] [js "risk-factors"] a Hin)).
Defined.

Lemma truncate_exact_witness :
  (3 <= 8)%nat
  /\ (8 < length (js "Hello world"))%nat
  /\ truncate (js "Hello world") 8 = js "Hello..."
  /\ length (truncate (js "Hello world") 8) = 8%nat.
Proof.
  assert (H3 : (3 <= 8)%nat) by lia.
  assert (Hl : (8 < length (js "Hello world"))%nat) by (cbn; lia).
  split; [exact H3|]. split; [exact Hl|].
  exact (proj2 (@truncate_exact (js "Hello world") 8 H3) Hl).
Defined.

(** The risk-factors section of the sample document starts at its heading,
    block 0. *)
Lemma html_section_offsets_witness :
  SectionMatch.found
    (findSectionByDomSiblings sample_divs sample_risk_pattern) = true
  /\ exists h d,
       SectionMatch.startOffset
         (findSectionByDomSiblings sample_divs sample_risk_pattern)
         = Z.of_nat h
       /\ nth_error sample_divs h = Some d
       /\ heading_candidate
            (SectionPattern.headingPatterns sample_risk_pattern) d = true.
Proof.
  assert (F : SectionMatch.found
                (findSectionByDomSiblings sample_divs sample_risk_pattern)
              = true) by (vm_compute; reflexivity).
  split; [exact F|].
  destruct (html_section_offsets sample_divs sample_risk_pattern F)
    as (h & d & H1 & H2 & H3 & _).
  exists h, d. split; [exact H1|]. split; [exact H2 | exact H3].
Defined.

(** Its content stops before the heading of item 7. *)
Lemma html_section_content_witness :
  SectionMatch.found
    (findSectionByDomSiblings sample_divs sample_risk_pattern) = true
  /\ exists e d,
       SectionMatch.endOffset
         (findSectionByDomSiblings sample_divs sample_risk_pattern)
         = Z.of_nat e
       /\ nth_error sample_divs e = Some d
       /\ ends_section d = true.
Proof.
  assert (F : SectionMatch.found
                (findSectionByDomSiblings sample_divs sample_risk_pattern)
              = true) by (vm_compute; reflexivity).
  split; [exact F|].
  destruct (html_section_content sample_divs sample_risk_pattern F)
    as (h & e & between & _ & He & _ & _ & _ & Hend).
  assert (He2 : e = 2%nat).
  { apply Nat2Z.inj. rewrite <- He. vm_compute. reflexivity. }
  exists e, (js "Item 7. Management's Discussion and Analysis").
  split; [exact He|].
  assert (Hn : nth_error sample_divs e =
               Some (js "Item 7. Management's Discussion and Analysis"))
    by (rewrite He2; reflexivity).
  split; [exact Hn | exact (Hend _ Hn)].
Defined.

(** The first section of the plain-text sample lies inside the text. *)
Lemma text_section_offsets_witness :
  In (locate_pattern_in_text (js "risk_factors") sample_text 0 risk_patterns)
     (locateInText sample_text)
  /\ SectionMatch.found
       (locate_pattern_in_text (js "risk_factors") sample_text 0
          risk_patterns) = true
  /\ (SectionMatch.endOffset
        (locate_pattern_in_text (js "risk_factors") sample_text 0
           risk_patterns) <= Z.of_nat (length sample_text))%Z.
Proof.
  assert (H : In (locate_pattern_in_text (js "risk_factors") sample_text 0
                    risk_patterns) (locateInText sample_text))
    by (left; reflexivity).
  assert (F : SectionMatch.found
                (locate_pattern_in_text (js "risk_factors") sample_text 0
                   risk_patterns) = true) by (vm_compute; reflexivity).
  split; [exact H|]. split; [exact F|].
  exact (proj1 (proj2 (@text_section_offsets sample_text _ H F))).
Defined.


(** A run in command mode on a document with a long risk-factors section,
    the only section required: all six steps pass. *)
Lemma command_run_full_coverage_witness :
  AnalyzeOptions.mode sample_risk_options = command
  /\ RunResult.exitCode
       (runWorkflow toLowerCase_ascii parse_long fetch_long extract_identity
          sample_clock sample_elapsed sample_risk_options None) = None
  /\ exists ledger,
       ledgers
         (RunResult.files
            (runWorkflow toLowerCase_ascii parse_long fetch_long
               extract_identity sample_clock sample_elapsed
               sample_risk_options None)) = [ledger]
       /\ AuditLedger.executedSteps ledger = AuditLedger.requiredSteps ledger.
Proof.
  assert (E : RunResult.exitCode
                (runWorkflow toLowerCase_ascii parse_long fetch_long
                   extract_identity sample_clock sample_elapsed
                   sample_risk_options None) = None)
    by (vm_compute; reflexivity).
  split; [reflexivity|]. split; [exact E|].
  destruct (command_run_full_coverage toLowerCase_ascii parse_long fetch_long
              extract_identity sample_clock sample_elapsed
              sample_risk_options eq_refl E)
    as (_ & ledger & Hl & Hx & _).
  exists ledger. split; [exact Hl | exact Hx].
Defined.

(** A run in command mode whose fetch fails: the ledger lists fetch alone
    and carries the error of the fetch. *)
Lemma command_run_halts_at_first_failure_witness :
  AnalyzeOptions.mode (sample_options command) = command
  /\ RunResult.exitCode
       (runWorkflow toLowerCase_ascii parse_sample fetch_unreachable
          extract_identity sample_clock sample_elapsed
          (sample_options command) None) = Some 2%Z
  /\ exists ledger,
       ledgers
         (RunResult.files
            (runWorkflow toLowerCase_ascii parse_sample fetch_unreachable
               extract_identity sample_clock sample_elapsed
               (sample_options command) None)) = [ledger]
       /\ AuditLedger.passed ledger = false
       /\ AuditLedger.failureReason ledger <> None.
Proof.
  assert (E : RunResult.exitCode
                (runWorkflow toLowerCase_ascii parse_sample fetch_unreachable
                   extract_identity sample_clock sample_elapsed
                   (sample_options command) None) = Some 2%Z)
    by (vm_compute; reflexivity).
  split; [reflexivity|]. split; [exact E|].
  destruct (command_run_halts_at_first_failure toLowerCase_ascii parse_sample
              fetch_unreachable extract_identity sample_clock sample_elapsed
              (sample_options command) eq_refl E)
    as (pre & res & ledger & _ & _ & _ & _ & Hl & _ & _ & Hp & _ & Hr).
  exists ledger. split; [exact Hl|]. split; [exact Hp | exact Hr].
Defined.

(** Four block elements, one repeated up to white space and one too short:
    two lines. *)
Lemma extractFromHtml_lines_witness :
  filter (fun t => 2 <? length t)%nat
    (map (fun nodes => block_text (join [32%N] nodes)) (sample_blocks []))
  <> []
  /\ split_on 10
       (Extractor.extractFromHtml sample_blocks (fun _ => []) (fun _ => []) [])
     = [js "Hello world"; js "Second paragraph"].
Proof.
  assert (H : filter (fun t => 2 <? length t)%nat
                (map (fun nodes => block_text (join [32%N] nodes))
                   (sample_blocks [])) <> [])
    by (vm_compute; discriminate).
  split; [exact H|].
  rewrite (proj1 (extractFromHtml_lines sample_blocks (fun _ => [])
                    (fun _ => []) [] H)).
  vm_compute. reflexivity.
Defined.

(** The generic ticker of the patterns test. *)
Lemma extractTicker_shape_witness :
  extractTicker (js "analyze XYZ 10-K") = Some (js "XYZ")
  /\ (In (js "XYZ")
         (map js ["AAPL"; "GOOGL"; "MSFT"; "AMZN"; "TSLA"; "META";
                  "NVDA"]%string)
      \/ ((forall pt, In pt TICKER_PATTERNS ->
                      test (fst pt) (js "analyze XYZ 10-K") = false)
          /\ (2 <= length (js "XYZ") <= 5)%nat
          /\ Forall (fun c => (65 <= c <= 90)%N) (js "XYZ")
          /\ ~ In (js "XYZ") stopWords
          /\ exists i,
               exec GENERIC_TICKER (js "analyze XYZ 10-K") = Some i
               /\ (forall k, (k < i)%nat ->
                     match_at GENERIC_TICKER (js "analyze XYZ 10-K") k
                     = None)
               /\ match_at GENERIC_TICKER (js "analyze XYZ 10-K") i
                  = Some (i + length (js "XYZ"))%nat
               /\ slice i (i + length (js "XYZ")) (js "analyze XYZ 10-K")
                  = js "XYZ"
               /\ word_before (js "analyze XYZ 10-K") i = false
               /\ word_at (js "analyze XYZ 10-K") (i + length (js "XYZ"))
                  = false)).
Proof.
  assert (H : extractTicker (js "analyze XYZ 10-K") = Some (js "XYZ"))
    by (vm_compute; reflexivity).
  split; [exact H|].
  exact (@extractTicker_shape (js "analyze XYZ 10-K") (js "XYZ") H).
Defined.

(** A key written with capital letters resolves to its section name. *)
Lemma section_aliases_agree_witness :
  matchesSectionKey toLowerCase_ascii (js "risk_factors") (js "Risk-Factors")
    = true
  /\ sectionKeyToName toLowerCase_ascii (js "Risk-Factors")
     = Str (js "risk_factors").
Proof.
  assert (H : matchesSectionKey toLowerCase_ascii (js "risk_factors")
                (js "Risk-Factors") = true) by (vm_compute; reflexivity).
  split; [exact H|].
  exact (proj1 (@section_aliases_agree toLowerCase_ascii (js "risk_factors")
                  (js "Risk-Factors") H)).
Defined.

(** A long risk-factors section passes the validation of command mode,
    and its analysis is found. *)
Lemma validated_keys_are_analysed_witness :
  validateSections toLowerCase_ascii
    [SectionMatch.mk (js "risk_factors") true (95 # 100) 0 1000 1000
       (repeat 120%N 1000)]
    [js "risk-factors"] (75 # 100) true = Returned []
  /\ Forall (fun a =>
               SectionAnalysis.found a = true
               /\ (75 # 100 <= SectionAnalysis.confidence a)%Q)
            (AnalysisResult.sections
               (generateAnalysis toLowerCase_ascii
                  [SectionMatch.mk (js "risk_factors") true (95 # 100) 0
                     1000 1000 (repeat 120%N 1000)]
                  [js "risk-factors"])).
Proof.
  assert (H : validateSections toLowerCase_ascii
                [SectionMatch.mk (js "risk_factors") true (95 # 100) 0 1000
                   1000 (repeat 120%N 1000)]
                [js "risk-factors"] (75 # 100) true = Returned [])
    by (vm_compute; reflexivity).
  split; [exact H|].
  exact (proj2 (@validated_keys_are_analysed toLowerCase_ascii
                  [SectionMatch.mk (js "risk_factors") true (95 # 100) 0
                     1000 1000 (repeat 120%N 1000)]
                  [js "risk-factors"] (75 # 100) [] H)).
Defined.

(** The run on the document with the long risk-factors section: the one
    required section is analysed with a confidence of at least 0.75. *)
Lemma command_run_guarantee_witness :
  AnalyzeOptions.mode sample_risk_options = command
  /\ RunResult.exitCode
       (runWorkflow toLowerCase_ascii parse_long fetch_long extract_identity
          sample_clock sample_elapsed sample_risk_options None) = None
  /\ Forall (fun a =>
               SectionAnalysis.found a = true
               /\ (75 # 100 <= SectionAnalysis.confidence a)%Q)
            (WorkflowContext.analyses
               (RunResult.ctx
                  (runWorkflow toLowerCase_ascii parse_long fetch_long
                     extract_identity sample_clock sample_elapsed
                     sample_risk_options None))).
Proof.
  assert (E : RunResult.exitCode
                (runWorkflow toLowerCase_ascii parse_long fetch_long
                   extract_identity sample_clock sample_elapsed
                   sample_risk_options None) = None)
    by (vm_compute; reflexivity).
  split; [reflexivity|]. split; [exact E|].
  destruct (command_run_guarantee toLowerCase_ascii parse_long fetch_long
              extract_identity sample_clock sample_elapsed
              sample_risk_options eq_refl E)
    as (raw & kind & text & _ & _ & _ & _ & _ & _ & Hall).
  exact Hall.
Defined.
